(** * vaplac.base.DataTaker: quantity store, steady-state segmenter and binner

    A shallow embedding of [src/vaplac/base.py] and of the theorems that
    settle the specification's claims about it.

    Numbers are IEEE-754 binary64 values (Rocq's primitive floats), as numpy's
    [float64] arrays and Python's [float] are.  Python exceptions are values
    of [exn]; a method that can raise returns [err].  Dictionaries are
    [gmap]s, Python sets are [gset]s, numpy arrays are lists. *)

From Stdlib Require Import ZArith List String Ascii Floats Uint63 Lia Bool.
From Stdlib Require Import DecimalString.
From stdpp Require Import gmap strings list.

Local Open Scope string_scope.
Local Open Scope Z_scope.

(** ** Python and numpy run-time behaviour the source relies on *)

Module Py.

Inductive exn : Type :=
  | IndexError
  | KeyError (key : string)
  | ValueError (msg : string)
  | TypeError
  | AttributeError
  | RecursionError.

Inductive err (A : Type) : Type :=
  | Ok (a : A)
  | Raise (e : exn).
Arguments Ok {A} a.
Arguments Raise {A} e.

Definition bind {A B : Type} (m : err A) (k : A -> err B) : err B :=
  match m with
  | Ok a => k a
  | Raise e => Raise e
  end.

Definition is_ok {A : Type} (m : err A) : bool :=
  match m with Ok _ => true | Raise _ => false end.

Fixpoint mapM {A B : Type} (f : A -> err B) (l : list A) : err (list B) :=
  match l with
  | [] => Ok []
  | x :: l' =>
      bind (f x) (fun y => bind (mapM f l') (fun ys => Ok (y :: ys)))
  end.

(** [int] to [float] conversion (exact below 2^53). *)
Definition float_of_Z (z : Z) : float :=
  if z <? 0 then PrimFloat.opp (PrimFloat.of_uint63 (Uint63.of_Z (- z)))
  else PrimFloat.of_uint63 (Uint63.of_Z z).

(** [a[i]] with Python's negative indices: [-1] is the last element. *)
Definition norm_index (n : nat) (i : Z) : option nat :=
  let i' := if i <? 0 then i + Z.of_nat n else i in
  if (0 <=? i') && (i' <? Z.of_nat n) then Some (Z.to_nat i') else None.

Definition getitem {A : Type} (a : list A) (i : Z) : err A :=
  match norm_index (length a) i with
  | Some k => match a !! k with Some x => Ok x | None => Raise IndexError end
  | None => Raise IndexError
  end.

Definition setitem {A : Type} (a : list A) (i : Z) (x : A) : err (list A) :=
  match norm_index (length a) i with
  | Some k => Ok (<[k:=x]> a)
  | None => Raise IndexError
  end.

(** Bounds of a slice [a[start:stop]]: a negative bound counts from the end,
    and both are clipped to [0, len(a)].  A missing bound is the array's
    end on its side. *)
Definition slice_bound (n : nat) (k : Z) : nat :=
  if k <? 0 then Z.to_nat (Z.max 0 (k + Z.of_nat n))
  else Z.to_nat (Z.min k (Z.of_nat n)).

Definition fill_range {A : Type} (a : list A) (lo hi : nat) (x : A) : list A :=
  imap (fun j y => if (lo <=? j)%nat && (j <? hi)%nat then x else y) a.

(** [a[start:stop] = x] and [a[start:] = x] for a scalar [x]. *)
Definition setslice {A : Type} (a : list A) (start stop : Z) (x : A) : list A :=
  fill_range a (slice_bound (length a) start) (slice_bound (length a) stop) x.

Definition setslice_from {A : Type} (a : list A) (start : Z) (x : A) : list A :=
  fill_range a (slice_bound (length a) start) (length a) x.

(** [math.sqrt]: a negative argument raises, NaN is returned as it is. *)
Definition math_sqrt (x : float) : err float :=
  if PrimFloat.ltb x 0%float then Raise (ValueError "math domain error")
  else Ok (PrimFloat.sqrt x).

(** [np.empty_like(a)]: an array of [a]'s length whose entries are whatever
    the allocator left there; [g] gives the content found at each index. *)
Definition empty_like {A B : Type} (g : nat -> B) (a : list A) : list B :=
  map g (seq 0 (length a)).

End Py.

Import Py.

Notation "'do' x <- m ; k" := (bind m (fun x => k))
  (at level 10, x name, m at level 100, k at level 200,
   format "'[v' 'do'  x  <-  m ; '/' k ']'").

(** ** The steady-state segmenter ([DataTaker.steady_state_steps_number]) *)

Module Segmenter.

(** The loop's variables: the three arrays and [buffer]. *)
Record loop_state : Type := LoopState {
  mean : list float;
  var : list float;
  steps_number : list float;
  buffer : Z
}.

(** What [np.empty_like] hands out for [mean], [var] and [steps_number]. *)
Record uninitialised : Type := Uninitialised {
  u_mean : nat -> float;
  u_var : nat -> float;
  u_steps : nat -> float
}.

(** One iteration of [for i, f in enumerate(frequency[1:])]. *)
Definition loop_body (sd_limit : float) (i : Z) (f : float) (s : loop_state)
  : err loop_state :=
  let b := float_of_Z (buffer s) in
  let b1 := float_of_Z (buffer s + 1) in
  do mean_prev <- getitem (mean s) (i - 1);
  do mean1 <- setitem (mean s) i ((b * mean_prev + f) / b1)%float;
  do var_prev <- getitem (var s) (i - 1);
  do mean_prev' <- getitem mean1 (i - 1);
  do mean_i <- getitem mean1 i;
  do var1 <- setitem (var s) i
               ((b * (var_prev + mean_prev' * mean_prev') + f * f) / b1
                - mean_i * mean_i)%float;
  let buffer1 := buffer s + 1 in
  do var_i <- getitem var1 i;
  do sd <- math_sqrt var_i;
  if PrimFloat.ltb sd_limit sd then
    do mean2 <- setitem mean1 i f;
    do var2 <- setitem var1 i 0%float;
    Ok (LoopState mean2 var2
          (setslice (steps_number s) (i - buffer1) i (float_of_Z buffer1)) 0)
  else Ok (LoopState mean1 var1 (steps_number s) buffer1).

Fixpoint loop (sd_limit : float) (i : Z) (fs : list float) (s : loop_state)
  : err loop_state :=
  match fs with
  | [] => Ok s
  | f :: fs' => do s' <- loop_body sd_limit i f s; loop sd_limit (i + 1) fs' s'
  end.

(** Lines 684-701, on the magnitude of the frequency in hertz. *)
Definition steps_number_of (u : uninitialised) (frequency : list float)
    (sd_limit : float) : err (list float) :=
  let mean0 := empty_like (u_mean u) frequency in
  let var0 := empty_like (u_var u) frequency in
  let steps0 := empty_like (u_steps u) frequency in
  do f0 <- getitem frequency 0;
  do mean1 <- setitem mean0 0 f0;
  do var1 <- setitem var0 0 0%float;
  do s <- loop sd_limit 0 (tail frequency) (LoopState mean1 var1 steps0 1);
  Ok (setslice_from (steps_number s) (- buffer s) (float_of_Z (buffer s))).

(** *** What a segmentation is

    [durations] is made of consecutive runs, each run of [n] samples holding
    [n] times the sampling interval at every one of its samples. *)
Definition run (timestep : Z) (n : nat) : list float :=
  replicate n (float_of_Z (Z.of_nat n) * float_of_Z timestep)%float.

Definition run_partition (timestep : Z) (durations : list float) : Prop :=
  exists lengths : list nat,
    Forall (fun n => (0 < n)%nat) lengths /\
    durations = concat (run timestep <$> lengths).

(** Line 454: [steps_number * timestep]. *)
Definition durations_of (timestep : Z) (steps : list float) : list float :=
  map (fun x => x * float_of_Z timestep)%float steps.

End Segmenter.

(** ** The binner ([DataTaker.set_steady_state_limits], lines 455-481) *)

Module Binner.

(** *** [numpy.digitize]

    [digitize] first classifies [bins] as increasing (1), decreasing (-1) or
    neither (0) and raises on the last; the three functions below are
    numpy's [check_monotonic]. *)

Fixpoint skip_equal (first : float) (l : list float) : list float :=
  match l with
  | [] => []
  | x :: l' => if PrimFloat.eqb x first then skip_equal first l' else l
  end.

(** No step down ([last > next]) on the way from [last] through [l]. *)
Fixpoint no_fall (last : float) (l : list float) : bool :=
  match l with
  | [] => true
  | next :: l' => if PrimFloat.ltb next last then false else no_fall next l'
  end.

(** No step up ([last < next]) on the way from [last] through [l]. *)
Fixpoint no_rise (last : float) (l : list float) : bool :=
  match l with
  | [] => true
  | next :: l' => if PrimFloat.ltb last next then false else no_rise next l'
  end.

Definition monotonicity (bins : list float) : Z :=
  match bins with
  | [] => 1
  | first :: l =>
      match skip_equal first l with
      | [] => 1
      | next :: l' =>
          if PrimFloat.ltb first next
          then (if no_fall next l' then 1 else 0)
          else (if no_rise next l' then -1 else 0)
      end
  end.

Definition is_nan (x : float) : bool := negb (PrimFloat.eqb x x).

(** numpy's order on floats puts NaN after every number. *)
Definition np_less (v x : float) : bool :=
  PrimFloat.ltb v x || (is_nan x && negb (is_nan v)).

(** [np.searchsorted(a, v, side='right')] for [a] sorted in numpy's order:
    the first index [i] with [v < a[i]], [len(a)] when there is none (what
    numpy's binary search returns on such an [a]). *)
Fixpoint searchsorted_right (a : list float) (v : float) : nat :=
  match a with
  | [] => O
  | x :: a' => if np_less v x then O else S (searchsorted_right a' v)
  end.

Definition digitize (x bins : list float) : err (list Z) :=
  let mono := monotonicity bins in
  if mono =? 0
  then Raise (ValueError "bins must be monotonically increasing or decreasing")
  else if mono =? -1
  then Ok (map (fun v => Z.of_nat (length bins)
                         - Z.of_nat (searchsorted_right (rev bins) v)) x)
  else Ok (map (fun v => Z.of_nat (searchsorted_right bins v)) x).

(** *** Labels

    An element of [dimlimits] is a threshold with the unit it is shown in:
    the magnitude is kept in seconds here, [dimlimits.ito('minutes')] only
    changes [shown_in].  A label is the f-string of [lbound], [ubound] or
    [between] applied to such elements. *)

Inductive time_unit : Type := Seconds | Minutes.

Record bound : Type := Bound { in_seconds : float; shown_in : time_unit }.

Inductive label : Type :=
  | lbound (b : bound)
  | ubound (b : bound)
  | between (lb ub : bound).

Definition label_of (include_lb include_ub : bool) (dimlimits : list bound)
    (nlimits : nat) (binidx : Z) : err (option label) :=
  if binidx =? -1 then
    if include_lb
    then do b <- getitem dimlimits 0; Ok (Some (lbound b))
    else Ok None
  else if binidx =? Z.of_nat nlimits - 1 then
    if include_ub
    then do b <- getitem dimlimits (-1); Ok (Some (ubound b))
    else Ok None
  else
    do lb <- getitem dimlimits binidx;
    do ub <- getitem dimlimits (binidx + 1);
    Ok (Some (between lb ub)).

(** The explicit thresholds: [limits] without the open sentinels. *)
Definition include_lb_of (limits : list float) : err bool :=
  do l0 <- getitem limits 0; Ok (PrimFloat.eqb l0 neg_infinity).

Definition include_ub_of (limits : list float) : err bool :=
  do ll <- getitem limits (-1); Ok (PrimFloat.eqb ll infinity).

Definition explicit (include_lb include_ub : bool) (limits : list float)
  : list float :=
  let limits1 := if include_lb then drop 1 limits else limits in
  if include_ub then take (length limits1 - 1) limits1 else limits1.

Definition explicit_thresholds (limits : list float) : list float :=
  match include_lb_of limits, include_ub_of limits with
  | Ok include_lb, Ok include_ub => explicit include_lb include_ub limits
  | _, _ => []
  end.

(** Lines 455-481: the value assigned to [raw_data['steady_state_time']],
    or the exception raised before that assignment is reached. *)
Definition sst_bins (steady_state_time : list float) (limits : list float)
  : err (list (option label)) :=
  do include_lb <- include_lb_of limits;
  do include_ub <- include_ub_of limits;
  let limits' := explicit include_lb include_ub limits in
  do l1 <- getitem limits' 1;
  let unit := if PrimFloat.leb 60%float l1 then Minutes else Seconds in
  let dimlimits := map (fun l => Bound l unit) limits' in
  do idx <- digitize steady_state_time limits';
  mapM (fun d => label_of include_lb include_ub dimlimits (length limits') (d - 1))
       idx.

(** *** Orderings of a sequence of thresholds *)

(** Every threshold is at most the next one. *)
Fixpoint ascending (l : list float) : bool :=
  match l with
  | x :: (y :: _) as l' => PrimFloat.leb x y && ascending l'
  | _ => true
  end.

(** Every threshold is below the next one. *)
Fixpoint strictly_ascending (l : list float) : bool :=
  match l with
  | x :: (y :: _) as l' => PrimFloat.ltb x y && strictly_ascending l'
  | _ => true
  end.

(** Some threshold is below the next one. *)
Fixpoint has_rise (l : list float) : bool :=
  match l with
  | x :: (y :: _) as l' => PrimFloat.ltb x y || has_rise l'
  | _ => false
  end.

(** Some threshold is above the next one. *)
Fixpoint has_fall (l : list float) : bool :=
  match l with
  | x :: (y :: _) as l' => PrimFloat.ltb y x || has_fall l'
  | _ => false
  end.

End Binner.

(** ** The data logger's dataset and the quantity store *)

Module DataTaker.

(** *** Data *)

(** A cell of the raw table: a number, a string (the logger writes
    ['UnderRange'] for a reading it could not take) or [None]. *)
Inductive cell : Type :=
  | CNum (x : float)
  | CStr (s : string)
  | CNone.

(** [raw_data]: a pandas DataFrame, column by column. *)
Record frame : Type := Frame {
  n_rows : nat;
  columns : gmap string (list cell)
}.

(** A row of the name-conversion table ([nconv.loc[name, ...]]); ['-'] in
    the file is [None]. *)
Record conversion : Type := Conversion {
  col_names : option string;
  conv_units : option string;
  conv_labels : option string;
  conv_properties : option string
}.

(** An xpint [Quantity]: [Q_(magnitude, units=, label=, prop=)]. *)
Record Quantity : Type := Q_ {
  magnitude : list cell;
  units : option string;
  qlabel : option string;
  prop : option string
}.

(** A value of a row filter ([index_file=1], [test_period='...']). *)
Inductive filter_value : Type :=
  | FInt (z : Z)
  | FStr (s : string).

#[global] Instance filter_value_eq_dec : EqDecision filter_value.
Proof. solve_decision. Defined.

(** A write to [self.quantities]: the history of these writes is ghost
    state, kept in [trace] to state which derivations a call performs. *)
Inductive event : Type :=
  | EClear
  | EStore (name : string).

Record DataTaker : Type := Self {
  raw_data : frame;
  timestamps : list Z;
  _name_converter : gmap string conversion;
  quantities : gmap string Quantity;
  _groups : gmap string filter_value;
  trace : list event
}.

Definition set_raw_data (df : frame) (s : DataTaker) : DataTaker :=
  Self df (timestamps s) (_name_converter s) (quantities s) (_groups s) (trace s).

Definition set_quantities (q : gmap string Quantity) (e : list event)
    (s : DataTaker) : DataTaker :=
  Self (raw_data s) (timestamps s) (_name_converter s) q (_groups s)
       (trace s ++ e).

Definition set_groups (g : gmap string filter_value) (s : DataTaker)
  : DataTaker :=
  Self (raw_data s) (timestamps s) (_name_converter s) (quantities s) g
       (trace s).

(** *** The collaborators outside the repository

    xpint (unit conversion and formatting), CoolProp (the property adapter,
    one sample at a time; the source calls it on whole arrays), Python's
    [float()] and the order in which a [set] is iterated. *)
Class Externals : Type := {
  Q_to : Quantity -> option string -> err Quantity;
  np_add : Quantity -> Quantity -> err Quantity;
  PropsSI_H_PT : float -> float -> err float;
  PropsSI_H_PQ : float -> float -> err float;
  PhaseSI_PT : float -> float -> err string;
  HAPropsSI_W : list float -> list float -> err (list float);
  py_float : string -> err float;
  format_bound : Binner.bound -> string;
  set_order : gset string -> list string;
  set_order_perm : forall X : gset string, set_order X ≡ₚ elements X
}.

(** *** Methods run on [self]: the state survives an exception *)

Definition M (A : Type) : Type := DataTaker -> err A * DataTaker.

Definition ret {A : Type} (a : A) : M A := fun s => (Ok a, s).

Definition raise {A : Type} (e : exn) : M A := fun s => (Raise e, s).

Definition lift {A : Type} (r : err A) : M A := fun s => (r, s).

Definition bindM {A B : Type} (m : M A) (k : A -> M B) : M B :=
  fun s =>
    match m s with
    | (Ok a, s') => k a s'
    | (Raise e, s') => (Raise e, s')
    end.

Definition gets {A : Type} (f : DataTaker -> A) : M A :=
  fun s => (Ok (f s), s).

Definition modify (f : DataTaker -> DataTaker) : M unit :=
  fun s => (Ok tt, f s).

Fixpoint for_each {A : Type} (l : list A) (body : A -> M unit) : M unit :=
  match l with
  | [] => ret tt
  | x :: l' => bindM (body x) (fun _ => for_each l' body)
  end.

End DataTaker.

Import DataTaker.

Notation "'do!' x <- m ; k" := (bindM m (fun x => k))
  (at level 10, x name, m at level 100, k at level 200,
   format "'[v' 'do!'  x  <-  m ; '/' k ']'").
Notation "m ;; k" := (bindM m (fun _ => k))
  (at level 100, k at level 200, right associativity).

(** ** Python string operations used by [get] and [_build_quantities] *)

Module PyStr.

(** ASCII white space, as [str.split()] sees it. *)
Definition is_space (c : ascii) : bool :=
  let n := nat_of_ascii c in
  ((9 <=? n) && (n <=? 13) || (28 <=? n) && (n <=? 32))%nat.

(** [s.split()]: the maximal runs of characters that are not white space. *)
Fixpoint split_from (word : option string) (s : string) : list string :=
  match s with
  | EmptyString => match word with Some w => [w] | None => [] end
  | String c s' =>
      if is_space c then
        match word with
        | Some w => w :: split_from None s'
        | None => split_from None s'
        end
      else
        split_from
          (Some (match word with
                 | Some w => w ++ String c EmptyString
                 | None => String c EmptyString
                 end)) s'
  end.

Definition split (s : string) : list string := split_from None s.

(** [s.split('/', 1)] when ['/' in s]: the text before and after the first
    slash; [None] when [s] has no slash. *)
Fixpoint split_slash (s : string) : option (string * string) :=
  match s with
  | EmptyString => None
  | String c s' =>
      if Ascii.eqb c "/" then Some (EmptyString, s')
      else match split_slash s' with
           | Some (a, b) => Some (String c a, b)
           | None => None
           end
  end.

(** [s.strip(c)] for a single character [c]. *)
Fixpoint lstrip (c : ascii) (s : string) : string :=
  match s with
  | EmptyString => EmptyString
  | String a s' => if Ascii.eqb a c then lstrip c s' else s
  end.

Definition reverse (s : string) : string :=
  string_of_list_ascii (rev (list_ascii_of_string s)).

Definition strip (c : ascii) (s : string) : string :=
  reverse (lstrip c (reverse (lstrip c s))).

(** [int(s)] for a string of decimal digits. *)
Definition digit (c : ascii) : option Z :=
  let n := Z.of_nat (nat_of_ascii c) in
  if (48 <=? n) && (n <=? 57) then Some (n - 48) else None.

Fixpoint int_from (acc : Z) (s : string) : err Z :=
  match s with
  | EmptyString => Ok acc
  | String c s' =>
      match digit c with
      | Some d => int_from (10 * acc + d) s'
      | None => Raise (ValueError "invalid literal for int()")
      end
  end.

Definition int (s : string) : err Z :=
  match s with
  | EmptyString => Raise (ValueError "invalid literal for int()")
  | _ => int_from 0 s
  end.

(** [str(z)] *)
Definition str (z : Z) : string := NilEmpty.string_of_int (Z.to_int z).

End PyStr.

(** ** The methods of [DataTaker] *)

Module Store.

Section Methods.

Context `{Ext : Externals}.

(** *** Tables and arrays *)

(** [df[name]] *)
Definition column (df : frame) (name : option string) : err (list cell) :=
  match name with
  | Some n =>
      match columns df !! n with
      | Some c => Ok c
      | None => Raise (KeyError n)
      end
  | None => Raise (KeyError "None")
  end.

(** [nconv.loc[name, ...]] *)
Definition loc (nconv : gmap string conversion) (name : string)
  : err conversion :=
  match nconv !! name with
  | Some c => Ok c
  | None => Raise (KeyError name)
  end.

(** A literal [dict] indexed by a string. *)
Fixpoint dict_get {A : Type} (d : list (string * A)) (key : string) : err A :=
  match d with
  | [] => Raise (KeyError key)
  | (k, v) :: d' => if String.eqb k key then Ok v else dict_get d' key
  end.

(** A numeric array handed to CoolProp. *)
Definition floats (m : list cell) : err (list float) :=
  mapM (fun c => match c with CNum x => Ok x | _ => Raise TypeError end) m.

(** [q.to(unit).magnitude] as a numeric array. *)
Definition in_units (unit : string) (q : Quantity) : err (list float) :=
  do q' <- Q_to q (Some unit); floats (magnitude q').

(** An element-wise operation on two arrays of one length. *)
Definition vec2 {A B C : Type} (f : A -> B -> err C) (a : list A) (b : list B)
  : err (list C) :=
  if (length a =? length b)%nat then mapM (fun p => f p.1 p.2) (zip a b)
  else Raise (ValueError "operands could not be broadcast together").

(** [a[mask]] *)
Fixpoint select {A : Type} (mask : list bool) (a : list A) : list A :=
  match mask, a with
  | b :: mask', x :: a' => if b then x :: select mask' a' else select mask' a'
  | _, _ => []
  end.

(** [a[mask] = values], [values] holding one entry per selected place. *)
Fixpoint mask_assign {A : Type} (a : list A) (mask : list bool)
    (values : list A) : list A :=
  match a, mask with
  | x :: a', true :: mask' =>
      match values with
      | v :: values' => v :: mask_assign a' mask' values'
      | [] => a
      end
  | x :: a', false :: mask' => x :: mask_assign a' mask' values
  | _, _ => a
  end.

(** [a[mask] = v] for a scalar [v]. *)
Fixpoint mask_fill {A : Type} (a : list A) (mask : list bool) (v : A)
  : list A :=
  match a, mask with
  | x :: a', b :: mask' => (if b then v else x) :: mask_fill a' mask' v
  | _, _ => a
  end.

(** [raw_data[raw_data[key] == value]] *)
Definition cell_eq (c : cell) (v : filter_value) : bool :=
  match c, v with
  | CNum x, FInt z => PrimFloat.eqb x (float_of_Z z)
  | CStr s, FStr t => String.eqb s t
  | _, _ => false
  end.

Definition filter_rows (df : frame) (key : string) (value : filter_value)
  : err frame :=
  do col <- column df (Some key);
  let mask := map (fun c => cell_eq c value) col in
  Ok (Frame (length (filter (fun b => b = true) mask))
            (select mask <$> columns df)).

(** Lines 261-263. *)
Definition filtered (df : frame) (kwargs : gmap string filter_value)
  : err frame :=
  foldl (fun acc kv => do df' <- acc; filter_rows df' kv.1 kv.2) (Ok df)
        (map_to_list kwargs).

(** *** [get_timestep] *)

Definition get_timestep : M Z :=
  do! ts <- gets timestamps;
  do! t0 <- lift (getitem ts 0);
  do! t1 <- lift (getitem ts 1);
  ret (t1 - t0).

(** [Timedelta.seconds]: the seconds left over after whole days. *)
Definition seconds (delta : Z) : Z := delta mod 86400.

(** *** [_heat] (lines 623-663, after [ureg.wraps] took the magnitudes) *)

Definition expected_phases (power : string) : err (string * string) :=
  dict_get [("Qcond", ("gas", "liq")); ("Qev", ("liq", "gas"));
            ("Pcomp", ("gas", "gas")); ("Qloss_ev", ("gas", "gas"))] power.

Definition quality (phase : string) : err float :=
  dict_get [("liq", 0%float); ("gas", 1%float)] phase.

(** Lines 643-647 (and 648-652): [h] is the enthalpy array, [p] the
    pressures, [phases] the phase the adapter reports for each sample. *)
Definition correct_phase (exp_phase : string) (h p : list float)
    (phases : list string) : err (list float) :=
  if negb (existsb (String.eqb exp_phase) phases) then
    let wrong := map (fun ph => negb (String.eqb ph exp_phase)) phases in
    do q <- quality exp_phase;
    do hsat <- mapM (fun p_i => PropsSI_H_PQ p_i q) (select wrong p);
    Ok (mask_assign h wrong hsat)
  else Ok h.

(** Lines 624-625: the single-phase enthalpies. *)
Definition enthalpies_PT (p T : list float) : err (list float) :=
  vec2 PropsSI_H_PT p T.

(** Lines 629-632. *)
Definition phases_PT (p T : list float) : err (list string) :=
  mapM (fun pT => PhaseSI_PT pT.1 pT.2) (zip p T).

(** Lines 624-652: the enthalpy arrays [hin], [hout] the power is computed
    from. *)
Definition corrected_enthalpies (power : string)
    (pin Tin pout Tout : list float) : err (list float * list float) :=
  do hin <- enthalpies_PT pin Tin;
  do hout <- enthalpies_PT pout Tout;
  do phase_in <- phases_PT pin Tin;
  do phase_out <- phases_PT pout Tout;
  do expected <- expected_phases power;
  do hin' <- correct_phase expected.1 hin pin phase_in;
  do hout' <- correct_phase expected.2 hout pout phase_out;
  Ok (hin', hout').

Definition _heat (power : string) (flow pin Tin pout Tout : list float)
  : err Quantity :=
  do h <- corrected_enthalpies power pin Tin pout Tout;
  do label <- dict_get [("Qcond", "$\dot{Q}_{cond}$"); ("Qev", "$\dot{Q}_{ev}$");
                        ("Pcomp", "$P_{comp}$");
                        ("Qloss_ev", "$\dot{Q}_{loss,ev}$")] power;
  let prop := if String.eqb power "Pcomp" then "mechanical power"
              else "heat transfer rate" in
  let sign := if String.eqb power "Qcond" then (-1)%float else 1%float in
  do dh <- vec2 (fun a b => Ok (a - b)%float) h.2 h.1;
  do w <- vec2 (fun a b => Ok (a * b)%float) flow dh;
  Ok (Q_ (map (fun x => CNum (x * sign)%float) w) (Some "W") (Some label)
         (Some prop)).

(** The call [self._heat(power, *heat_params)] through [ureg.wraps]. *)
Definition _heat_wrapped (power : string) (heat_params : list Quantity)
  : err Quantity :=
  match heat_params with
  | [flow; pin; Tin; pout; Tout] =>
      do flow' <- in_units "kg/s" flow;
      do pin' <- in_units "Pa" pin;
      do Tin' <- in_units "K" Tin;
      do pout' <- in_units "Pa" pout;
      do Tout' <- in_units "K" Tout;
      _heat power flow' pin' Tin' pout' Tout'
  | _ => Raise TypeError
  end.

(** *** [_build_quantities] *)

(** What [get] returns: one [Quantity], or the generator
    [(update_units(quantity) for quantity in quantities)], which reads the
    store when it is consumed. *)
Inductive result : Type :=
  | One (q : Quantity)
  | Generator (quantities : list string) (spec_units : gmap string string).

(** [self.quantities[name] = q] *)
Definition store (name : string) (q : Quantity) : M unit :=
  modify (fun s => set_quantities (<[name:=q]> (quantities s)) [EStore name] s).

(** [self.quantities = {}] *)
Definition clear : M unit :=
  modify (set_quantities ∅ [EClear]).

(** [update_units] of [get] (lines 418-419). *)
Definition update_units (spec_units : gmap string string) (quantity : string)
  : M Quantity :=
  do! cached <- gets quantities;
  match cached !! quantity with
  | Some q => lift (Q_to q (spec_units !! quantity))
  | None => raise (KeyError quantity)
  end.

Fixpoint collect {A B : Type} (f : A -> M B) (l : list A) : M (list B) :=
  match l with
  | [] => ret []
  | x :: l' => do! y <- f x; do! ys <- collect f l'; ret (y :: ys)
  end.

(** Unpacking what [get] returned for several names: the generator runs
    now.  (A single [Quantity] is never unpacked by the source.) *)
Definition consume (r : result) : M (list Quantity) :=
  match r with
  | Generator names spec_units => collect (update_units spec_units) names
  | One _ => raise TypeError
  end.

(** The quantities the caller of [get] receives, the generator run at
    once. *)
Definition values (r : result) : M (list Quantity) :=
  match r with
  | One q => ret [q]
  | Generator names spec_units => collect (update_units spec_units) names
  end.

(** Using what [get] returned for one name as a [Quantity]. *)
Definition as_quantity (r : result) : err Quantity :=
  match r with
  | One q => Ok q
  | Generator _ _ => Raise AttributeError
  end.

(** Line 268: [np.count_nonzero(ref_dir) < len(ref_dir) / 2].  The division
    is exact (a count is far below 2^53), so the comparison is the one of
    the integers [2 * count] and [len]. *)
Definition nonzero (c : cell) : bool :=
  match c with
  | CNum x => negb (PrimFloat.eqb x 0%float)
  | CStr s => negb (String.eqb s "")
  | CNone => false
  end.

Definition count_nonzero (a : list cell) : nat := length (filter nonzero a).

Definition heating_of (ref_dir : list cell) : bool :=
  (2 * count_nonzero ref_dir <? length ref_dir)%nat.

(** Lines 303-312. *)
Definition ref_states (heating : bool) (quantity : string) : err string :=
  if heating then
    dict_get [("Qcond", "pout T4 pout T6"); ("Qev", "pout T6 pin T9");
              ("Pcomp", "pin T1 pout T2")] quantity
  else
    dict_get [("Qcond", "pout T9 pout T7"); ("Qev", "pout T7 pin T4");
              ("Pcomp", "pin T1 pout T2"); ("Qloss_ev", "pin T4 pin T1")]
             quantity.

(** Lines 340-347. *)
Definition member (z : Z) (l : list Z) : bool := existsb (Z.eqb z) l.

Definition pressure_side (heating : bool) (state : Z) : err string :=
  if heating && member state [7; 8; 9; 1]
     || negb heating && member state [6; 5; 4; 3; 1]
  then Ok "in"
  else if heating && ((2 <=? state) && (state <? 7))
          || negb heating && member state [2; 9; 8; 7]
  then Ok "out"
  else Raise (ValueError "The enthalpy state must be between 1 and 9.").

(** Lines 281-283: the compressor frequency, cleaned. *)
Definition is_underrange (c : cell) : bool :=
  match c with
  | CStr s => String.eqb s "UnderRange"
  | _ => false
  end.

Definition astype_float (c : cell) : err float :=
  match c with
  | CNum x => Ok x
  | CStr s => py_float s
  | CNone => Ok nan
  end.

Definition clean_frequency (col : list cell) : err (list float) :=
  let f := map (fun c => if is_underrange c then CNum 0%float else c) col in
  do f' <- mapM astype_float f;
  Ok (map (fun x => x / 2)%float f').

Section Build.

(** [self.get(variables, **kwargs)], the recursive call. *)
Variable self_get : string -> gmap string filter_value -> M result.

Variable kwargs : gmap string filter_value.

(** The filtered table of lines 261-263. *)
Variable raw : frame.

(** Lines 270-278. *)
Definition build_hum_ratio (w : string) : M unit :=
  let point := PyStr.strip "w" w in
  do! rT <- self_get ("T" ++ point) kwargs;
  do! T <- lift (do q <- as_quantity rT; in_units "K" q);
  do! rRH <- self_get ("RH" ++ point) kwargs;
  do! RH <- lift (do q <- as_quantity rRH; in_units "ratio" q);
  do! W <- lift (HAPropsSI_W T RH);
  do! q <- lift (Q_to (Q_ (map CNum W) (Some "ratio")
                          (Some ("$\omega_{" ++ point ++ "}$"))
                          (Some "absolute humidity")) (Some "g/kg"));
  store w q.

(** Lines 280-299. *)
Definition build_to_clean (to_clean : gset string) : M unit :=
  if decide (to_clean = ∅) then ret tt
  else
    do! nconv <- gets _name_converter;
    do! conv_f <- lift (loc nconv "f");
    do! col_f <- lift (column raw (col_names conv_f));
    do! f <- lift (clean_frequency col_f);
    (if decide ("f" ∈ to_clean)
     then store "f" (Q_ (map CNum f) (conv_units conv_f) (conv_labels conv_f)
                        (conv_properties conv_f))
     else ret tt) ;;
    if decide ("flowrt_r" ∈ to_clean) then
      do! conv <- lift (loc nconv "flowrt_r");
      do! flowrt_r <- lift (column raw (col_names conv));
      let stopped := map (fun x => PrimFloat.eqb x 0%float) f in
      store "flowrt_r"
            (Q_ (mask_fill flowrt_r stopped (CNum 0%float)) (conv_units conv)
                (conv_labels conv) (conv_properties conv))
    else ret tt.

(** Lines 301-315. *)
Definition build_dependent (heating : bool) (quantity : string) : M unit :=
  do! states <- lift (ref_states heating quantity);
  do! heat_params <- self_get ("flowrt_r " ++ states) kwargs;
  do! args <- consume heat_params;
  do! pow_kW <- lift (do pow <- _heat_wrapped quantity args;
                      Q_to pow (Some "kW"));
  store quantity pow_kW.

(** Lines 317-322. *)
Definition build_Pel : M unit :=
  do! r <- self_get "Pa Pb" kwargs;
  do! args <- consume r;
  match args with
  | [Pa; Pb] =>
      do! q <- lift (do Pel <- np_add Pa Pb;
                     Q_to (Q_ (magnitude Pel) (units Pel) (Some "$P_{el}$")
                              (Some "electrical power")) (Some "kW"));
      store "Pel" q
  | _ => raise TypeError
  end.

(** Lines 324-329. *)
Definition build_t : M unit :=
  do! timestep <- get_timestep;
  let samples_number := n_rows raw in
  let time_in_seconds :=
    map (fun i => CNum (float_of_Z (Z.of_nat i * seconds timestep)))
        (seq 0 samples_number) in
  store "t" (Q_ time_in_seconds (Some "seconds") (Some "$t$") (Some "time")).

(** Lines 331-336. *)
Definition build_as_is (quantity : string) : M unit :=
  do! nconv <- gets _name_converter;
  do! conv <- lift (loc nconv quantity);
  do! magnitude <- lift (column raw (col_names conv));
  store quantity (Q_ magnitude (conv_units conv) (conv_labels conv)
                     (conv_properties conv)).

(** Lines 338-354. *)
Definition build_enthalpy (heating : bool) (enthalpy : string) : M unit :=
  do! state <- lift (PyStr.int (PyStr.strip "h" enthalpy));
  do! pstate <- lift (pressure_side heating state);
  do! r <- self_get ("p" ++ pstate ++ " T" ++ PyStr.str state) kwargs;
  do! args <- consume r;
  match args with
  | [p; T] =>
      do! q <- lift (do p' <- in_units "Pa" p;
                     do T' <- in_units "K" T;
                     do h <- enthalpies_PT p' T';
                     Q_to (Q_ (map CNum h) (Some "J/kg")
                              (Some ("$h_" ++ PyStr.str state ++ "$"))
                              (Some "enthalpy")) (Some "kJ/kg"));
      store enthalpy q
  | _ => raise TypeError
  end.

End Build.

(** The names of each category (lines 254-259). *)
Definition hum_ratio_names : gset string := {["ws"; "wr"]}.
Definition to_clean_names : gset string := {["f"; "flowrt_r"]}.
Definition dependent_names : gset string :=
  {["Qcond"; "Qev"; "Pcomp"; "Pel"; "Qloss_ev"; "t"]}.
Definition enthalpy_names : gset string :=
  {["h1"; "h2"; "h3"; "h4"; "h5"; "h6"; "h7"; "h8"; "h9"]}.
Definition own_rule : gset string := {["Pel"; "t"]}.

(** [_build_quantities] (lines 247-354) on the set of its arguments, with
    [self_get] for the calls of [self.get]. *)
Definition _build_quantities
    (self_get : string -> gmap string filter_value -> M result)
    (quantities : gset string) (kwargs : gmap string filter_value) : M unit :=
  let hum_ratios := quantities ∩ hum_ratio_names in
  let to_clean := quantities ∩ to_clean_names in
  let dependent := quantities ∩ dependent_names in
  let enthalpies := quantities ∩ enthalpy_names in
  let as_is := quantities ∖ hum_ratios ∖ to_clean ∖ dependent ∖ enthalpies in
  do! self_raw <- gets raw_data;
  do! raw <- lift (filtered self_raw kwargs);
  do! heating <-
    (if decide (enthalpies = ∅ ∧ dependent ∖ own_rule = ∅)
     then ret false (* [heating] stays unbound, and is not read below *)
     else
       do! r <- self_get "refdir" kwargs;
       do! ref_dir <- lift (as_quantity r);
       ret (heating_of (magnitude ref_dir)));
  for_each (set_order hum_ratios) (build_hum_ratio self_get kwargs) ;;
  build_to_clean raw to_clean ;;
  for_each (set_order (dependent ∖ own_rule))
           (build_dependent self_get kwargs heating) ;;
  (if decide ("Pel" ∈ dependent) then build_Pel self_get kwargs else ret tt) ;;
  (if decide ("t" ∈ dependent) then build_t raw else ret tt) ;;
  for_each (set_order as_is) (build_as_is raw) ;;
  for_each (set_order enthalpies) (build_enthalpy self_get kwargs heating).

(** *** [get] *)

(** Lines 403-408: a variable [name/unit] asks for [name] in [unit]. *)
Definition parse_variable (variable : string) : string * option string :=
  match PyStr.split_slash variable with
  | Some (quantity, unit) => (quantity, Some unit)
  | None => (variable, None)
  end.

Definition requested (variables : string) : list string :=
  (parse_variable <$> PyStr.split variables).*1.

Definition spec_units_of (variables : string) : gmap string string :=
  foldl (fun units p => match p.2 with
                        | Some unit => <[p.1:=unit]> units
                        | None => units
                        end)
        ∅ (parse_variable <$> PyStr.split variables).

(** Lines 418-425: what [get] returns. *)
Definition answer (variables : string) : M result :=
  let quantities := requested variables in
  let spec_units := spec_units_of variables in
  if (1 <? length quantities)%nat then ret (Generator quantities spec_units)
  else
    do! quantity <- lift (getitem quantities 0);
    do! q <- update_units spec_units quantity;
    ret (One q).

(** Lines 402-425, with [build] for the call of [_build_quantities]. *)
Definition get_with
    (build : gset string -> gmap string filter_value -> M unit)
    (variables : string) (update : bool) (kwargs : gmap string filter_value)
  : M result :=
  let quantities := requested variables in
  do! groups <- gets _groups;
  (if update || negb (bool_decide (groups = kwargs)) then
     clear ;; build (list_to_set quantities) kwargs
   else
     do! cached <- gets DataTaker.quantities;
     build (list_to_set quantities ∖ dom cached) kwargs) ;;
  modify (set_groups kwargs) ;;
  answer variables.

(** [get] calls [_build_quantities], which calls [get] again for the
    quantities a rule depends on; [depth] bounds the nesting of these calls,
    as the interpreter's recursion limit does. *)
Fixpoint get (depth : nat) (variables : string) (update : bool)
    (kwargs : gmap string filter_value) : M result :=
  match depth with
  | O => raise RecursionError
  | S d =>
      get_with (_build_quantities (fun v k => get d v false k))
               variables update kwargs
  end.

(** *** [steady_state_steps_number] and [set_steady_state_limits] *)

(** Lines 683-701; [sd_limit] is in hertz. *)
Definition steady_state_steps_number (depth : nat)
    (u : Segmenter.uninitialised) (sd_limit : float) : M (list float) :=
  do! r <- get depth "f" false ∅;
  do! frequency <- lift (do q <- as_quantity r; in_units "Hz" q);
  lift (Segmenter.steps_number_of u frequency sd_limit).

(** The text of a label (lines 466-473). *)
Definition render (l : Binner.label) : string :=
  match l with
  | Binner.lbound b => "$\tau_{ss} <$ " ++ format_bound b
  | Binner.ubound b => "$\tau_{ss} \geq$ " ++ format_bound b
  | Binner.between lb ub =>
      format_bound lb ++ " $\leq \tau_{ss} <$ " ++ format_bound ub
  end.

Definition label_cell (l : option Binner.label) : cell :=
  match l with
  | Some l' => CStr (render l')
  | None => CNone
  end.

(** [self.raw_data[name] = values] *)
Definition set_column (name : string) (values : list cell) : M unit :=
  modify (fun s =>
    set_raw_data (Frame (n_rows (raw_data s))
                        (<[name:=values]> (columns (raw_data s)))) s).

(** Lines 453-482; [limits] is in seconds. *)
Definition set_steady_state_limits (depth : nat)
    (u : Segmenter.uninitialised) (limits : list float) : M unit :=
  do! delta <- get_timestep;
  let timestep := seconds delta in
  do! steps <- steady_state_steps_number depth u 2%float;
  let steady_state_time := Segmenter.durations_of timestep steps in
  do! bins <- lift (Binner.sst_bins steady_state_time limits);
  set_column "steady_state_time" (label_cell <$> bins).

End Methods.

End Store.

(** ** The order of binary64 numbers

    A number that is not NaN has a key in [Z * Z * Z]; the comparison of
    two numbers is the lexicographic comparison of their keys. *)

Module FloatOrder.

Definition key (x : spec_float) : option (Z * Z * Z) :=
  match x with
  | S754_nan => None
  | S754_zero _ => Some (0, 0, 0)
  | S754_infinity s => Some (if s then -2 else 2, 0, 0)
  | S754_finite s m e =>
      Some (if s then (-1, - e, - Zpos m) else (1, e, Zpos m))
  end.

Definition key_lt (a b : Z * Z * Z) : Prop :=
  a.1.1 < b.1.1 \/
  (a.1.1 = b.1.1 /\ (a.1.2 < b.1.2 \/ (a.1.2 = b.1.2 /\ a.2 < b.2))).

Definition key_le (a b : Z * Z * Z) : Prop := key_lt a b \/ a = b.

Definition fkey (x : float) : option (Z * Z * Z) := key (Prim2SF x).

End FloatOrder.

(** ** A small dataset and stand-ins for the collaborators, to run the
    methods on *)

Module Demo.

Definition add_cells (a b : cell) : cell :=
  match a, b with
  | CNum x, CNum y => CNum (x + y)%float
  | _, _ => CNone
  end.

(** Stand-ins: a conversion that only renames the unit, an adapter whose
    enthalpy is [p + T] (and [p * Q] on the saturation curve) and whose phase
    is gas from 300 K on. *)
#[global] Instance externals : Externals := {|
  Q_to q u := Ok (Q_ (magnitude q) (match u with Some _ => u | None => units q end)
                     (qlabel q) (prop q));
  np_add a b := Ok (Q_ (zip_with add_cells (magnitude a) (magnitude b))
                       (units a) None None);
  PropsSI_H_PT p T := Ok (p + T)%float;
  PropsSI_H_PQ p q := Ok (p * q)%float;
  PhaseSI_PT p T := Ok (if PrimFloat.ltb T 300%float then "twophase" else "gas");
  HAPropsSI_W T RH := Ok (zip_with PrimFloat.mul T RH);
  py_float s := Raise (ValueError "could not convert string to float");
  format_bound b := match Binner.shown_in b with
                    | Binner.Seconds => "s"
                    | Binner.Minutes => "min"
                    end;
  set_order X := elements X;
  set_order_perm X := reflexivity (elements X)
|}.

Definition conversion_of (column unit : string) : conversion :=
  Conversion (Some column) (Some unit) (Some column) None.

Definition name_converter : gmap string conversion :=
  list_to_map
    [("f", conversion_of "Freq" "Hz"); ("flowrt_r", conversion_of "Flow" "kg/s");
     ("refdir", conversion_of "Dir" ""); ("T1", conversion_of "T1c" "K");
     ("T2", conversion_of "T2c" "K"); ("pin", conversion_of "Pin" "Pa");
     ("pout", conversion_of "Pout" "Pa"); ("Pa", conversion_of "PA" "W");
     ("Pb", conversion_of "PB" "W")].

Definition table : frame :=
  Frame 3 (list_to_map
    [("Freq", [CNum 100; CStr "UnderRange"; CNum 90]%float);
     ("Flow", CNum <$> [1; 2; 3]%float);
     ("Dir", CNum <$> [0; 0; 1]%float);
     ("T1c", CNum <$> [280; 281; 282]%float);
     ("T2c", CNum <$> [350; 351; 352]%float);
     ("Pin", CNum <$> [1; 1; 1]%float);
     ("Pout", CNum <$> [9; 9; 9]%float);
     ("PA", CNum <$> [1; 1; 1]%float);
     ("PB", CNum <$> [2; 2; 2]%float);
     ("file_index", CNum <$> [0; 0; 1]%float)]).

(** A [DataTaker] just after its files were read. *)
Definition dtk : DataTaker := Self table [0; 10; 20] name_converter ∅ ∅ [].

(** The same [DataTaker] after [get('f')]. *)
Definition warmed : DataTaker := (Store.get 2 "f" false ∅ dtk).2.

(** A filter on the first file. *)
Definition first_file : gmap string filter_value :=
  {["file_index" := FInt 0]}.

(** Freshly mapped memory: [np.empty_like] finds zeros. *)
Definition zeroed : Segmenter.uninitialised :=
  Segmenter.Uninitialised (fun _ => 0%float) (fun _ => 0%float)
                          (fun _ => 0%float).

(** Memory that happens to hold, for [mean] and [var], what the recurrence
    of the first run needs when the first frequency is 50 Hz. *)
Definition lucky (steps : nat -> float) : Segmenter.uninitialised :=
  Segmenter.Uninitialised (fun _ => 50%float) (fun _ => 0%float) steps.

End Demo.

(** ** What a method does to [self] *)

Module Effects.

(** [m], run from a state in [I], ends in a state related to it by [R],
    whether it returns or raises. *)
Definition sound {A : Type} (I : DataTaker -> Prop)
    (R : DataTaker -> DataTaker -> Prop) (m : M A) : Prop :=
  forall s r s', I s -> m s = (r, s') -> R s s'.

Definition always (s : DataTaker) : Prop := True.

(** The data read from the files is left alone, and the history of the
    store only grows. *)
Definition frame_rel (s s' : DataTaker) : Prop :=
  raw_data s' = raw_data s /\ timestamps s' = timestamps s /\
  _name_converter s' = _name_converter s /\
  exists events, trace s' = (trace s ++ events)%list.

(** The quantities [cached] are left alone: the active filter and their
    entries are unchanged, and nothing but quantities outside [cached] is
    written; the store is never emptied. *)
Definition cached_rel (cached : gset string) (s s' : DataTaker) : Prop :=
  _groups s' = _groups s /\
  (exists events,
     trace s' = (trace s ++ events)%list /\
     Forall (fun e => exists name, e = EStore name /\ name ∉ cached) events) /\
  forall name, name ∈ cached -> quantities s' !! name = quantities s !! name.

Definition cached_inv (kwargs : gmap string filter_value)
    (cached : gset string) (s : DataTaker) : Prop :=
  _groups s = kwargs /\ cached ⊆ dom (quantities s).

(** [m], when it returns, has written the quantity [name]. *)
Definition stores {A : Type} (name : string) (m : M A) : Prop :=
  forall s a s', m s = (Ok a, s') ->
    exists before after,
      trace s' = (trace s ++ before ++ EStore name :: after)%list.

(** The names a dictionary holds after the assignments of a history, from
    the names it held before. *)
Definition replay (events : list event) (names : gset string) : gset string :=
  foldl (fun held e => match e with
                       | EClear => ∅
                       | EStore name => {[name]} ∪ held
                       end)
        names events.

(** The history of the store tells what it holds. *)
Definition history_rel (s s' : DataTaker) : Prop :=
  exists events,
    trace s' = (trace s ++ events)%list /\
    dom (quantities s') = replay events (dom (quantities s)).

(** The names whose rule calls [get]: asking for any other name makes no
    further call. *)
Definition calling_names : gset string :=
  Store.hum_ratio_names ∪ Store.dependent_names ∖ {["t"]}
  ∪ Store.enthalpy_names.

Definition leaf (variables : string) : bool :=
  forallb (fun name => negb (bool_decide (name ∈ calling_names)))
          (Store.requested variables).

End Effects.

(** ** Notions the theorems on [get] and its callers are stated with *)

Module Names.

(** The names [_build_quantities] has a rule for (lines 254-258); every
    other name is read as is from the table of the names. *)
Definition special_names : gset string :=
  Store.hum_ratio_names ∪ Store.to_clean_names ∪ Store.dependent_names
  ∪ Store.enthalpy_names.

(** Every character of [s] satisfies [p]. *)
Fixpoint all_chars (p : ascii -> bool) (s : string) : bool :=
  match s with
  | EmptyString => true
  | String c s' => p c && all_chars p s'
  end.

Definition no_space (s : string) : bool :=
  all_chars (fun c => negb (PyStr.is_space c)) s.

Definition no_slash (s : string) : bool :=
  all_chars (fun c => negb (Ascii.eqb c "/")) s.

(** A name as [get] takes it: not empty, no white space. *)
Definition is_word (s : string) : bool :=
  negb (String.eqb s "") && no_space s.

(** Nothing but the quantities [names] is added to the store. *)
Definition within (names : gset string) (s s' : DataTaker) : Prop :=
  dom (quantities s') ⊆ dom (quantities s) ∪ names.

End Names.

Module Filters.

(** One turn of the loop of lines 262-263. *)
Definition filter_step (acc : err frame) (kv : string * filter_value)
  : err frame :=
  do df' <- acc; Store.filter_rows df' kv.1 kv.2.

(** Lines 261-263 with the filters taken in the order [items], the order
    in which the caller wrote the keyword arguments. *)
Definition filtered_in_order (df : frame)
    (items : list (string * filter_value)) : err frame :=
  foldl filter_step (Ok df) items.

(** The same result, or an exception on both sides. *)
Definition same_outcome {A : Type} (x y : err A) : Prop :=
  match x, y with
  | Ok a, Ok b => a = b
  | Raise _, Raise _ => True
  | _, _ => False
  end.

End Filters.

Module Shape.

(** The three arrays of the segmenter's loop have [n] entries. *)
Definition sized (n : nat) (s : Segmenter.loop_state) : Prop :=
  length (Segmenter.mean s) = n /\ length (Segmenter.var s) = n /\
  length (Segmenter.steps_number s) = n.

(** The binary64 number nearest to 89.9. *)
Definition hz_89_9 : float := 0x1.679999999999ap+6%float.

End Shape.

Module Timestep.

(** What [get_timestep] returns: a pandas [Timedelta] (here in seconds), or
    a [Quantity] in seconds. *)
Inductive timestep : Type :=
  | Timedelta (delta : Z)
  | InSeconds (magnitude : Z).

Section Kinds.

Context `{Ext : Externals}.

(** Lines 218-225, for any [kind]. *)
Definition get_timestep_as (kind : string) : M timestep :=
  do! ts <- gets timestamps;
  do! t0 <- lift (getitem ts 0);
  do! t1 <- lift (getitem ts 1);
  if String.eqb kind "Timedelta" then ret (Timedelta (t1 - t0))
  else if String.eqb kind "Quantity"
  then ret (InSeconds (Store.seconds (t1 - t0)))
  else raise (ValueError "kind must be either 'Timedelta' or 'Quantity'.").

End Kinds.

End Timestep.

Module Init.

(** Line 75: [-inf, 1, 30, 60, inf] minutes, as the seconds that
    [ureg.wraps] hands to [set_steady_state_limits]. *)
Definition default_limits : list float :=
  [neg_infinity; 60; 1800; 3600; infinity]%float.

Section Init.

Context `{Ext : Externals}.

(** Lines 73-76 of [__init__], run once the files and the table of the
    names have been read. *)
Definition init_store (depth : nat) (u : Segmenter.uninitialised) : M unit :=
  Store.clear ;;
  modify (set_groups ∅) ;;
  Store.set_steady_state_limits depth u default_limits.

End Init.

End Init.

(** ** The arguments of [plot] *)

Module Plot.

(** [c in s] for a character [c]. *)
Fixpoint contains_char (c : ascii) (s : string) : bool :=
  match s with
  | EmptyString => false
  | String a s' => Ascii.eqb a c || contains_char c s'
  end.

(** [sub in s] *)
Fixpoint contains (sub s : string) : bool :=
  String.prefix sub s ||
  match s with
  | EmptyString => false
  | String _ s' => contains sub s'
  end.

(** The text before the first [')'] and the text after it. *)
Fixpoint until_close (s : string) : option (string * string) :=
  match s with
  | EmptyString => None
  | String c s' =>
      if Ascii.eqb c ")" then Some (EmptyString, s')
      else match until_close s' with
           | Some (inside, rest) => Some (String c inside, rest)
           | None => None
           end
  end.

(** The longest run of characters that are not white space at the head of
    [s], and what follows it. *)
Fixpoint nonspace_run (s : string) : string * string :=
  match s with
  | EmptyString => (EmptyString, EmptyString)
  | String c s' =>
      if PyStr.is_space c then (EmptyString, s)
      else (String c (nonspace_run s').1, (nonspace_run s').2)
  end.

(** [re.findall(r'\([^\)]*\)|\S+', s)]: the scan tries, at each place, a
    group from an opening parenthesis to the first closing one, then a run
    of characters that are not white space, and moves one character on
    where neither is found.  Every step takes a character at least, so the
    length of [s] bounds their number. *)
Fixpoint findall_from (fuel : nat) (s : string) : list string :=
  match fuel, s with
  | S fuel', String c s' =>
      if PyStr.is_space c then findall_from fuel' s'
      else
        match (if Ascii.eqb c "(" then until_close s' else None) with
        | Some (inside, rest) =>
            ("(" +:+ inside +:+ ")") :: findall_from fuel' rest
        | None => (nonspace_run s).1 :: findall_from fuel' (nonspace_run s).2
        end
  | _, _ => []
  end.

Definition findall (s : string) : list string :=
  findall_from (String.length s) s.

(** [s.strip('()')] *)
Definition is_paren (c : ascii) : bool := Ascii.eqb c "(" || Ascii.eqb c ")".

Fixpoint lstrip_chars (p : ascii -> bool) (s : string) : string :=
  match s with
  | EmptyString => EmptyString
  | String c s' => if p c then lstrip_chars p s' else s
  end.

Definition strip_chars (p : ascii -> bool) (s : string) : string :=
  PyStr.reverse (lstrip_chars p (PyStr.reverse (lstrip_chars p s))).

(** [s.split(' ')]: a piece between any two spaces, empty pieces kept. *)
Fixpoint split_on (sep : ascii) (s : string) : list string :=
  match s with
  | EmptyString => [EmptyString]
  | String c s' =>
      if Ascii.eqb c sep then EmptyString :: split_on sep s'
      else match split_on sep s' with
           | w :: ws => String c w :: ws
           | [] => [String c EmptyString]
           end
  end.

(** [sep.join(l)] *)
Fixpoint join (sep : string) (l : list string) : string :=
  match l with
  | [] => EmptyString
  | [w] => w
  | w :: l' => w +:+ sep +:+ join sep l'
  end.

Definition starts_with_slash (s : string) : bool :=
  match s with
  | String c _ => Ascii.eqb c "/"
  | EmptyString => false
  end.

Definition tail_string (s : string) : string :=
  match s with
  | String _ s' => s'
  | EmptyString => EmptyString
  end.

(** Lines 551-557: [for i, arg in enumerate(iterator)], the list being
    changed while it is gone through: the loop looks at [iterator[i]] of
    the list as it is then, and ends when [i] reaches its length. *)
Fixpoint distribute_from (fuel i : nat) (iterator : list string)
  : err (list string) :=
  match fuel with
  | O => Ok iterator
  | S fuel' =>
      match iterator !! i with
      | None => Ok iterator
      | Some arg =>
          if starts_with_slash arg then
            let unit := tail_string arg in
            do group <- getitem iterator (Z.of_nat i - 1);
            do iterator1 <-
              setitem iterator (Z.of_nat i - 1)
                (join ("/" +:+ unit +:+ " ") (split_on " " group)
                 +:+ "/" +:+ unit);
            distribute_from fuel' (S i) (delete i iterator1)
          else distribute_from fuel' (S i) iterator
      end
  end.

(** Lines 528-564: the arguments [plot] hands to [get] one by one, when
    [groupby] is [None].  The class defines no attribute [dependents], so the
    keywords ['all'], ['allsplit'] and ['allmerge'] end in
    [AttributeError]. *)
Definition iterator_of (dependents : string) : err (list string) :=
  let dependents :=
    if String.eqb dependents "all" then "allmerge" else dependents in
  if String.eqb dependents "allsplit" then Raise AttributeError
  else if String.eqb dependents "allmerge" then Raise AttributeError
  else if contains_char "(" dependents || contains_char "[" dependents
          || contains_char "{" dependents
  then
    let iterator := map (strip_chars is_paren) (findall dependents) in
    if contains ")/" dependents
    then distribute_from (S (length iterator)) 0 iterator
    else Ok iterator
  else Ok (PyStr.split dependents).

(** A name inside a group: no white space, no parenthesis, no slash. *)
Definition plain (s : string) : bool :=
  Names.all_chars (fun c => negb (PyStr.is_space c) && negb (is_paren c)
                      && negb (Ascii.eqb c "/")) s.

(** A unit: no white space, no parenthesis. *)
Definition plain_unit (s : string) : bool :=
  Names.all_chars (fun c => negb (PyStr.is_space c) && negb (is_paren c)) s.

End Plot.

(** * Facts and theorems *)

(** ** The order of binary64 numbers *)

Module FloatOrderFacts.

Import FloatOrder.

Lemma SFcompare_key (x y : spec_float) (c : comparison) :
  SFcompare x y = Some c <->
  exists a b, key x = Some a /\ key y = Some b /\
    match c with Lt => key_lt a b | Eq => a = b | Gt => key_lt b a end.
Proof.
  unfold key_lt. split.
  - destruct x as [sx|sx| |sx mx ex], y as [sy|sy| |sy my ey]; simpl; intros H;
      try discriminate; injection H as <-; do 2 eexists;
      (split; [reflexivity|]); (split; [reflexivity|]).
    all: try (destruct sx; simpl; try reflexivity; lia).
    all: try (destruct sy; simpl; try reflexivity; lia).
    all: try (destruct sx, sy; simpl; try reflexivity; lia).
    destruct sx, sy; simpl; try lia.
    + destruct (Z.compare_spec ex ey); simpl; try lia.
      change (Pos.compare_cont Eq mx my) with (Pos.compare mx my).
      destruct (Pos.compare_spec mx my); simpl; subst; try reflexivity; lia.
    + destruct (Z.compare_spec ex ey); simpl; try lia.
      change (Pos.compare_cont Eq mx my) with (Pos.compare mx my).
      destruct (Pos.compare_spec mx my); simpl; subst; try reflexivity; lia.
  - intros (a & b & Ha & Hb & Hc).
    destruct x as [sx|sx| |sx mx ex], y as [sy|sy| |sy my ey]; simpl in *;
      try discriminate; injection Ha as <-; injection Hb as <-.
    all: try (destruct sx; destruct c; simpl in *; try reflexivity;
              try discriminate; lia).
    all: try (destruct sy; destruct c; simpl in *; try reflexivity;
              try discriminate; lia).
    all: try (destruct sx, sy; destruct c; simpl in *; try reflexivity;
              try discriminate; lia).
    destruct sx, sy; simpl in *.
    + destruct (Z.compare_spec ex ey); simpl.
      * change (Pos.compare_cont Eq mx my) with (Pos.compare mx my).
        destruct (Pos.compare_spec mx my); destruct c; simpl in *;
          try reflexivity; try (injection Hc; lia); lia.
      * destruct c; simpl in *; try reflexivity; try (injection Hc; lia); lia.
      * destruct c; simpl in *; try reflexivity; try (injection Hc; lia); lia.
    + destruct c; simpl in *; try reflexivity; try (injection Hc; lia); lia.
    + destruct c; simpl in *; try reflexivity; try (injection Hc; lia); lia.
    + destruct (Z.compare_spec ex ey); simpl.
      * change (Pos.compare_cont Eq mx my) with (Pos.compare mx my).
        destruct (Pos.compare_spec mx my); destruct c; simpl in *;
          try reflexivity; try (injection Hc; lia); lia.
      * destruct c; simpl in *; try reflexivity; try (injection Hc; lia); lia.
      * destruct c; simpl in *; try reflexivity; try (injection Hc; lia); lia.
Qed.

Lemma ltb_key (x y : float) :
  PrimFloat.ltb x y = true <->
  exists a b, fkey x = Some a /\ fkey y = Some b /\ key_lt a b.
Proof.
  rewrite FloatAxioms.ltb_spec. unfold SFltb, fkey.
  rewrite <- (SFcompare_key _ _ Lt).
  destruct (SFcompare (Prim2SF x) (Prim2SF y)) as [[]|]; split; congruence.
Qed.

Lemma eqb_key (x y : float) :
  PrimFloat.eqb x y = true <-> exists a, fkey x = Some a /\ fkey y = Some a.
Proof.
  rewrite FloatAxioms.eqb_spec. unfold SFeqb, fkey. split.
  - destruct (SFcompare (Prim2SF x) (Prim2SF y)) as [[]|] eqn:E;
      try discriminate.
    intros _. apply SFcompare_key in E as (a & b & Ha & Hb & ->). eauto.
  - intros (a & Ha & Hb).
    assert (SFcompare (Prim2SF x) (Prim2SF y) = Some Eq) as ->; [|reflexivity].
    apply SFcompare_key. eauto.
Qed.

Lemma leb_key (x y : float) :
  PrimFloat.leb x y = true <->
  exists a b, fkey x = Some a /\ fkey y = Some b /\ key_le a b.
Proof.
  rewrite FloatAxioms.leb_spec. unfold SFleb, fkey, key_le. split.
  - destruct (SFcompare (Prim2SF x) (Prim2SF y)) as [[]|] eqn:E;
      try discriminate;
      intros _; apply SFcompare_key in E as (a & b & Ha & Hb & Hc); eauto 6.
  - intros (a & b & Ha & Hb & [Hc|Hc]).
    + assert (SFcompare (Prim2SF x) (Prim2SF y) = Some Lt) as ->; [|reflexivity].
      apply SFcompare_key. eauto.
    + assert (SFcompare (Prim2SF x) (Prim2SF y) = Some Eq) as ->; [|reflexivity].
      apply SFcompare_key. eauto.
Qed.

(** Turns comparisons in the hypotheses into facts about keys, and closes
    the goal by linear arithmetic on the keys. *)
Ltac to_keys :=
  repeat match goal with
  | H : PrimFloat.ltb _ _ = true |- _ =>
      apply ltb_key in H; destruct H as (? & ? & ? & ? & H)
  | H : PrimFloat.leb _ _ = true |- _ =>
      apply leb_key in H; destruct H as (? & ? & ? & ? & H)
  | H : PrimFloat.eqb _ _ = true |- _ =>
      apply eqb_key in H; destruct H as (? & ? & ?)
  end;
  repeat match goal with
  | H1 : fkey ?x = Some ?a, H2 : fkey ?x = Some ?b |- _ =>
      assert (b = a) by congruence; subst b; clear H2
  end.

Ltac key_arith :=
  unfold key_le, key_lt in *;
  repeat match goal with
  | a : (Z * Z * Z)%type |- _ => destruct a as [[? ?] ?]
  end;
  simpl in *;
  repeat match goal with
  | H : _ \/ (_, _, _) = (_, _, _) |- _ => destruct H as [H|H]
  | H : (_, _, _) = (_, _, _) |- _ => injection H as ? ? ?
  end;
  try lia.

Ltac refute_cmp :=
  match goal with
  | |- ?c = false => destruct c eqn:?; [exfalso|reflexivity]
  end; to_keys; key_arith.

Lemma leb_trans (x y z : float) :
  PrimFloat.leb x y = true -> PrimFloat.leb y z = true ->
  PrimFloat.leb x z = true.
Proof.
  intros Hxy Hyz. to_keys. apply leb_key. do 2 eexists.
  split; [eassumption|]. split; [eassumption|].
  key_arith; subst; auto; left; lia.
Qed.

Lemma ltb_leb (x y : float) :
  PrimFloat.ltb x y = true -> PrimFloat.leb x y = true.
Proof.
  intros H. to_keys. apply leb_key. do 2 eexists.
  split; [eassumption|]. split; [eassumption|]. left. assumption.
Qed.

Lemma leb_ltb_false (x y : float) :
  PrimFloat.leb x y = true -> PrimFloat.ltb y x = false.
Proof. intros H. refute_cmp. Qed.

Lemma ltb_leb_false (x y : float) :
  PrimFloat.ltb x y = true -> PrimFloat.leb y x = false.
Proof. intros H. refute_cmp. Qed.

Lemma leb_eqb_refl (x y : float) :
  PrimFloat.leb x y = true ->
  PrimFloat.eqb x x = true /\ PrimFloat.eqb y y = true.
Proof. intros H. to_keys. split; apply eqb_key; eauto. Qed.

Lemma leb_neq_ltb (x y : float) :
  PrimFloat.leb x y = true -> PrimFloat.eqb y x = false ->
  PrimFloat.ltb x y = true.
Proof.
  intros H Hne. to_keys. apply ltb_key. do 2 eexists.
  split; [eassumption|]. split; [eassumption|].
  destruct H as [H|H]; [assumption|]. subst.
  assert (PrimFloat.eqb y x = true) by (apply eqb_key; eauto). congruence.
Qed.

Lemma eqb_eqb_ltb_false (x y f : float) :
  PrimFloat.eqb x f = true -> PrimFloat.eqb y f = true ->
  PrimFloat.ltb x y = false.
Proof. intros Hx Hy. refute_cmp. Qed.

Lemma eqb_ltb_l (x f n : float) :
  PrimFloat.eqb x f = true -> PrimFloat.ltb x n = PrimFloat.ltb f n.
Proof.
  intros Hx. destruct (PrimFloat.ltb f n) eqn:E.
  - to_keys. apply ltb_key. eauto.
  - destruct (PrimFloat.ltb x n) eqn:E'; [|reflexivity].
    assert (PrimFloat.ltb f n = true); [|congruence].
    to_keys. apply ltb_key. eauto.
Qed.

Lemma eqb_ltb_r (x f n : float) :
  PrimFloat.eqb x f = true -> PrimFloat.ltb n x = PrimFloat.ltb n f.
Proof.
  intros Hx. destruct (PrimFloat.ltb n f) eqn:E.
  - to_keys. apply ltb_key. eauto.
  - destruct (PrimFloat.ltb n x) eqn:E'; [|reflexivity].
    assert (PrimFloat.ltb n f = true); [|congruence].
    to_keys. apply ltb_key. eauto.
Qed.

Lemma ltb_asym (x y : float) :
  PrimFloat.ltb x y = true -> PrimFloat.ltb y x = false.
Proof. intros H. refute_cmp. Qed.

End FloatOrderFacts.

(** ** The binner *)

Module BinnerFacts.

Import Binner FloatOrderFacts.

Local Open Scope list_scope.

Lemma getitem_nat {A : Type} (l : list A) (k : nat) (x : A) :
  l !! k = Some x -> getitem l (Z.of_nat k) = Ok x.
Proof.
  intros H. unfold getitem, norm_index.
  pose proof (lookup_lt_Some _ _ _ H) as Hlt.
  destruct (Z.ltb_spec (Z.of_nat k) 0); [lia|].
  destruct (Z.leb_spec 0 (Z.of_nat k)); [|lia].
  destruct (Z.ltb_spec (Z.of_nat k) (Z.of_nat (length l))); [|lia].
  simpl. rewrite Nat2Z.id, H. reflexivity.
Qed.

Lemma getitem_last {A : Type} (l : list A) (x : A) :
  last l = Some x -> getitem l (-1) = Ok x.
Proof.
  intros H. unfold getitem, norm_index.
  rewrite last_lookup in H.
  pose proof (lookup_lt_Some _ _ _ H) as Hlt.
  change (-1 <? 0) with true. cbv iota.
  destruct (Z.leb_spec 0 (-1 + Z.of_nat (length l))); [|lia].
  destruct (Z.ltb_spec (-1 + Z.of_nat (length l)) (Z.of_nat (length l))); [|lia].
  simpl.
  replace (Z.to_nat (-1 + Z.of_nat (length l))) with (pred (length l)) by lia.
  rewrite H. reflexivity.
Qed.

Lemma getitem_short {A : Type} (l : list A) (k : nat) :
  (length l <= k)%nat -> getitem l (Z.of_nat k) = Raise IndexError.
Proof.
  intros H. unfold getitem, norm_index.
  destruct (Z.ltb_spec (Z.of_nat k) 0); [lia|].
  destruct (Z.ltb_spec (Z.of_nat k) (Z.of_nat (length l))); [lia|].
  rewrite andb_false_r. reflexivity.
Qed.

Lemma mapM_map {A B C : Type} (f : B -> err C) (g : A -> B) (l : list A) :
  mapM f (map g l) = mapM (fun x => f (g x)) l.
Proof. induction l as [|x l IH]; simpl; [reflexivity|]. rewrite IH. reflexivity. Qed.

Lemma mapM_ok {A B : Type} (f : A -> err B) (g : A -> B) (l : list A) :
  (forall x, x ∈ l -> f x = Ok (g x)) -> mapM f l = Ok (map g l).
Proof.
  induction l as [|x l IH]; intros H; simpl; [reflexivity|].
  rewrite (H x) by (left). simpl. rewrite IH; [reflexivity|].
  intros y Hy. apply H. right. assumption.
Qed.

(** *** Ascending thresholds pass numpy's check *)

Lemma ascending_tail (x : float) (l : list float) :
  ascending (x :: l) = true -> ascending l = true.
Proof.
  destruct l as [|y l]; [reflexivity|]. simpl.
  intros H. apply andb_true_iff in H as [_ H]. exact H.
Qed.

Lemma ascending_head_le (x : float) (l : list float) (y : float) :
  ascending (x :: l) = true -> y ∈ l -> PrimFloat.leb x y = true.
Proof.
  revert x. induction l as [|z l IH]; intros x H Hy.
  - inversion Hy.
  - simpl in H. apply andb_true_iff in H as [Hxz H].
    apply elem_of_cons in Hy as [->|Hy]; [assumption|].
    eapply leb_trans; [exact Hxz|]. apply IH; assumption.
Qed.

Lemma ascending_no_fall (x : float) (l : list float) :
  ascending (x :: l) = true -> no_fall x l = true.
Proof.
  revert x. induction l as [|y l IH]; intros x H; [reflexivity|].
  simpl in H. apply andb_true_iff in H as [Hxy H]. simpl.
  rewrite (leb_ltb_false _ _ Hxy). apply IH. exact H.
Qed.

Lemma skip_equal_spec (first : float) (l : list float) :
  exists pre, l = pre ++ skip_equal first l /\
    Forall (fun x => PrimFloat.eqb x first = true) pre /\
    match skip_equal first l with
    | [] => True
    | next :: _ => PrimFloat.eqb next first = false
    end.
Proof.
  induction l as [|x l (pre & Hl & Hpre & Hnext)].
  - exists []. simpl. auto.
  - simpl. destruct (PrimFloat.eqb x first) eqn:E.
    + exists (x :: pre). simpl. rewrite <- Hl. auto.
    + exists []. simpl. auto.
Qed.

Lemma ascending_app_r (pre l : list float) :
  ascending (pre ++ l) = true -> ascending l = true.
Proof.
  induction pre as [|x pre IH]; [auto|].
  intros H. apply IH. exact (ascending_tail _ _ H).
Qed.

Lemma ascending_monotonicity (l : list float) :
  ascending l = true -> monotonicity l = 1.
Proof.
  destruct l as [|first l]; [reflexivity|]. intros H. unfold monotonicity.
  destruct (skip_equal_spec first l) as (pre & Hl & _ & Hnext).
  destruct (skip_equal first l) as [|next l'] eqn:E; [reflexivity|].
  assert (PrimFloat.leb first next = true) as Hle.
  { apply (ascending_head_le first l); [assumption|].
    rewrite Hl. apply elem_of_app. right. left. }
  rewrite (leb_neq_ltb _ _ Hle Hnext).
  rewrite ascending_no_fall; [reflexivity|].
  apply (ascending_app_r pre). rewrite <- Hl. exact (ascending_tail _ _ H).
Qed.

(** *** The bin of a duration among ascending thresholds *)

Lemma np_less_ltb (v x : float) :
  PrimFloat.ltb v x = true -> np_less v x = true.
Proof. intros H. unfold np_less. rewrite H. reflexivity. Qed.

Lemma np_less_leb (v x : float) :
  PrimFloat.leb x v = true -> np_less v x = false.
Proof.
  intros H. unfold np_less, is_nan.
  rewrite (leb_ltb_false _ _ H).
  destruct (leb_eqb_refl _ _ H) as [-> _]. reflexivity.
Qed.

Lemma searchsorted_right_split (pre post : list float) (v : float) :
  (forall x, x ∈ pre -> PrimFloat.leb x v = true) ->
  match post with [] => True | y :: _ => PrimFloat.ltb v y = true end ->
  searchsorted_right (pre ++ post) v = length pre.
Proof.
  induction pre as [|x pre IH]; intros Hpre Hpost; simpl.
  - destruct post as [|y post]; [reflexivity|].
    simpl. rewrite (np_less_ltb _ _ Hpost). reflexivity.
  - rewrite np_less_leb by (apply Hpre; left).
    rewrite IH; [reflexivity| |assumption].
    intros y Hy. apply Hpre. right. assumption.
Qed.

Lemma ascending_prefix_le (l : list float) (k : nat) (a v : float) :
  ascending l = true -> l !! k = Some a -> PrimFloat.leb a v = true ->
  forall x, x ∈ take (S k) l -> PrimFloat.leb x v = true.
Proof.
  revert k. induction l as [|y l IH]; intros k Hasc Hk Hav x Hx.
  - discriminate.
  - destruct k as [|k]; simpl in *.
    + injection Hk as ->. rewrite take_0 in Hx.
      apply list_elem_of_singleton in Hx as ->. assumption.
    + apply elem_of_cons in Hx as [->|Hx].
      * eapply leb_trans; [|exact Hav].
        apply (ascending_head_le y l); [assumption|].
        eapply list_elem_of_lookup_2. exact Hk.
      * apply (IH k); auto. exact (ascending_tail _ _ Hasc).
Qed.

(** The index [digitize] gives minus one, for each of the three places a
    duration can take among the thresholds. *)
Lemma bin_below (l : list float) (lo v : float) :
  head l = Some lo -> PrimFloat.ltb v lo = true ->
  searchsorted_right l v = O.
Proof.
  destruct l as [|x l]; [discriminate|]. simpl. intros [= ->] H.
  rewrite (np_less_ltb _ _ H). reflexivity.
Qed.

Lemma bin_above (l : list float) (hi v : float) :
  ascending l = true -> last l = Some hi -> PrimFloat.leb hi v = true ->
  searchsorted_right l v = length l.
Proof.
  intros Hasc Hlast Hv. rewrite last_lookup in Hlast.
  pose proof (lookup_lt_Some _ _ _ Hlast) as Hlt.
  rewrite <- (app_nil_r l) at 1.
  apply searchsorted_right_split; [|exact I].
  intros x Hx.
  apply (ascending_prefix_le l (pred (length l)) hi v); auto.
  rewrite take_ge by lia. assumption.
Qed.

Lemma bin_between (l : list float) (k : nat) (a b v : float) :
  ascending l = true -> l !! k = Some a -> l !! S k = Some b ->
  PrimFloat.leb a v = true -> PrimFloat.ltb v b = true ->
  searchsorted_right l v = S k.
Proof.
  intros Hasc Ha Hb Hav Hvb.
  pose proof (lookup_lt_Some _ _ _ Hb) as Hlt.
  rewrite <- (take_drop (S k) l) at 1.
  rewrite searchsorted_right_split.
  - rewrite length_take. lia.
  - apply (ascending_prefix_le l k a v); assumption.
  - rewrite (drop_S _ b _ Hb). assumption.
Qed.

Lemma searchsorted_right_le (l : list float) (v : float) :
  (searchsorted_right l v <= length l)%nat.
Proof.
  induction l as [|x l IH]; simpl; [lia|].
  destruct (np_less v x); simpl; lia.
Qed.

Lemma mapM_total {A B : Type} (f : A -> err B) (l : list A) :
  (forall x, x ∈ l -> exists y, f x = Ok y) ->
  exists ys, mapM f l = Ok ys /\
    forall i x, l !! i = Some x -> exists y, ys !! i = Some y /\ f x = Ok y.
Proof.
  induction l as [|x l IH]; intros H; simpl.
  - exists []. split; [reflexivity|]. intros i x Hx. discriminate.
  - destruct (H x) as [y Hy]; [left|].
    destruct IH as (ys & Hys & Hpt); [intros z Hz; apply H; right; exact Hz|].
    exists (y :: ys). rewrite Hy, Hys. split; [reflexivity|].
    intros [|i] z Hz; simpl in *; [injection Hz as <-; eauto|auto].
Qed.

Section Labels.

Variables (lb ub : bool) (ls : list float) (unit : time_unit).

Let dimlimits : list bound := map (fun l => Bound l unit) ls.

Lemma label_below (lo : float) :
  head ls = Some lo ->
  label_of lb ub dimlimits (length ls) (Z.of_nat 0 - 1)
  = Ok (if lb then Some (lbound (Bound lo unit)) else None).
Proof.
  intros H. unfold label_of.
  change (Z.of_nat 0 - 1 =? -1) with true. cbv iota.
  destruct lb; [|reflexivity].
  change (getitem dimlimits 0) with (getitem dimlimits (Z.of_nat 0)).
  rewrite (getitem_nat dimlimits 0 (Bound lo unit)); [reflexivity|].
  subst dimlimits. destruct ls; [discriminate|]. simpl in *. congruence.
Qed.

Lemma label_above (hi : float) :
  last ls = Some hi ->
  label_of lb ub dimlimits (length ls) (Z.of_nat (length ls) - 1)
  = Ok (if ub then Some (ubound (Bound hi unit)) else None).
Proof.
  intros H. unfold label_of.
  assert (0 < length ls)%nat as Hpos.
  { destruct ls; [discriminate|simpl; lia]. }
  destruct (Z.eqb_spec (Z.of_nat (length ls) - 1) (-1)); [lia|].
  rewrite Z.eqb_refl. destruct ub; [|reflexivity].
  rewrite (getitem_last dimlimits (Bound hi unit)); [reflexivity|].
  subst dimlimits. rewrite last_lookup in H.
  rewrite last_lookup, length_map, list_lookup_fmap, H. reflexivity.
Qed.

Lemma label_between (k : nat) (a b : float) :
  ls !! k = Some a -> ls !! S k = Some b ->
  label_of lb ub dimlimits (length ls) (Z.of_nat (S k) - 1)
  = Ok (Some (between (Bound a unit) (Bound b unit))).
Proof.
  intros Ha Hb. unfold label_of.
  pose proof (lookup_lt_Some _ _ _ Hb) as Hlt.
  destruct (Z.eqb_spec (Z.of_nat (S k) - 1) (-1)); [lia|].
  destruct (Z.eqb_spec (Z.of_nat (S k) - 1) (Z.of_nat (length ls) - 1)); [lia|].
  replace (Z.of_nat (S k) - 1) with (Z.of_nat k) by lia.
  rewrite (getitem_nat dimlimits k (Bound a unit))
    by (subst dimlimits; rewrite list_lookup_fmap, Ha; reflexivity).
  simpl. replace (Z.of_nat k + 1) with (Z.of_nat (S k)) by lia.
  rewrite (getitem_nat dimlimits (S k) (Bound b unit))
    by (subst dimlimits; rewrite list_lookup_fmap, Hb; reflexivity).
  reflexivity.
Qed.

Lemma label_of_total (n : nat) :
  ls <> [] -> (n <= length ls)%nat ->
  exists l, label_of lb ub dimlimits (length ls) (Z.of_nat n - 1) = Ok l.
Proof.
  intros Hne Hn. destruct n as [|k].
  - destruct (head ls) as [lo|] eqn:E.
    + rewrite (label_below lo E). eauto.
    + apply head_None in E. congruence.
  - destruct (decide (S k = length ls)) as [->|Hk].
    + destruct (last ls) as [hi|] eqn:E.
      * rewrite (label_above hi E). eauto.
      * rewrite last_lookup in E. apply lookup_ge_None in E. lia.
    + destruct (lookup_lt_is_Some_2 ls k) as [a Ha]; [lia|].
      destruct (lookup_lt_is_Some_2 ls (S k)) as [b Hb]; [lia|].
      rewrite (label_between k a b Ha Hb). eauto.
Qed.

End Labels.

(** With thresholds numpy takes for increasing, [sst_bins] labels each
    duration by the place [searchsorted] gives it. *)
Lemma sst_bins_increasing (st limits ls : list float) (lb ub : bool)
    (l1 : float) :
  include_lb_of limits = Ok lb -> include_ub_of limits = Ok ub ->
  explicit lb ub limits = ls -> ls !! 1%nat = Some l1 ->
  monotonicity ls = 1 ->
  sst_bins st limits
  = mapM (fun d =>
            label_of lb ub
              (map (fun l => Bound l (if PrimFloat.leb 60 l1 then Minutes
                                      else Seconds)) ls)
              (length ls) (Z.of_nat (searchsorted_right ls d) - 1)) st.
Proof.
  intros Hlb Hub Hls Hl1 Hmono. unfold sst_bins.
  rewrite Hlb. cbn [bind]. rewrite Hub. cbn [bind]. rewrite Hls.
  change (getitem ls 1) with (getitem ls (Z.of_nat 1)).
  rewrite (getitem_nat ls 1 l1 Hl1). cbn [bind].
  unfold digitize. rewrite Hmono.
  change (1 =? 0) with false. change (1 =? -1) with false. cbn [bind].
  rewrite mapM_map. reflexivity.
Qed.

(** The labels of ascending thresholds: half-open bins, closed below. *)
Lemma sst_bins_ascending (st limits ls : list float) (lb ub : bool)
    (lo l1 hi : float) :
  include_lb_of limits = Ok lb -> include_ub_of limits = Ok ub ->
  explicit lb ub limits = ls -> ascending ls = true ->
  head ls = Some lo -> ls !! 1%nat = Some l1 -> last ls = Some hi ->
  let unit := if PrimFloat.leb 60 l1 then Minutes else Seconds in
  exists labels, sst_bins st limits = Ok labels /\
    forall i d, st !! i = Some d ->
      (PrimFloat.ltb d lo = true ->
       labels !! i = Some (if lb then Some (lbound (Bound lo unit)) else None)) /\
      (PrimFloat.leb hi d = true ->
       labels !! i = Some (if ub then Some (ubound (Bound hi unit)) else None)) /\
      (forall k a b, ls !! k = Some a -> ls !! S k = Some b ->
         PrimFloat.leb a d = true -> PrimFloat.ltb d b = true ->
         labels !! i = Some (Some (between (Bound a unit) (Bound b unit)))).
Proof.
  intros Hlb Hub Hls Hasc Hlo Hl1 Hhi unit.
  rewrite (sst_bins_increasing st limits ls lb ub l1)
    by auto using ascending_monotonicity.
  fold unit.
  assert (ls <> []) as Hne by (intros ->; discriminate).
  destruct (mapM_total
              (fun d => label_of lb ub (map (fun l => Bound l unit) ls)
                          (length ls) (Z.of_nat (searchsorted_right ls d) - 1))
              st) as (labels & Hok & Hpt).
  { intros d _. apply label_of_total; [assumption|].
    apply searchsorted_right_le. }
  exists labels. split; [exact Hok|].
  intros i d Hd. destruct (Hpt i d Hd) as (y & Hy & Hfy). rewrite Hy.
  repeat split.
  - intros Hlt. rewrite (bin_below ls lo d Hlo Hlt) in Hfy.
    rewrite (label_below lb ub ls unit lo Hlo) in Hfy. congruence.
  - intros Hle. rewrite (bin_above ls hi d Hasc Hhi Hle) in Hfy.
    rewrite (label_above lb ub ls unit hi Hhi) in Hfy. congruence.
  - intros k a b Ha Hb Hle Hlt.
    rewrite (bin_between ls k a b d Hasc Ha Hb Hle Hlt) in Hfy.
    rewrite (label_between lb ub ls unit k a b Ha Hb) in Hfy. congruence.
Qed.

(** *** Thresholds that go up and down are refused *)

Lemma has_rise_no_rise (x : float) (l : list float) :
  has_rise (x :: l) = true -> no_rise x l = false.
Proof.
  revert x. induction l as [|y l IH]; intros x H; [discriminate|].
  simpl in *. destruct (PrimFloat.ltb x y); [reflexivity|]. apply IH. exact H.
Qed.

Lemma has_fall_no_fall (x : float) (l : list float) :
  has_fall (x :: l) = true -> no_fall x l = false.
Proof.
  revert x. induction l as [|y l IH]; intros x H; [discriminate|].
  simpl in *. destruct (PrimFloat.ltb y x); [reflexivity|]. apply IH. exact H.
Qed.

Lemma eqb_refl_r (p f : float) :
  PrimFloat.eqb p f = true -> PrimFloat.eqb f f = true.
Proof. intros H. to_keys. apply eqb_key. eauto. Qed.

(** A rise (or a fall) in [x :: pre ++ next :: l], where [x] and all of
    [pre] equal [first], is the step from [first] to [next] or comes after
    it. *)
Lemma rise_after_equal (first x next : float) (pre l : list float) :
  x = first \/ PrimFloat.eqb x first = true ->
  Forall (fun y => PrimFloat.eqb y first = true) pre ->
  has_rise (x :: pre ++ next :: l) = true ->
  PrimFloat.ltb first next = true \/ has_rise (next :: l) = true.
Proof.
  revert x. induction pre as [|p pre IH]; intros x Hx Hpre H.
  - change (PrimFloat.ltb x next || has_rise (next :: l) = true) in H.
    apply orb_true_iff in H as [H|H]; [left|right; exact H].
    destruct Hx as [->|Hx]; [exact H|].
    rewrite <- (eqb_ltb_l x first next Hx). exact H.
  - inversion Hpre as [|? ? Hp Hpre']; subst.
    change (PrimFloat.ltb x p || has_rise (p :: pre ++ next :: l) = true) in H.
    assert (PrimFloat.eqb x first = true) as Hx'.
    { destruct Hx as [->|Hx]; [exact (eqb_refl_r _ _ Hp)|exact Hx]. }
    rewrite (eqb_eqb_ltb_false x p first Hx' Hp) in H.
    apply (IH p); auto.
Qed.

Lemma fall_after_equal (first x next : float) (pre l : list float) :
  x = first \/ PrimFloat.eqb x first = true ->
  Forall (fun y => PrimFloat.eqb y first = true) pre ->
  has_fall (x :: pre ++ next :: l) = true ->
  PrimFloat.ltb next first = true \/ has_fall (next :: l) = true.
Proof.
  revert x. induction pre as [|p pre IH]; intros x Hx Hpre H.
  - change (PrimFloat.ltb next x || has_fall (next :: l) = true) in H.
    apply orb_true_iff in H as [H|H]; [left|right; exact H].
    destruct Hx as [->|Hx]; [exact H|].
    rewrite <- (eqb_ltb_r x first next Hx). exact H.
  - inversion Hpre as [|? ? Hp Hpre']; subst.
    change (PrimFloat.ltb p x || has_fall (p :: pre ++ next :: l) = true) in H.
    assert (PrimFloat.eqb x first = true) as Hx'.
    { destruct Hx as [->|Hx]; [exact (eqb_refl_r _ _ Hp)|exact Hx]. }
    rewrite (eqb_eqb_ltb_false p x first Hp Hx') in H.
    apply (IH p); auto.
Qed.

Lemma no_rise_among_equal (first x : float) (pre : list float) :
  x = first \/ PrimFloat.eqb x first = true ->
  Forall (fun y => PrimFloat.eqb y first = true) pre ->
  has_rise (x :: pre) = false.
Proof.
  revert x. induction pre as [|p pre IH]; intros x Hx Hpre; [reflexivity|].
  inversion Hpre as [|? ? Hp Hpre']; subst.
  change (PrimFloat.ltb x p || has_rise (p :: pre) = false).
  assert (PrimFloat.eqb x first = true) as Hx'.
  { destruct Hx as [->|Hx]; [exact (eqb_refl_r _ _ Hp)|exact Hx]. }
  rewrite (eqb_eqb_ltb_false x p first Hx' Hp). apply (IH p); auto.
Qed.

Lemma rise_fall_monotonicity (l : list float) :
  has_rise l = true -> has_fall l = true -> monotonicity l = 0.
Proof.
  destruct l as [|first t]; [discriminate|]. intros Hrise Hfall.
  unfold monotonicity.
  destruct (skip_equal_spec first t) as (pre & Ht & Hpre & _).
  destruct (skip_equal first t) as [|next l'].
  - rewrite app_nil_r in Ht. subst t.
    rewrite (no_rise_among_equal first first pre) in Hrise by auto.
    discriminate.
  - rewrite Ht in Hrise, Hfall.
    destruct (PrimFloat.ltb first next) eqn:E.
    + apply (fall_after_equal first first) in Hfall as [Hfall|Hfall]; auto.
      * rewrite (ltb_asym _ _ E) in Hfall. discriminate.
      * rewrite (has_fall_no_fall _ _ Hfall). reflexivity.
    + apply (rise_after_equal first first) in Hrise as [Hrise|Hrise]; auto.
      * congruence.
      * rewrite (has_rise_no_rise _ _ Hrise). reflexivity.
Qed.

Lemma has_rise_length (l : list float) :
  has_rise l = true -> (2 <= length l)%nat.
Proof. destruct l as [|x [|y l]]; try discriminate. simpl. lia. Qed.

Lemma explicit_thresholds_eq (limits : list float) (lb ub : bool) :
  include_lb_of limits = Ok lb -> include_ub_of limits = Ok ub ->
  explicit_thresholds limits = explicit lb ub limits.
Proof. intros Hlb Hub. unfold explicit_thresholds. rewrite Hlb, Hub. reflexivity. Qed.

(** What [sst_bins] raises, and so never assigns, on thresholds that are too
    few or that go up and down. *)
Lemma sst_bins_rejects (st limits : list float) :
  ((length (explicit_thresholds limits) < 2)%nat ->
   sst_bins st limits = Raise IndexError) /\
  (has_rise (explicit_thresholds limits) = true ->
   has_fall (explicit_thresholds limits) = true ->
   exists msg, sst_bins st limits = Raise (ValueError msg)).
Proof.
  unfold sst_bins.
  destruct (include_lb_of limits) as [lb|e] eqn:Hlb.
  - destruct (include_ub_of limits) as [ub|e] eqn:Hub.
    + rewrite (explicit_thresholds_eq limits lb ub Hlb Hub). cbn [bind].
      split.
      * intros Hlen.
        change (getitem (explicit lb ub limits) 1)
          with (getitem (explicit lb ub limits) (Z.of_nat 1)).
        rewrite getitem_short by lia. reflexivity.
      * intros Hrise Hfall.
        pose proof (has_rise_length _ Hrise) as Hlen.
        destruct (lookup_lt_is_Some_2 (explicit lb ub limits) 1) as [l1 Hl1];
          [lia|].
        change (getitem (explicit lb ub limits) 1)
          with (getitem (explicit lb ub limits) (Z.of_nat 1)).
        rewrite (getitem_nat _ 1 l1 Hl1). cbn [bind].
        unfold digitize. rewrite (rise_fall_monotonicity _ Hrise Hfall).
        change (0 =? 0) with true. cbn [bind]. eauto.
    + unfold explicit_thresholds. rewrite Hlb, Hub. cbn [bind].
      unfold include_lb_of, include_ub_of, getitem, norm_index in Hlb, Hub.
      destruct limits as [|x limits]; [discriminate|].
      exfalso. revert Hub. simpl length.
      change (-1 <? 0) with true. cbv iota.
      destruct (Z.leb_spec 0 (-1 + Z.of_nat (S (length limits)))); [|lia].
      destruct (Z.ltb_spec (-1 + Z.of_nat (S (length limits)))
                           (Z.of_nat (S (length limits)))); [|lia].
      cbn [andb].
      destruct ((x :: limits) !! Z.to_nat (-1 + Z.of_nat (S (length limits))))
        eqn:E; [discriminate|].
      apply lookup_ge_None in E. simpl in E. lia.
  - unfold explicit_thresholds. rewrite Hlb. cbn [bind].
    assert (e = IndexError) as ->.
    { unfold include_lb_of, getitem in Hlb.
      destruct (norm_index (length limits) 0); [|simpl in Hlb; congruence].
      destruct (limits !! n); simpl in Hlb; [discriminate|congruence]. }
    split; [reflexivity|discriminate].
Qed.

(** C8. Bins are half-open, closed below and open above.  With thresholds
    of 1, 30 and 60 minutes and both ends open, a duration of exactly 30
    minutes (1800 s) is labelled [30 min <= tau < 60 min], not
    [1 min <= tau < 30 min].  For any ascending thresholds, a duration below
    the first one is labelled [tau < first] when the low end is open and
    [None] otherwise, and a duration at or above the last one is labelled
    [tau >= last] when the high end is open and [None] otherwise. *)
Theorem binning_boundaries :
  (forall (st : list float) (i : nat),
     st !! i = Some 1800%float ->
     exists labels,
       sst_bins st [neg_infinity; 60; 1800; 3600; infinity]%float = Ok labels /\
       labels !! i = Some (Some (between (Bound 1800 Minutes)
                                         (Bound 3600 Minutes))) /\
       labels !! i <> Some (Some (between (Bound 60 Minutes)
                                          (Bound 1800 Minutes)))) /\
  (forall (st limits : list float) (lb ub : bool) (lo l1 hi : float)
          (i : nat) (d : float),
     include_lb_of limits = Ok lb -> include_ub_of limits = Ok ub ->
     ascending (explicit_thresholds limits) = true ->
     head (explicit_thresholds limits) = Some lo ->
     explicit_thresholds limits !! 1%nat = Some l1 ->
     last (explicit_thresholds limits) = Some hi ->
     st !! i = Some d ->
     let unit := if PrimFloat.leb 60 l1 then Minutes else Seconds in
     exists labels,
       sst_bins st limits = Ok labels /\
       (PrimFloat.ltb d lo = true ->
        labels !! i
        = Some (if lb then Some (lbound (Bound lo unit)) else None)) /\
       (PrimFloat.leb hi d = true ->
        labels !! i
        = Some (if ub then Some (ubound (Bound hi unit)) else None))).
Proof.
  split.
  - intros st i Hi.
    destruct (sst_bins_ascending st
                [neg_infinity; 60; 1800; 3600; infinity]%float
                [60; 1800; 3600]%float true true 60 1800 3600)
      as (labels & Hok & Hpt); try reflexivity.
    exists labels. split; [exact Hok|].
    destruct (Hpt i _ Hi) as (_ & _ & Hbetween).
    rewrite (Hbetween 1%nat 1800%float 3600%float) by reflexivity.
    split; [reflexivity|].
    intros H.
    apply (f_equal (fun o => match o with
                             | Some (Some (between b _)) =>
                                 PrimFloat.eqb (in_seconds b) 60
                             | _ => false
                             end)) in H.
    vm_compute in H. discriminate.
  - intros st limits lb ub lo l1 hi i d Hlb Hub Hasc Hlo Hl1 Hhi Hd unit.
    rewrite (explicit_thresholds_eq limits lb ub Hlb Hub) in *.
    destruct (sst_bins_ascending st limits _ lb ub lo l1 hi Hlb Hub eq_refl
                Hasc Hlo Hl1 Hhi) as (labels & Hok & Hpt).
    exists labels. split; [exact Hok|].
    destruct (Hpt i d Hd) as (Hbelow & Habove & _). split; assumption.
Qed.

(** The theorem at work on durations of 10 s, 30 min and 2 h. *)
Lemma binning_boundaries_witness :
  exists labels,
    sst_bins [10; 1800; 7200]%float
             [neg_infinity; 60; 1800; 3600; infinity]%float = Ok labels /\
    labels !! 1%nat = Some (Some (between (Bound 1800 Minutes)
                                          (Bound 3600 Minutes))) /\
    labels !! 0%nat = Some (Some (lbound (Bound 60 Minutes))) /\
    labels !! 2%nat = Some (Some (ubound (Bound 3600 Minutes))).
Proof.
  destruct binning_boundaries as [H30 Hopen].
  destruct (H30 [10; 1800; 7200]%float 1%nat eq_refl) as (labels & Hok & H1 & _).
  exists labels. split; [exact Hok|]. split; [exact H1|].
  destruct (Hopen [10; 1800; 7200]%float
              [neg_infinity; 60; 1800; 3600; infinity]%float true true
              60%float 1800%float 3600%float 0%nat 10%float
              eq_refl eq_refl eq_refl eq_refl eq_refl eq_refl eq_refl)
    as (labels0 & Hok0 & Hlow & _).
  destruct (Hopen [10; 1800; 7200]%float
              [neg_infinity; 60; 1800; 3600; infinity]%float true true
              60%float 1800%float 3600%float 2%nat 7200%float
              eq_refl eq_refl eq_refl eq_refl eq_refl eq_refl eq_refl)
    as (labels2 & Hok2 & _ & Hhigh).
  assert (labels0 = labels) as -> by congruence.
  assert (labels2 = labels) as -> by congruence.
  split; [exact (Hlow eq_refl)|exact (Hhigh eq_refl)].
Defined.

End BinnerFacts.

(** ** The segmenter *)

Module SegmenterFacts.

Import Segmenter.

Local Open Scope list_scope.

(** A single sample is one run of length one, whatever the memory held. *)
Lemma single_sample (u : uninitialised) (f sd_limit : float) :
  steps_number_of u [f] sd_limit = Ok [1%float].
Proof. reflexivity. Qed.

(** Durations that start with a zero are no segmentation: a run of [n > 0]
    samples holds [n] times the interval. *)
Lemma zero_head_not_partition (l : list float) :
  (length l <= 2)%nat -> ~ run_partition 10 (0%float :: l).
Proof.
  intros Hlen (lengths & Hpos & Heq).
  destruct lengths as [|n rest]; [discriminate|].
  inversion Hpos as [|? ? Hn _]; subst.
  destruct n as [|[|[|[|n]]]]; [lia| | | |].
  1-3: apply (f_equal (fun d => match d with
                                | x :: _ => PrimFloat.eqb x 0
                                | [] => false
                                end)) in Heq;
       vm_compute in Heq; discriminate.
  apply (f_equal length) in Heq. simpl in Heq. lia.
Qed.

(** C1. The runs the segmenter reports do not partition the samples.  On the
    constant signal [50, 50] with freshly zeroed memory both samples get
    0, and on [50, 50, 90], with memory that holds the very values the
    first run's recurrence needs, all three samples get 0 (whatever
    [steps_number] held): the reset on the last sample leaves [buffer = 0],
    and [steps_number[-0:]] is the whole array.  Neither output is a
    sequence of runs holding their sample count times the interval. *)
Theorem segmenter_loses_runs :
  (steps_number_of Demo.zeroed [50; 50]%float 2 = Ok [0; 0]%float /\
   ~ run_partition 10 (durations_of 10 [0; 0]%float)) /\
  ((forall steps : nat -> float,
      steps_number_of (Demo.lucky steps) [50; 50; 90]%float 2
      = Ok [0; 0; 0]%float) /\
   ~ run_partition 10 (durations_of 10 [0; 0; 0]%float)).
Proof.
  split; split.
  - vm_compute. reflexivity.
  - change (durations_of 10 [0; 0]%float)
      with [0 * float_of_Z 10; 0 * float_of_Z 10]%float.
    replace (0 * float_of_Z 10)%float with 0%float by (vm_compute; reflexivity).
    apply zero_head_not_partition. simpl. lia.
  - intros steps. vm_compute. reflexivity.
  - change (durations_of 10 [0; 0; 0]%float)
      with [0 * float_of_Z 10; 0 * float_of_Z 10; 0 * float_of_Z 10]%float.
    replace (0 * float_of_Z 10)%float with 0%float by (vm_compute; reflexivity).
    apply zero_head_not_partition. simpl. lia.
Qed.

(** C2. On [50, 50, 50, 50, 90, 90, 90] with a limit of 2 Hz the segmenter
    does not report a run of 4 followed by a run of 3.  With freshly zeroed
    memory it returns [3, 3, 3, 0, 0, 2, 2].  With memory that holds the
    values the first run's recurrence needs, samples 0 to 4 are never
    assigned (the slice [steps_number[i-buffer:i]] starts at -2, that is at
    index 5, and is empty) and samples 5 and 6 get 2: the sample that
    triggers the reset is counted in neither run. *)
Theorem segmenter_example_diverges :
  steps_number_of Demo.zeroed [50; 50; 50; 50; 90; 90; 90]%float 2
  = Ok [3; 3; 3; 0; 0; 2; 2]%float /\
  (forall steps : nat -> float,
     steps_number_of (Demo.lucky steps) [50; 50; 50; 50; 90; 90; 90]%float 2
     = Ok [steps 0%nat; steps 1%nat; steps 2%nat; steps 3%nat; steps 4%nat;
           2%float; 2%float]) /\
  (forall steps : nat -> float,
     steps_number_of (Demo.lucky steps) [50; 50; 50; 50; 90; 90; 90]%float 2
     <> Ok [4; 4; 4; 4; 3; 3; 3]%float).
Proof.
  assert (forall steps : nat -> float,
     steps_number_of (Demo.lucky steps) [50; 50; 50; 50; 90; 90; 90]%float 2
     = Ok [steps 0%nat; steps 1%nat; steps 2%nat; steps 3%nat; steps 4%nat;
           2%float; 2%float]) as Hlucky
    by (intros steps; vm_compute; reflexivity).
  split; [vm_compute; reflexivity|]. split; [exact Hlucky|].
  intros steps H. rewrite Hlucky in H.
  apply (f_equal (fun r => match r with
                           | Ok [_; _; _; _; _; x; _] => PrimFloat.eqb x 3
                           | _ => false
                           end)) in H.
  vm_compute in H. discriminate.
Qed.

End SegmenterFacts.

(** ** Phase correction in [_heat] *)

Module HeatFacts.

Import Store.

Local Open Scope list_scope.

Section Correction.

Context `{Ext : Externals}.

(** The guard of lines 643 and 648: once one sample is in the expected
    phase, no sample is corrected. *)
Lemma correct_phase_guard (exp_phase : string) (h p : list float)
    (phases : list string) :
  exp_phase ∈ phases -> correct_phase exp_phase h p phases = Ok h.
Proof.
  intros Hin. unfold correct_phase.
  assert (existsb (String.eqb exp_phase) phases = true) as ->; [|reflexivity].
  apply existsb_exists. exists exp_phase. split.
  - apply list_elem_of_In. exact Hin.
  - apply String.eqb_refl.
Qed.

Lemma mask_assign_nil {A : Type} (a : list A) (values : list A) :
  mask_assign a [] values = a.
Proof. destruct a; reflexivity. Qed.

Lemma correct_phase_all_expected (exp_phase : string) (q : float)
    (h p : list float) (phases : list string) :
  quality exp_phase = Ok q -> Forall (eq exp_phase) phases ->
  correct_phase exp_phase h p phases = Ok h.
Proof.
  intros Hq Hall. destruct phases as [|ph phases].
  - unfold correct_phase. simpl. rewrite Hq. simpl.
    rewrite mask_assign_nil. reflexivity.
  - inversion Hall; subst. apply correct_phase_guard. left.
Qed.

Lemma expected_phases_quality (power exp_in exp_out : string) :
  expected_phases power = Ok (exp_in, exp_out) ->
  (exists q, quality exp_in = Ok q) /\ (exists q, quality exp_out = Ok q).
Proof.
  unfold expected_phases. simpl.
  repeat match goal with
         | |- context [if ?c then _ else _] => destruct c
         end; intros [= <- <-] || discriminate; split; eexists; reflexivity.
Qed.


End Correction.


(** C6. A sample in the wrong phase keeps its single-phase enthalpy as soon
    as another sample is in the expected phase.  Two inlet samples of a
    compression at 1 Pa, gas at 310 K and two-phase at 280 K: the second
    keeps the single-phase enthalpy 281 instead of the saturated-gas
    enthalpy 1 the adapter gives at quality 1. *)
Theorem phase_correction_skips_samples :
  phases_PT [1; 1]%float [310; 280]%float = Ok ["gas"; "twophase"] /\
  PropsSI_H_PT 1%float 280%float = Ok 281%float /\
  PropsSI_H_PQ 1%float 1%float = Ok 1%float /\
  corrected_enthalpies "Pcomp" [1; 1]%float [310; 280]%float [9; 9]%float
                       [350; 351]%float
  = Ok ([311; 281]%float, [359; 360]%float).
Proof. repeat split; vm_compute; reflexivity. Qed.

End HeatFacts.

(** ** The quantity store *)

Module StoreFacts.

Import Store Effects.

#[local] Set Warnings "-clear-no-such-hyp".

Local Open Scope list_scope.

(** *** Rules for [sound] *)

Section Sound.

Context `{Ext : Externals}.

Variable I : DataTaker -> Prop.
Variable R : DataTaker -> DataTaker -> Prop.
Hypothesis R_refl : forall s, R s s.
Hypothesis R_trans : forall s1 s2 s3, R s1 s2 -> R s2 s3 -> R s1 s3.
Hypothesis I_step : forall s s', I s -> R s s' -> I s'.

Lemma sound_ret {A : Type} (a : A) : sound I R (ret a).
Proof. intros s r s' _ [= _ <-]. apply R_refl. Qed.

Lemma sound_raise {A : Type} (e : exn) : sound I R (@raise A e).
Proof. intros s r s' _ [= _ <-]. apply R_refl. Qed.

Lemma sound_lift {A : Type} (r : err A) : sound I R (lift r).
Proof. intros s r' s' _ [= _ <-]. apply R_refl. Qed.

Lemma sound_gets {A : Type} (f : DataTaker -> A) : sound I R (gets f).
Proof. intros s r s' _ [= _ <-]. apply R_refl. Qed.

Lemma sound_modify (f : DataTaker -> DataTaker) :
  (forall s, I s -> R s (f s)) -> sound I R (modify f).
Proof. intros H s r s' Hs [= _ <-]. apply H. exact Hs. Qed.

Lemma sound_bind {A B : Type} (m : M A) (k : A -> M B) :
  sound I R m -> (forall a, sound I R (k a)) -> sound I R (bindM m k).
Proof.
  intros Hm Hk s r s' Hs H. unfold bindM in H.
  destruct (m s) as [[a|e] s1] eqn:E.
  - pose proof (Hm _ _ _ Hs E) as H1.
    eapply R_trans; [exact H1|]. eapply Hk; [|exact H]. eauto.
  - injection H as _ <-. eapply Hm; eauto.
Qed.

Lemma sound_for_each {A : Type} (l : list A) (body : A -> M unit) :
  (forall x, x ∈ l -> sound I R (body x)) -> sound I R (for_each l body).
Proof.
  induction l as [|x l IH]; intros H; simpl.
  - apply sound_ret.
  - apply sound_bind; [apply H; left|].
    intros _. apply IH. intros y Hy. apply H. right. exact Hy.
Qed.

Lemma sound_collect {A B : Type} (f : A -> M B) (l : list A) :
  (forall x, sound I R (f x)) -> sound I R (collect f l).
Proof.
  intros H. induction l as [|x l IH]; simpl.
  - apply sound_ret.
  - apply sound_bind; [apply H|]. intros y.
    apply sound_bind; [exact IH|]. intros ys. apply sound_ret.
Qed.

Lemma sound_update_units (spec_units : gmap string string) (name : string) :
  sound I R (update_units spec_units name).
Proof.
  unfold update_units. apply sound_bind; [apply sound_gets|].
  intros cached. destruct (cached !! name); [apply sound_lift|apply sound_raise].
Qed.

Lemma sound_consume (r : result) : sound I R (consume r).
Proof.
  destruct r; simpl; [apply sound_raise|].
  apply sound_collect. intros x. apply sound_update_units.
Qed.

Lemma sound_values (r : result) : sound I R (values r).
Proof.
  destruct r; simpl; [apply sound_ret|].
  apply sound_collect. intros x. apply sound_update_units.
Qed.

Lemma sound_answer (variables : string) : sound I R (answer variables).
Proof.
  unfold answer. destruct (1 <? length (requested variables))%nat.
  - apply sound_ret.
  - apply sound_bind; [apply sound_lift|intros quantity].
    apply sound_bind; [apply sound_update_units|intros q]. apply sound_ret.
Qed.

Lemma sound_get_timestep : sound I R get_timestep.
Proof.
  unfold get_timestep.
  repeat (apply sound_bind; [first [apply sound_gets|apply sound_lift]|intros ?]).
  apply sound_ret.
Qed.

(** Applies the rules above along the code of a method. *)
Ltac step :=
  first
    [ apply sound_ret | apply sound_raise | apply sound_lift
    | apply sound_gets | apply sound_consume | apply sound_get_timestep
    | apply sound_update_units
    | apply sound_bind; [|intros ?]
    | match goal with
      | |- sound _ _ (match ?x with _ => _ end) => destruct x
      end ].

Section Build.

Variable self_get : string -> gmap string filter_value -> M result.
Variable kwargs : gmap string filter_value.
Variable allowed : string -> Prop.

Hypothesis self_get_sound : forall v, sound I R (self_get v kwargs).
Hypothesis store_sound :
  forall name q, allowed name -> sound I R (store name q).

Lemma sound_build_hum_ratio (w : string) :
  allowed w -> sound I R (build_hum_ratio self_get kwargs w).
Proof.
  intros Hw. unfold build_hum_ratio.
  repeat first [apply self_get_sound | apply store_sound; exact Hw | step].
Qed.

Lemma sound_build_to_clean (raw : frame) (to_clean : gset string) :
  (forall name, name ∈ to_clean -> allowed name) ->
  sound I R (build_to_clean raw to_clean).
Proof.
  intros Hsub. unfold build_to_clean.
  destruct (decide (to_clean = ∅)); [apply sound_ret|].
  do 4 (apply sound_bind; [step|intros ?]).
  apply sound_bind.
  - destruct (decide ("f" ∈ to_clean)); [|apply sound_ret].
    apply store_sound. auto.
  - intros _. destruct (decide ("flowrt_r" ∈ to_clean)); [|apply sound_ret].
    do 2 (apply sound_bind; [step|intros ?]).
    apply store_sound. auto.
Qed.

Lemma sound_build_dependent (heating : bool) (quantity : string) :
  allowed quantity ->
  sound I R (build_dependent self_get kwargs heating quantity).
Proof.
  intros Hq. unfold build_dependent.
  repeat first [apply self_get_sound | apply store_sound; exact Hq | step].
Qed.

Lemma sound_build_Pel :
  allowed "Pel" -> sound I R (build_Pel self_get kwargs).
Proof.
  intros Hq. unfold build_Pel.
  repeat first [apply self_get_sound | apply store_sound; exact Hq | step].
Qed.

Lemma sound_build_t (raw : frame) :
  allowed "t" -> sound I R (build_t raw).
Proof.
  intros Hq. unfold build_t.
  repeat first [apply store_sound; exact Hq | step].
Qed.

Lemma sound_build_as_is (raw : frame) (quantity : string) :
  allowed quantity -> sound I R (build_as_is raw quantity).
Proof.
  intros Hq. unfold build_as_is.
  repeat first [apply store_sound; exact Hq | step].
Qed.

Lemma sound_build_enthalpy (heating : bool) (enthalpy : string) :
  allowed enthalpy ->
  sound I R (build_enthalpy self_get kwargs heating enthalpy).
Proof.
  intros Hq. unfold build_enthalpy.
  repeat first [apply self_get_sound | apply store_sound; exact Hq | step].
Qed.

Lemma elem_of_set_order (X : gset string) (x : string) :
  x ∈ set_order X <-> x ∈ X.
Proof. rewrite (set_order_perm X). apply elem_of_elements. Qed.

Lemma sound_build (quantities : gset string) :
  (forall name, name ∈ quantities -> allowed name) ->
  sound I R (_build_quantities self_get quantities kwargs).
Proof.
  intros Hsub. unfold _build_quantities.
  apply sound_bind; [step|intros self_raw].
  apply sound_bind; [step|intros raw].
  apply sound_bind.
  { destruct (decide _); [apply sound_ret|].
    repeat first [apply self_get_sound | step]. }
  intros heating.
  apply sound_bind.
  { apply sound_for_each. intros w Hw. apply elem_of_set_order in Hw.
    apply sound_build_hum_ratio. apply Hsub. set_solver. }
  intros _. apply sound_bind.
  { apply sound_build_to_clean. intros name Hn. apply Hsub. set_solver. }
  intros _. apply sound_bind.
  { apply sound_for_each. intros w Hw. apply elem_of_set_order in Hw.
    apply sound_build_dependent. apply Hsub. set_solver. }
  intros _. apply sound_bind.
  { destruct (decide _); [|apply sound_ret]. apply sound_build_Pel. apply Hsub. set_solver. }
  intros _. apply sound_bind.
  { destruct (decide _); [|apply sound_ret]. apply sound_build_t. apply Hsub. set_solver. }
  intros _. apply sound_bind.
  { apply sound_for_each. intros w Hw. apply elem_of_set_order in Hw.
    apply sound_build_as_is. apply Hsub. set_solver. }
  intros _. apply sound_for_each. intros w Hw. apply elem_of_set_order in Hw.
  apply sound_build_enthalpy. apply Hsub. set_solver.
Qed.

End Build.

End Sound.

(** Applies the rules along the code of a method; [side] proves that the
    relation is a preorder the invariant is stable under. *)
Ltac sound_step side :=
  first
    [ apply sound_ret; side | apply sound_raise; side | apply sound_lift; side
    | apply sound_gets; side
    | apply sound_consume; side | apply sound_values; side
    | apply sound_get_timestep; side
    | apply sound_update_units; side
    | apply sound_bind; [side | side | | intros ?]
    | match goal with
      | |- sound _ _ (match ?x with _ => _ end) => destruct x
      end ].

(** *** The frame of [get] *)

Lemma frame_refl (s : DataTaker) : frame_rel s s.
Proof. repeat split. exists []. rewrite app_nil_r. reflexivity. Qed.

Lemma frame_trans (s1 s2 s3 : DataTaker) :
  frame_rel s1 s2 -> frame_rel s2 s3 -> frame_rel s1 s3.
Proof.
  intros (Hr & Ht & Hn & e & He) (Hr' & Ht' & Hn' & e' & He').
  repeat split; try congruence.
  exists (e ++ e'). rewrite He', He, app_assoc. reflexivity.
Qed.

Lemma always_step (s s' : DataTaker) : always s -> frame_rel s s' -> always s'.
Proof. intros _ _. exact I. Qed.

Ltac frame_side :=
  first [exact frame_refl | exact frame_trans | exact always_step].

Section Frame.

Context `{Ext : Externals}.

Lemma frame_store (name : string) (q : Quantity) :
  sound always frame_rel (store name q).
Proof.
  apply sound_modify. intros s _. repeat split. simpl. eauto.
Qed.

Lemma frame_clear : sound always frame_rel clear.
Proof. apply sound_modify. intros s _. repeat split. simpl. eauto. Qed.

Lemma frame_set_groups (kwargs : gmap string filter_value) :
  sound always frame_rel (modify (set_groups kwargs)).
Proof.
  apply sound_modify. intros s _. repeat split. simpl.
  exists []. rewrite app_nil_r. reflexivity.
Qed.

Lemma frame_build
    (self_get : string -> gmap string filter_value -> M result)
    (quantities : gset string) (kwargs : gmap string filter_value) :
  (forall v, sound always frame_rel (self_get v kwargs)) ->
  sound always frame_rel (_build_quantities self_get quantities kwargs).
Proof.
  intros Hget.
  apply (sound_build always frame_rel frame_refl frame_trans always_step
           self_get kwargs (fun _ => True)); auto.
  intros name q _. apply frame_store.
Qed.

Lemma frame_get_with
    (build : gset string -> gmap string filter_value -> M unit)
    (variables : string) (update : bool) (kwargs : gmap string filter_value) :
  (forall quantities, sound always frame_rel (build quantities kwargs)) ->
  sound always frame_rel (get_with build variables update kwargs).
Proof.
  intros Hbuild. unfold get_with.
  apply sound_bind; [frame_side|frame_side|sound_step frame_side|intros groups].
  apply sound_bind; [frame_side|frame_side| |intros _].
  { destruct (update || negb (bool_decide (groups = kwargs))).
    - apply sound_bind; [frame_side|frame_side|apply frame_clear|intros _].
      apply Hbuild.
    - apply sound_bind; [frame_side|frame_side|sound_step frame_side|intros ?].
      apply Hbuild. }
  apply sound_bind; [frame_side|frame_side|apply frame_set_groups|intros _].
  apply sound_answer; frame_side.
Qed.

(** [get] leaves the data read from the files alone and only adds to the
    history of the store. *)
Lemma frame_get (depth : nat) (variables : string) (update : bool)
    (kwargs : gmap string filter_value) :
  sound always frame_rel (get depth variables update kwargs).
Proof.
  revert variables update kwargs.
  induction depth as [|d IH]; intros variables update kwargs; simpl.
  - apply sound_raise. frame_side.
  - apply frame_get_with. intros quantities. apply frame_build.
    intros v. apply IH.
Qed.

End Frame.

(** *** A second [get] under the same filter *)

Lemma bindM_ok_inv {A B : Type} (m : M A) (k : A -> M B) (s s' : DataTaker)
    (b : B) :
  bindM m k s = (Ok b, s') ->
  exists a s1, m s = (Ok a, s1) /\ k a s1 = (Ok b, s').
Proof.
  unfold bindM. destruct (m s) as [[a|e] s1]; [eauto|discriminate].
Qed.

Lemma set_groups_id (kwargs : gmap string filter_value) (s : DataTaker) :
  _groups s = kwargs -> set_groups kwargs s = s.
Proof. intros <-. destruct s. reflexivity. Qed.

Section Cache.

Context `{Ext : Externals}.

Lemma update_units_state (spec_units : gmap string string) (name : string)
    (s s' : DataTaker) (r : err Quantity) :
  update_units spec_units name s = (r, s') -> s' = s.
Proof.
  intros H. symmetry.
  apply (sound_update_units always eq) in H; unfold always; auto; congruence.
Qed.

Lemma values_state (r : result) (s s' : DataTaker) (res : err (list Quantity)) :
  values r s = (res, s') -> s' = s.
Proof.
  intros H. symmetry.
  apply (sound_values always eq) in H; unfold always; auto; congruence.
Qed.

Lemma answer_state (variables : string) (s s' : DataTaker) (r : err result) :
  answer variables s = (r, s') -> s' = s.
Proof.
  intros H. symmetry.
  apply (sound_answer always eq) in H; unfold always; auto; congruence.
Qed.

Lemma update_units_dom (spec_units : gmap string string) (name : string)
    (s s' : DataTaker) (q : Quantity) :
  update_units spec_units name s = (Ok q, s') -> name ∈ dom (quantities s).
Proof.
  unfold update_units, bindM, gets. intros H. apply elem_of_dom.
  destruct (quantities s !! name); [eauto|discriminate].
Qed.

Lemma collect_dom (spec_units : gmap string string) (names : list string)
    (s s' : DataTaker) (qs : list Quantity) :
  collect (update_units spec_units) names s = (Ok qs, s') ->
  forall name, name ∈ names -> name ∈ dom (quantities s).
Proof.
  revert qs s'. induction names as [|x names IH]; intros qs s' H name Hin.
  - inversion Hin.
  - simpl in H. apply bindM_ok_inv in H as (q & s1 & Hq & H).
    pose proof (update_units_state _ _ _ _ _ Hq) as ->.
    apply bindM_ok_inv in H as (qs' & s2 & Hqs & _).
    apply elem_of_cons in Hin as [->|Hin].
    + exact (update_units_dom _ _ _ _ _ Hq).
    + exact (IH _ _ Hqs _ Hin).
Qed.

(** When [get] returned and its result could be used, every requested name
    is in the store. *)
Lemma answer_dom (variables : string) (s s' s'' : DataTaker) (r : result)
    (qs : list Quantity) :
  answer variables s = (Ok r, s') -> values r s = (Ok qs, s'') ->
  forall name, name ∈ requested variables -> name ∈ dom (quantities s).
Proof.
  unfold answer. intros H Hval name Hin.
  destruct (1 <? length (requested variables))%nat eqn:L.
  - injection H as <- _. simpl in Hval. exact (collect_dom _ _ _ _ _ Hval _ Hin).
  - apply bindM_ok_inv in H as (q0 & s1 & Hq0 & H).
    injection Hq0 as Hq0 <-.
    apply bindM_ok_inv in H as (q & s2 & Hq & _).
    apply Nat.ltb_ge in L.
    destruct (requested variables) as [|x [|y l]]; simpl in L;
      [discriminate| |lia].
    injection Hq0 as <-. apply list_elem_of_singleton in Hin as ->.
    exact (update_units_dom _ _ _ _ _ Hq).
Qed.

Lemma build_ok_filtered
    (self_get : string -> gmap string filter_value -> M result)
    (quantities : gset string) (kwargs : gmap string filter_value)
    (s s' : DataTaker) :
  _build_quantities self_get quantities kwargs s = (Ok tt, s') ->
  exists raw, filtered (raw_data s) kwargs = Ok raw.
Proof.
  unfold _build_quantities. intros H.
  apply bindM_ok_inv in H as (self_raw & s1 & [= <- <-] & H).
  apply bindM_ok_inv in H as (raw & s2 & [= Hraw _] & _). eauto.
Qed.

Lemma set_order_empty : set_order ∅ = [].
Proof.
  apply Permutation_nil_r. rewrite (set_order_perm ∅), elements_empty.
  reflexivity.
Qed.

(** With nothing to derive, [_build_quantities] only filters the table. *)
Lemma build_empty
    (self_get : string -> gmap string filter_value -> M result)
    (kwargs : gmap string filter_value) (s : DataTaker) (raw : frame) :
  filtered (raw_data s) kwargs = Ok raw ->
  _build_quantities self_get ∅ kwargs s = (Ok tt, s).
Proof.
  intros Hraw. unfold _build_quantities. cbv zeta.
  assert (∅ ∩ hum_ratio_names = (∅ : gset string)) as -> by set_solver.
  assert (∅ ∩ to_clean_names = (∅ : gset string)) as -> by set_solver.
  assert (∅ ∩ dependent_names = (∅ : gset string)) as -> by set_solver.
  assert (∅ ∩ enthalpy_names = (∅ : gset string)) as -> by set_solver.
  assert ((∅ : gset string) ∖ ∅ ∖ ∅ ∖ ∅ ∖ ∅ = ∅) as -> by set_solver.
  assert ((∅ : gset string) ∖ own_rule = ∅) as -> by set_solver.
  rewrite set_order_empty.
  unfold bindM at 1. unfold gets at 1. cbv beta iota.
  unfold bindM at 1. unfold lift at 1. rewrite Hraw. cbv beta iota.
  unfold build_to_clean.
  destruct (decide ((∅ : gset string) = ∅ ∧ (∅ : gset string) = ∅))
    as [_|Hne]; [|exfalso; apply Hne; auto].
  destruct (decide ((∅ : gset string) = ∅)) as [_|Hne]; [|congruence].
  destruct (decide ("Pel" ∈ (∅ : gset string))) as [Hin|_]; [set_solver|].
  destruct (decide ("t" ∈ (∅ : gset string))) as [Hin|_]; [set_solver|].
  reflexivity.
Qed.


End Cache.


(** *** What a call of [get] derives *)

Section Stores.

Context `{Ext : Externals}.

Lemma stores_store (name : string) (q : Quantity) : stores name (store name q).
Proof.
  intros s a s' [= _ <-]. exists [], []. reflexivity.
Qed.

Lemma stores_raise {A : Type} (name : string) (e : exn) :
  stores name (@raise A e).
Proof. intros s a s' H. discriminate. Qed.

Lemma stores_bind_l {A B : Type} (name : string) (m : M A) (k : A -> M B) :
  stores name m -> (forall a, sound always frame_rel (k a)) ->
  stores name (bindM m k).
Proof.
  intros Hm Hk s b s' H.
  apply bindM_ok_inv in H as (a & s1 & H1 & H2).
  destruct (Hm _ _ _ H1) as (before & after & Ht).
  destruct (Hk a _ _ _ I H2) as (_ & _ & _ & e & He).
  exists before, (after ++ e). rewrite He, Ht.
  rewrite <- !app_assoc. reflexivity.
Qed.

Lemma stores_bind_r {A B : Type} (name : string) (m : M A) (k : A -> M B) :
  sound always frame_rel m -> (forall a, stores name (k a)) ->
  stores name (bindM m k).
Proof.
  intros Hm Hk s b s' H.
  apply bindM_ok_inv in H as (a & s1 & H1 & H2).
  destruct (Hm _ _ _ I H1) as (_ & _ & _ & e & He).
  destruct (Hk a _ _ _ H2) as (before & after & Ht).
  exists (e ++ before), after. rewrite Ht, He.
  rewrite <- !app_assoc. reflexivity.
Qed.

Lemma stores_for_each {A : Type} (name : string) (l : list A)
    (body : A -> M unit) (x : A) :
  x ∈ l -> stores name (body x) ->
  (forall y, sound always frame_rel (body y)) ->
  stores name (for_each l body).
Proof.
  intros Hin Hx Hall. induction l as [|y l IH]; [inversion Hin|].
  simpl. apply elem_of_cons in Hin as [<-|Hin].
  - apply stores_bind_l; [exact Hx|].
    intros _. apply sound_for_each; try frame_side. auto.
  - apply stores_bind_r; [apply Hall|]. intros _. apply IH. exact Hin.
Qed.

Variable self_get : string -> gmap string filter_value -> M result.
Variable kwargs : gmap string filter_value.
Hypothesis self_get_frame : forall v, sound always frame_rel (self_get v kwargs).

(** The frame of every rule of [_build_quantities]. *)
Ltac frame_rule :=
  first
    [ apply self_get_frame
    | apply frame_store
    | apply (sound_build_hum_ratio always frame_rel frame_refl frame_trans
               always_step self_get kwargs (fun _ => True))
    | apply (sound_build_to_clean always frame_rel frame_refl frame_trans
               always_step (fun _ => True))
    | apply (sound_build_dependent always frame_rel frame_refl frame_trans
               always_step self_get kwargs (fun _ => True))
    | apply (sound_build_Pel always frame_rel frame_refl frame_trans
               always_step self_get kwargs (fun _ => True))
    | apply (sound_build_t always frame_rel frame_refl frame_trans
               always_step (fun _ => True))
    | apply (sound_build_as_is always frame_rel frame_refl frame_trans
               always_step (fun _ => True))
    | apply (sound_build_enthalpy always frame_rel frame_refl frame_trans
               always_step self_get kwargs (fun _ => True))
    | apply sound_for_each; [frame_side|frame_side|frame_side|intros ? ?]
    | match goal with
      | |- sound _ _ (if ?c then _ else _) => destruct c
      end
    | sound_step frame_side ];
  auto using frame_store.

Ltac frame_rules := repeat frame_rule.

(** Runs through the code up to the write of [name]. *)
Ltac to_store :=
  repeat first
    [ apply stores_store
    | apply stores_raise
    | apply stores_bind_r; [solve [frame_rules]|intros ?]
    | match goal with
      | |- stores _ (match ?x with _ => _ end) => destruct x
      end ].

Lemma stores_build_hum_ratio (w : string) :
  stores w (build_hum_ratio self_get kwargs w).
Proof. unfold build_hum_ratio. to_store. Qed.

Lemma stores_build_dependent (heating : bool) (quantity : string) :
  stores quantity (build_dependent self_get kwargs heating quantity).
Proof. unfold build_dependent. to_store. Qed.

Lemma stores_build_Pel : stores "Pel" (build_Pel self_get kwargs).
Proof. unfold build_Pel. to_store. Qed.

Lemma stores_build_t (raw : frame) : stores "t" (build_t raw).
Proof. unfold build_t. to_store. Qed.

Lemma stores_build_as_is (raw : frame) (quantity : string) :
  stores quantity (build_as_is raw quantity).
Proof. unfold build_as_is. to_store. Qed.

Lemma stores_build_enthalpy (heating : bool) (enthalpy : string) :
  stores enthalpy (build_enthalpy self_get kwargs heating enthalpy).
Proof. unfold build_enthalpy. to_store. Qed.

Lemma stores_build_to_clean (raw : frame) (to_clean : gset string)
    (name : string) :
  to_clean ⊆ to_clean_names -> name ∈ to_clean ->
  stores name (build_to_clean raw to_clean).
Proof.
  intros Hsub Hin. unfold build_to_clean.
  destruct (decide (to_clean = ∅)) as [->|_]; [set_solver|].
  do 4 (apply stores_bind_r; [solve [frame_rules]|intros ?]).
  assert (name = "f" \/ name = "flowrt_r") as [->| ->].
  { apply Hsub in Hin. unfold to_clean_names in Hin. set_solver. }
  - apply stores_bind_l.
    + destruct (decide ("f" ∈ to_clean)); [apply stores_store|contradiction].
    + intros _. frame_rules.
  - apply stores_bind_r; [solve [frame_rules]|intros _].
    destruct (decide ("flowrt_r" ∈ to_clean)); [|contradiction].
    to_store.
Qed.

(** [_build_quantities], when it returns, has written every quantity it
    was asked for. *)
Lemma stores_build (quantities : gset string) (name : string) :
  name ∈ quantities ->
  stores name (_build_quantities self_get quantities kwargs).
Proof.
  intros Hin. unfold _build_quantities. cbv zeta.
  do 3 (apply stores_bind_r; [solve [frame_rules]|intros ?]).
  destruct (decide (name ∈ hum_ratio_names)) as [Hhum|Hhum].
  { apply stores_bind_l; [|intros _; frame_rules].
    apply (stores_for_each _ _ _ name);
      [apply elem_of_set_order; set_solver
      |apply stores_build_hum_ratio|intros y; frame_rules]. }
  apply stores_bind_r; [solve [frame_rules]|intros _].
  destruct (decide (name ∈ to_clean_names)) as [Hclean|Hclean].
  { apply stores_bind_l; [|intros _; frame_rules].
    apply stores_build_to_clean; set_solver. }
  apply stores_bind_r; [solve [frame_rules]|intros _].
  destruct (decide (name ∈ dependent_names ∖ own_rule)) as [Hdep|Hdep].
  { apply stores_bind_l; [|intros _; frame_rules].
    apply (stores_for_each _ _ _ name);
      [apply elem_of_set_order; set_solver
      |apply stores_build_dependent|intros y; frame_rules]. }
  apply stores_bind_r; [solve [frame_rules]|intros _].
  destruct (decide (name = "Pel")) as [->|HPel].
  { apply stores_bind_l; [|intros _; frame_rules].
    destruct (decide ("Pel" ∈ quantities ∩ dependent_names)) as [_|Hout].
    - apply stores_build_Pel.
    - exfalso. apply Hout. unfold dependent_names. set_solver. }
  apply stores_bind_r; [solve [frame_rules]|intros _].
  destruct (decide (name = "t")) as [->|Ht].
  { apply stores_bind_l; [|intros _; frame_rules].
    destruct (decide ("t" ∈ quantities ∩ dependent_names)) as [_|Hout].
    - apply stores_build_t.
    - exfalso. apply Hout. unfold dependent_names. set_solver. }
  apply stores_bind_r; [solve [frame_rules]|intros _].
  assert (name ∉ dependent_names) as Hdep'.
  { intros H. apply Hdep. unfold own_rule. set_solver. }
  destruct (decide (name ∈ enthalpy_names)) as [Henth|Henth].
  - apply stores_bind_r; [solve [frame_rules]|intros _].
    apply (stores_for_each _ _ _ name);
      [apply elem_of_set_order; set_solver
      |apply stores_build_enthalpy|intros y; frame_rules].
  - apply stores_bind_l; [|intros _; frame_rules].
    apply (stores_for_each _ _ _ name);
      [apply elem_of_set_order; set_solver
      |apply stores_build_as_is|intros y; frame_rules].
Qed.

End Stores.

(** *** Cached quantities are left alone *)

Lemma cached_refl (cached : gset string) (s : DataTaker) :
  cached_rel cached s s.
Proof.
  split; [reflexivity|]. split; [|reflexivity].
  exists []. rewrite app_nil_r. split; [reflexivity|constructor].
Qed.

Lemma cached_trans (cached : gset string) (s1 s2 s3 : DataTaker) :
  cached_rel cached s1 s2 -> cached_rel cached s2 s3 ->
  cached_rel cached s1 s3.
Proof.
  intros (Hg & (e & He & Hall) & Hq) (Hg' & (e' & He' & Hall') & Hq').
  split; [congruence|]. split.
  - exists (e ++ e'). rewrite He', He, app_assoc. split; [reflexivity|].
    apply Forall_app. auto.
  - intros name Hin. rewrite Hq', Hq by exact Hin. reflexivity.
Qed.

Lemma cached_inv_step (kwargs : gmap string filter_value)
    (cached : gset string) (s s' : DataTaker) :
  cached_inv kwargs cached s -> cached_rel cached s s' ->
  cached_inv kwargs cached s'.
Proof.
  intros [Hg Hsub] (Hg' & _ & Hq). split; [congruence|].
  intros name Hin. apply elem_of_dom. rewrite (Hq name Hin).
  apply elem_of_dom. apply Hsub. exact Hin.
Qed.

Lemma bindM_gets {A B : Type} (f : DataTaker -> A) (k : A -> M B)
    (s : DataTaker) :
  bindM (gets f) k s = k (f s) s.
Proof. reflexivity. Qed.

Lemma bindM_modify {B : Type} (f : DataTaker -> DataTaker) (k : unit -> M B)
    (s : DataTaker) :
  bindM (modify f) k s = k tt (f s).
Proof. reflexivity. Qed.

Lemma bindM_assoc {A B C : Type} (m : M A) (k1 : A -> M B) (k2 : B -> M C)
    (s : DataTaker) :
  bindM (bindM m k1) k2 s = bindM m (fun a => bindM (k1 a) k2) s.
Proof. unfold bindM. destruct (m s) as [[a|e] s1]; reflexivity. Qed.

Section Cached.

Context `{Ext : Externals}.

Variable kwargs : gmap string filter_value.
Variable cached : gset string.

Ltac cached_side :=
  first [exact (cached_refl cached) | exact (cached_trans cached)
        | exact (cached_inv_step kwargs cached)].

Lemma cached_store (name : string) (q : Quantity) :
  name ∉ cached ->
  sound (cached_inv kwargs cached) (cached_rel cached) (store name q).
Proof.
  intros Hout. apply sound_modify. intros s _.
  split; [reflexivity|]. split.
  - exists [EStore name]. split; [reflexivity|].
    constructor; [eauto|constructor].
  - intros name' Hin. simpl. apply lookup_insert_ne. congruence.
Qed.

Lemma cached_set_groups :
  sound (cached_inv kwargs cached) (cached_rel cached)
        (modify (set_groups kwargs)).
Proof.
  apply sound_modify. intros s [Hg _].
  split; [simpl; congruence|]. split; [|reflexivity].
  exists []. simpl. rewrite app_nil_r. split; [reflexivity|constructor].
Qed.

(** Under the active filter and without [update], [get] writes nothing but
    quantities that were not cached, at any depth of the calls. *)
Lemma cached_get (depth : nat) (variables : string) :
  sound (cached_inv kwargs cached) (cached_rel cached)
        (get depth variables false kwargs).
Proof.
  revert variables. induction depth as [|d IH]; intros variables; simpl.
  - apply sound_raise. cached_side.
  - intros s r s' Hinv H. pose proof Hinv as [Hg Hsub].
    unfold get_with in H. cbv zeta in H.
    rewrite bindM_gets, Hg, bool_decide_eq_true_2 in H by reflexivity.
    cbn [negb orb] in H. rewrite bindM_assoc, bindM_gets in H.
    assert (sound (cached_inv kwargs cached) (cached_rel cached)
              (bindM (_build_quantities (fun v k => get d v false k)
                        (list_to_set (requested variables)
                         ∖ dom (quantities s)) kwargs)
                 (fun _ => bindM (modify (set_groups kwargs))
                             (fun _ => answer variables)))) as Hsound;
      [|exact (Hsound s r s' Hinv H)].
    apply sound_bind; try cached_side; [|intros _].
    + apply (sound_build _ _ (cached_refl cached) (cached_trans cached)
               (cached_inv_step kwargs cached) _ kwargs
               (fun name => name ∉ cached)).
      * intros v. apply IH.
      * intros name q. apply cached_store.
      * intros name [_ Hout]%elem_of_difference Hin. apply Hout, Hsub, Hin.
    + apply sound_bind; try cached_side; [apply cached_set_groups|intros _].
      apply sound_answer; cached_side.
Qed.

End Cached.

Section Invalidation.

Context `{Ext : Externals}.


End Invalidation.


(** *** The operating mode *)

(** C5, as amended. The mode is heating exactly when fewer than half of
    the samples of the direction flag are non-zero (cooling); with exactly
    half of them non-zero the mode is cooling. *)
Theorem heating_iff_fewer_than_half (ref_dir : list cell) :
  (heating_of ref_dir = true <->
   (2 * count_nonzero ref_dir < length ref_dir)%nat) /\
  ((2 * count_nonzero ref_dir = length ref_dir)%nat ->
   heating_of ref_dir = false).
Proof.
  unfold heating_of. split.
  - apply Nat.ltb_lt.
  - intros H. apply Nat.ltb_ge. lia.
Qed.

(** A flag column with one sample of two flagged cooling: exactly half, and
    the mode is not heating. *)
Lemma half_cooling_is_not_heating :
  (2 * count_nonzero [CNum 0%float; CNum 1%float] = 2)%nat /\
  length [CNum 0%float; CNum 1%float] = 2%nat /\
  heating_of [CNum 0%float; CNum 1%float] = false.
Proof. repeat split. Qed.

(** The amended statement at work on that column. *)
Lemma heating_iff_fewer_than_half_witness :
  heating_of [CNum 0%float; CNum 1%float] = false /\
  heating_of [CNum 0%float; CNum 0%float; CNum 1%float] = true.
Proof.
  split.
  - apply (heating_iff_fewer_than_half [CNum 0%float; CNum 1%float]).
    reflexivity.
  - apply (heating_iff_fewer_than_half
             [CNum 0%float; CNum 0%float; CNum 1%float]).
    vm_compute. lia.
Defined.

(** *** The cleaned quantities *)

Lemma mapM_lookup {A B : Type} (f : A -> err B) (l : list A) (ys : list B) :
  mapM f l = Ok ys ->
  length ys = length l /\
  forall i x, l !! i = Some x -> exists y, f x = Ok y /\ ys !! i = Some y.
Proof.
  revert ys. induction l as [|x l IH]; intros ys H; simpl in H.
  - injection H as <-. split; [reflexivity|]. intros i x Hx. discriminate.
  - destruct (f x) as [y|e] eqn:Hy; [|discriminate]. simpl in H.
    destruct (mapM f l) as [ys'|e]; [|discriminate]. injection H as <-.
    destruct (IH ys' eq_refl) as [Hlen Hpt]. split; [simpl; congruence|].
    intros [|i] z Hz; simpl in *; [injection Hz as <-; eauto|auto].
Qed.

Lemma mask_fill_length {A : Type} (a : list A) (mask : list bool) (v : A) :
  length (mask_fill a mask v) = length a.
Proof.
  revert mask. induction a as [|x a IH]; intros [|b mask]; simpl; auto.
Qed.

Lemma mask_fill_lookup {A : Type} (a : list A) (mask : list bool) (v : A)
    (i : nat) (x : A) (b : bool) :
  a !! i = Some x -> mask !! i = Some b ->
  mask_fill a mask v !! i = Some (if b then v else x).
Proof.
  revert mask i. induction a as [|y a IH]; intros [|c mask] [|i] Hx Hb;
    simpl in *; try discriminate.
  - injection Hx as <-. injection Hb as <-. reflexivity.
  - apply IH; assumption.
Qed.

Section Cleaned.

Context `{Ext : Externals}.

(** Lines 281-283, sample by sample. *)
Lemma clean_frequency_lookup (col : list cell) (f : list float) :
  clean_frequency col = Ok f ->
  length f = length col /\
  forall i c, col !! i = Some c ->
    exists x, astype_float (if is_underrange c then CNum 0%float else c) = Ok x /\
              f !! i = Some (x / 2)%float.
Proof.
  unfold clean_frequency. intros H.
  destruct (mapM astype_float
              (map (fun c => if is_underrange c then CNum 0%float else c) col))
    as [f'|e] eqn:E; [|discriminate].
  injection H as <-.
  destruct (mapM_lookup _ _ _ E) as [Hlen Hpt].
  rewrite length_map in *. split; [exact Hlen|].
  intros i c Hc.
  destruct (Hpt i (if is_underrange c then CNum 0%float else c)) as (x & Hx & Hi).
  { rewrite list_lookup_fmap, Hc. reflexivity. }
  exists x. split; [exact Hx|]. rewrite list_lookup_fmap, Hi. reflexivity.
Qed.

(** C10. After the cleaning step of [_build_quantities] (lines 280-299)
    returned: the frequency [f] it computed is the raw frequency column with
    every ['UnderRange'] replaced by 0, converted to numbers and halved; when
    ['f'] was asked for, that is the magnitude stored under ['f']; when
    ['flowrt_r'] was asked for, the magnitude stored under ['flowrt_r'] is
    the raw flow column with a 0 at every sample where [f] is zero and the
    raw reading at every other sample. *)
Theorem cleaned_quantities (raw : frame) (to_clean : gset string)
    (s s' : DataTaker) :
  to_clean <> ∅ ->
  build_to_clean raw to_clean s = (Ok tt, s') ->
  exists (conv_f : conversion) (col_f : list cell) (f : list float),
    _name_converter s !! "f" = Some conv_f /\
    column raw (col_names conv_f) = Ok col_f /\
    length f = length col_f /\
    (forall i c, col_f !! i = Some c ->
       exists x,
         astype_float (if is_underrange c then CNum 0%float else c) = Ok x /\
         f !! i = Some (x / 2)%float) /\
    ("f" ∈ to_clean ->
     exists q, quantities s' !! "f" = Some q /\ magnitude q = CNum <$> f) /\
    ("flowrt_r" ∈ to_clean ->
     exists (conv : conversion) (col : list cell) (q : Quantity),
       _name_converter s !! "flowrt_r" = Some conv /\
       column raw (col_names conv) = Ok col /\
       quantities s' !! "flowrt_r" = Some q /\
       length (magnitude q) = length col /\
       forall i r x, col !! i = Some r -> f !! i = Some x ->
         magnitude q !! i
         = Some (if PrimFloat.eqb x 0 then CNum 0%float else r)).
Proof.
  intros Hne H. unfold build_to_clean in H.
  destruct (decide (to_clean = ∅)) as [|_]; [contradiction|].
  apply bindM_ok_inv in H as (nconv & s1 & [= <- <-] & H).
  apply bindM_ok_inv in H as (conv_f & s1 & [= Hconv <-] & H).
  apply bindM_ok_inv in H as (col_f & s1 & [= Hcol <-] & H).
  apply bindM_ok_inv in H as (f & s1 & [= Hf <-] & H).
  apply bindM_ok_inv in H as ([] & s1 & Hstore_f & H).
  unfold loc in Hconv.
  destruct (_name_converter s !! "f") as [c|] eqn:Ec; [|discriminate].
  injection Hconv as ->.
  destruct (clean_frequency_lookup _ _ Hf) as [Hlen Hpt].
  exists conv_f, col_f, f. split; [reflexivity|].
  repeat (split; [assumption|]).
  assert (_name_converter s1 = _name_converter s /\
          ("f" ∈ to_clean ->
           exists q, quantities s1 !! "f" = Some q /\ magnitude q = CNum <$> f))
    as [Hn1 Hq1].
  { destruct (decide ("f" ∈ to_clean)).
    - injection Hstore_f as <-. split; [reflexivity|]. intros _.
      eexists. split; [apply lookup_insert_eq|reflexivity].
    - injection Hstore_f as <-. split; [reflexivity|]. contradiction. }
  destruct (decide ("flowrt_r" ∈ to_clean)) as [Hin|Hout].
  - apply bindM_ok_inv in H as (conv & s2 & [= Hconv <-] & H).
    apply bindM_ok_inv in H as (col & s2 & [= Hcolr <-] & H).
    injection H as <-. split.
    + intros Hfin. destruct (Hq1 Hfin) as (q & Hq & Hm).
      exists q. split; [|exact Hm]. simpl.
      rewrite lookup_insert_ne by discriminate. exact Hq.
    + intros _. unfold loc in Hconv.
      destruct (_name_converter s !! "flowrt_r") as [c|] eqn:Er; [|discriminate].
      injection Hconv as ->.
      eexists conv, col, _. split; [reflexivity|]. split; [exact Hcolr|].
      split; [apply lookup_insert_eq|]. simpl.
      split; [apply mask_fill_length|].
      intros i r x Hr Hx.
      apply (mask_fill_lookup _ _ _ _ _ (PrimFloat.eqb x 0) Hr).
      rewrite list_lookup_fmap, Hx. reflexivity.
  - injection H as <-. split; [exact Hq1|]. contradiction.
Qed.

End Cleaned.

(** The theorem at work on the demonstration table, whose second frequency
    reading is ['UnderRange']: the cleaned frequency is 0 there, and so is
    the flow, whose raw reading is 2. *)
Lemma cleaned_quantities_witness :
  exists q_f q_r,
    quantities (build_to_clean Demo.table to_clean_names Demo.dtk).2 !! "f"
    = Some q_f /\
    quantities (build_to_clean Demo.table to_clean_names Demo.dtk).2
      !! "flowrt_r" = Some q_r /\
    magnitude q_f !! 1%nat = Some (CNum (0 / 2)%float) /\
    magnitude q_r !! 1%nat = Some (CNum 0%float) /\
    magnitude q_r !! 0%nat = Some (CNum 1%float).
Proof.
  pose (out := build_to_clean Demo.table to_clean_names Demo.dtk).
  assert (out = (Ok tt, out.2)) as Hout by (vm_compute; reflexivity).
  destruct (cleaned_quantities Demo.table to_clean_names Demo.dtk out.2)
    as (conv_f & col_f & f & Hconv & Hcol & Hlen & Hpt & Hf & Hr).
  { intros H. apply (f_equal (fun X => bool_decide ("f" ∈ X))) in H.
    vm_compute in H. discriminate. }
  { exact Hout. }
  assert (conv_f = Demo.conversion_of "Freq" "Hz") as ->.
  { vm_compute in Hconv. injection Hconv as <-. reflexivity. }
  assert (col_f = [CNum 100; CStr "UnderRange"; CNum 90]%float) as ->.
  { vm_compute in Hcol. injection Hcol as <-. reflexivity. }
  destruct (Hpt 0%nat _ eq_refl) as (x0 & Hx0 & Hf0).
  destruct (Hpt 1%nat _ eq_refl) as (x1 & Hx1 & Hf1).
  injection Hx0 as <-. injection Hx1 as <-.
  destruct Hf as (q_f & Hqf & Hmf); [unfold to_clean_names; set_solver|].
  destruct Hr as (conv & col & q_r & Hconv_r & Hcol_r & Hqr & _ & Hptr);
    [unfold to_clean_names; set_solver|].
  assert (conv = Demo.conversion_of "Flow" "kg/s") as ->.
  { vm_compute in Hconv_r. injection Hconv_r as <-. reflexivity. }
  assert (col = CNum <$> [1; 2; 3]%float) as ->.
  { vm_compute in Hcol_r. injection Hcol_r as <-. reflexivity. }
  exists q_f, q_r. split; [exact Hqf|]. split; [exact Hqr|]. split; [|split].
  - rewrite Hmf, list_lookup_fmap, Hf1. reflexivity.
  - rewrite (Hptr 1%nat (CNum 2%float) _ eq_refl Hf1). reflexivity.
  - rewrite (Hptr 0%nat (CNum 1%float) _ eq_refl Hf0). reflexivity.
Defined.

(** *** Thresholds the binner refuses *)

Section Limits.

Context `{Ext : Externals}.

Lemma frame_steady_state_steps_number (depth : nat)
    (u : Segmenter.uninitialised) (sd_limit : float) :
  sound always frame_rel (steady_state_steps_number depth u sd_limit).
Proof.
  unfold steady_state_steps_number.
  apply sound_bind; try frame_side; [apply frame_get|intros r].
  apply sound_bind; try frame_side; [apply sound_lift; frame_side|intros f].
  apply sound_lift; frame_side.
Qed.


End Limits.



(** *** The store and its history *)

Lemma replay_app (l l' : list event) (names : gset string) :
  replay (l ++ l') names = replay l' (replay l names).
Proof. unfold replay. apply foldl_app. Qed.

Lemma replay_stored (events : list event) (names : gset string)
    (name : string) :
  name ∈ replay events names -> name ∈ names \/ EStore name ∈ events.
Proof.
  revert names. induction events as [|e events IH]; intros names H.
  - left. exact H.
  - change (name ∈ replay events (replay [e] names)) in H.
    destruct (IH _ H) as [Hin|Hin]; [|right; right; exact Hin].
    destruct e as [|stored]; simpl in Hin; [set_solver|].
    apply elem_of_union in Hin as [->%elem_of_singleton|Hin];
      [right; left|left; exact Hin].
Qed.

Lemma history_refl (s : DataTaker) : history_rel s s.
Proof. exists []. rewrite app_nil_r. split; reflexivity. Qed.

Lemma history_trans (s1 s2 s3 : DataTaker) :
  history_rel s1 s2 -> history_rel s2 s3 -> history_rel s1 s3.
Proof.
  intros (e & He & Hd) (e' & He' & Hd').
  exists (e ++ e'). rewrite He', He, app_assoc, replay_app, <- Hd, <- Hd'.
  split; reflexivity.
Qed.

Lemma always_history (s s' : DataTaker) :
  always s -> history_rel s s' -> always s'.
Proof. intros _ _. exact I. Qed.

Ltac history_side :=
  first [exact history_refl | exact history_trans | exact always_history].

Section History.

Context `{Ext : Externals}.

Lemma history_store (name : string) (q : Quantity) :
  sound always history_rel (store name q).
Proof.
  apply sound_modify. intros s _. exists [EStore name]. split; [reflexivity|].
  simpl. apply dom_insert_L.
Qed.

Lemma history_clear : sound always history_rel clear.
Proof.
  apply sound_modify. intros s _. exists [EClear]. split; [reflexivity|].
  simpl. apply dom_empty_L.
Qed.

Lemma history_set_groups (kwargs : gmap string filter_value) :
  sound always history_rel (modify (set_groups kwargs)).
Proof.
  apply sound_modify. intros s _. exists []. simpl.
  rewrite app_nil_r. split; reflexivity.
Qed.

Lemma history_get (depth : nat) (variables : string) (update : bool)
    (kwargs : gmap string filter_value) :
  sound always history_rel (get depth variables update kwargs).
Proof.
  revert variables update kwargs.
  induction depth as [|d IH]; intros variables update kwargs; simpl.
  { apply sound_raise. history_side. }
  assert (forall quantities,
            sound always history_rel
              (_build_quantities (fun v k => get d v false k) quantities
                 kwargs)) as Hbuild.
  { intros quantities.
    apply (sound_build always history_rel history_refl history_trans
             always_history _ kwargs (fun _ => True)); auto.
    intros name q _. apply history_store. }
  unfold get_with.
  apply sound_bind;
    [history_side|history_side|sound_step history_side|intros groups].
  apply sound_bind; [history_side|history_side| |intros _].
  { destruct (update || negb (bool_decide (groups = kwargs))).
    - apply sound_bind;
        [history_side|history_side|apply history_clear|intros _].
      apply Hbuild.
    - apply sound_bind;
        [history_side|history_side|sound_step history_side|intros ?].
      apply Hbuild. }
  apply sound_bind;
    [history_side|history_side|apply history_set_groups|intros _].
  apply sound_answer; history_side.
Qed.

(** What the store holds after [get], whether it returned or raised, is what
    its history tells: the names written since it was last emptied, and the
    names it held before if it was not. *)
Theorem get_store_history (depth : nat) (variables : string) (update : bool)
    (kwargs : gmap string filter_value) (s : DataTaker) :
  exists events,
    trace (get depth variables update kwargs s).2 = trace s ++ events /\
    dom (quantities (get depth variables update kwargs s).2)
    = replay events (dom (quantities s)).
Proof.
  destruct (get depth variables update kwargs s) as [r s'] eqn:E.
  exact (history_get depth variables update kwargs s r s' I E).
Qed.

(** After a [get] that empties the store, the store holds nothing but what
    this call has derived. *)
Theorem get_discards_cached (depth : nat) (variables : string) (update : bool)
    (kwargs : gmap string filter_value) (s : DataTaker) :
  update = true \/ _groups s <> kwargs ->
  exists events,
    trace (get (S depth) variables update kwargs s).2
    = trace s ++ EClear :: events /\
    forall name,
      name ∈ dom (quantities (get (S depth) variables update kwargs s).2) ->
      EStore name ∈ events.
Proof.
  intros Hcond.
  assert (update || negb (bool_decide (_groups s = kwargs)) = true) as Hc.
  { destruct Hcond as [->|Hne]; [reflexivity|].
    rewrite bool_decide_eq_false_2 by exact Hne. apply orb_true_r. }
  destruct (get (S depth) variables update kwargs s) as [r s'] eqn:H.
  simpl in H. unfold get_with in H. cbv zeta in H.
  rewrite bindM_gets, Hc, bindM_assoc in H. unfold clear in H.
  rewrite bindM_modify in H.
  set (s0 := set_quantities ∅ [EClear] s) in H.
  assert (sound always history_rel
            (bindM (_build_quantities (fun v k => get depth v false k)
                      (list_to_set (requested variables)) kwargs)
               (fun _ => bindM (modify (set_groups kwargs))
                           (fun _ => answer variables)))) as Hsound.
  { apply sound_bind; [history_side|history_side| |intros _].
    - apply (sound_build always history_rel history_refl history_trans
               always_history _ kwargs (fun _ => True)); auto.
      + intros v. apply history_get.
      + intros name q _. apply history_store.
    - apply sound_bind;
        [history_side|history_side|apply history_set_groups|intros _].
      apply sound_answer; history_side. }
  destruct (Hsound _ _ _ I H) as (events & He & Hd).
  exists events. simpl. split.
  { rewrite He. subst s0. simpl. rewrite <- app_assoc. reflexivity. }
  intros name Hin. rewrite Hd in Hin.
  apply replay_stored in Hin as [Hin|Hin]; [|exact Hin].
  subst s0. simpl in Hin. rewrite dom_empty_L in Hin. set_solver.
Qed.

End History.

(** On a [DataTaker] that holds ['f'], under a new filter. *)
Lemma get_discards_cached_witness :
  exists events,
    trace (get 2 "T1" false Demo.first_file Demo.warmed).2
    = trace Demo.warmed ++ EClear :: events /\
    forall name,
      name ∈ dom (quantities
                    (get 2 "T1" false Demo.first_file Demo.warmed).2) ->
      EStore name ∈ events.
Proof.
  apply (get_discards_cached 1 "T1" false Demo.first_file Demo.warmed).
  right. vm_compute. discriminate.
Defined.


(** *** Two levels of calls are all the rules need *)

Lemma bindM_ext {A B : Type} (m1 m2 : M A) (k1 k2 : A -> M B) (s : DataTaker) :
  m1 s = m2 s -> (forall a s', k1 a s' = k2 a s') ->
  bindM m1 k1 s = bindM m2 k2 s.
Proof.
  intros Hm Hk. unfold bindM. rewrite Hm.
  destruct (m2 s) as [[a|e] s1]; [apply Hk|reflexivity].
Qed.

Lemma for_each_ext {A : Type} (l : list A) (b1 b2 : A -> M unit)
    (s : DataTaker) :
  (forall x s', x ∈ l -> b1 x s' = b2 x s') ->
  for_each l b1 s = for_each l b2 s.
Proof.
  revert s. induction l as [|x l IH]; intros s H; [reflexivity|].
  simpl. apply bindM_ext; [apply H; left|].
  intros _ s'. apply IH. intros y s'' Hy. apply H. right. exact Hy.
Qed.

Lemma bindM_lift_ext {A B : Type} (r : err A) (k1 k2 : A -> M B)
    (s : DataTaker) :
  (forall a, r = Ok a -> k1 a s = k2 a s) ->
  bindM (lift r) k1 s = bindM (lift r) k2 s.
Proof.
  intros H. unfold bindM, lift. destruct r as [a|e]; [apply H|]; reflexivity.
Qed.

Section Depth.

Context `{Ext : Externals}.

Lemma ref_states_leaf (heating : bool) (quantity states : string) :
  ref_states heating quantity = Ok states ->
  leaf ("flowrt_r " ++ states) = true.
Proof.
  unfold ref_states. destruct heating; simpl;
    repeat match goal with
           | |- context [if ?c then _ else _] => destruct c
           end;
    intros [= <-]; vm_compute; reflexivity.
Qed.

Lemma pressure_side_leaf (heating : bool) (state : Z) (pstate : string) :
  pressure_side heating state = Ok pstate ->
  leaf ("p" ++ pstate ++ " T" ++ PyStr.str state) = true.
Proof.
  intros H.
  assert (1 <= state <= 9) as Hstate.
  { unfold pressure_side, member in H. simpl in H.
    destruct heating; simpl in H;
      repeat match type of H with
             | context [Z.eqb ?a ?b] => destruct (Z.eqb_spec a b); simpl in H
             | context [Z.leb ?a ?b] => destruct (Z.leb_spec a b); simpl in H
             | context [Z.ltb ?a ?b] => destruct (Z.ltb_spec a b); simpl in H
             end; try discriminate; lia. }
  assert (state = 1 \/ state = 2 \/ state = 3 \/ state = 4 \/ state = 5 \/
          state = 6 \/ state = 7 \/ state = 8 \/ state = 9) as Hcases by lia.
  destruct heating;
    repeat (destruct Hcases as [->|Hcases]);
    try subst state;
    vm_compute in H; injection H as <-; vm_compute; reflexivity.
Qed.

Section Agree.

Variables g1 g2 : string -> gmap string filter_value -> M result.
Variable kwargs : gmap string filter_value.
Hypothesis agree :
  forall v s, leaf v = true -> g1 v kwargs s = g2 v kwargs s.

Lemma agree_hum_ratio (w : string) (s : DataTaker) :
  w ∈ hum_ratio_names ->
  build_hum_ratio g1 kwargs w s = build_hum_ratio g2 kwargs w s.
Proof.
  intros Hw. unfold build_hum_ratio.
  assert (w = "ws" \/ w = "wr") as [->| ->]
    by (unfold hum_ratio_names in Hw; set_solver).
  - apply bindM_ext; [apply agree; vm_compute; reflexivity|intros rT s1].
    apply bindM_ext; [reflexivity|intros T s2].
    apply bindM_ext; [apply agree; vm_compute; reflexivity|reflexivity].
  - apply bindM_ext; [apply agree; vm_compute; reflexivity|intros rT s1].
    apply bindM_ext; [reflexivity|intros T s2].
    apply bindM_ext; [apply agree; vm_compute; reflexivity|reflexivity].
Qed.

Lemma agree_dependent (heating : bool) (quantity : string) (s : DataTaker) :
  build_dependent g1 kwargs heating quantity s
  = build_dependent g2 kwargs heating quantity s.
Proof.
  unfold build_dependent. apply bindM_lift_ext. intros states E.
  apply bindM_ext; [|reflexivity].
  apply agree. exact (ref_states_leaf _ _ _ E).
Qed.

Lemma agree_Pel (s : DataTaker) :
  build_Pel g1 kwargs s = build_Pel g2 kwargs s.
Proof.
  unfold build_Pel. apply bindM_ext; [|reflexivity].
  apply agree. vm_compute. reflexivity.
Qed.

Lemma agree_enthalpy (heating : bool) (enthalpy : string) (s : DataTaker) :
  build_enthalpy g1 kwargs heating enthalpy s
  = build_enthalpy g2 kwargs heating enthalpy s.
Proof.
  unfold build_enthalpy. apply bindM_ext; [reflexivity|intros state s1].
  apply bindM_lift_ext. intros pstate E.
  apply bindM_ext; [|reflexivity].
  apply agree. exact (pressure_side_leaf _ _ _ E).
Qed.

(** [_build_quantities] calls [get] on leaves only. *)
Lemma agree_build (quantities : gset string) (s : DataTaker) :
  _build_quantities g1 quantities kwargs s
  = _build_quantities g2 quantities kwargs s.
Proof.
  unfold _build_quantities. cbv zeta.
  apply bindM_ext; [reflexivity|intros self_raw s1].
  apply bindM_ext; [reflexivity|intros raw s2].
  apply bindM_ext.
  { destruct (decide _); [reflexivity|].
    apply bindM_ext; [|reflexivity]. apply agree. vm_compute. reflexivity. }
  intros heating s3. apply bindM_ext.
  { apply for_each_ext. intros w s' Hw. apply agree_hum_ratio.
    apply elem_of_set_order in Hw. set_solver. }
  intros _ s4. apply bindM_ext; [reflexivity|intros _ s5].
  apply bindM_ext.
  { apply for_each_ext. intros w s' Hw. apply agree_dependent. }
  intros _ s6. apply bindM_ext.
  { destruct (decide _); [apply agree_Pel|reflexivity]. }
  intros _ s7. apply bindM_ext; [reflexivity|intros _ s8].
  apply bindM_ext; [reflexivity|intros _ s9].
  apply for_each_ext. intros w s' Hw. apply agree_enthalpy.
Qed.

End Agree.

(** Asked for leaves only, [_build_quantities] makes no call of [get]. *)
Lemma build_leaf (g1 g2 : string -> gmap string filter_value -> M result)
    (quantities : gset string) (kwargs : gmap string filter_value)
    (s : DataTaker) :
  (forall name, name ∈ quantities -> name ∉ calling_names) ->
  _build_quantities g1 quantities kwargs s
  = _build_quantities g2 quantities kwargs s.
Proof.
  intros Hleaf. unfold _build_quantities. cbv zeta.
  assert (quantities ∩ hum_ratio_names = ∅) as ->.
  { unfold calling_names in Hleaf. set_solver. }
  assert (quantities ∩ enthalpy_names = ∅) as ->.
  { unfold calling_names in Hleaf. set_solver. }
  assert ((quantities ∩ dependent_names) ∖ own_rule = ∅) as ->.
  { apply set_eq. intros name. split; [|set_solver].
    intros [[Hin Hdep]%elem_of_intersection Hown]%elem_of_difference.
    exfalso. apply (Hleaf name Hin). unfold calling_names.
    apply elem_of_union_l, elem_of_union_r, elem_of_difference.
    split; [exact Hdep|]. unfold own_rule in Hown. set_solver. }
  rewrite set_order_empty.
  destruct (decide ((∅ : gset string) = ∅ ∧ (∅ : gset string) = ∅))
    as [_|Hne]; [|exfalso; apply Hne; auto].
  destruct (decide ("Pel" ∈ quantities ∩ dependent_names)) as [Hin|_];
    [|reflexivity].
  exfalso. apply elem_of_intersection in Hin as [Hin _].
  apply (Hleaf "Pel" Hin). vm_compute. set_solver.
Qed.

Lemma leaf_requested (variables name : string) :
  leaf variables = true -> name ∈ requested variables ->
  name ∉ calling_names.
Proof.
  unfold leaf. rewrite forallb_forall. intros H Hin.
  apply list_elem_of_In, H, negb_true_iff, bool_decide_eq_false in Hin.
  exact Hin.
Qed.

Lemma get_with_ext
    (b1 b2 : gset string -> gmap string filter_value -> M unit)
    (variables : string) (update : bool) (kwargs : gmap string filter_value)
    (s : DataTaker) :
  (forall quantities s',
     quantities ⊆ list_to_set (requested variables) ->
     b1 quantities kwargs s' = b2 quantities kwargs s') ->
  get_with b1 variables update kwargs s = get_with b2 variables update kwargs s.
Proof.
  intros H. unfold get_with. cbv zeta.
  apply bindM_ext; [reflexivity|intros groups s1].
  apply bindM_ext; [|reflexivity].
  destruct (update || negb (bool_decide (groups = kwargs))).
  - apply bindM_ext; [reflexivity|intros _ s2]. apply H. reflexivity.
  - apply bindM_ext; [reflexivity|intros cached s2]. apply H. set_solver.
Qed.

Lemma get_leaf (depth : nat) (variables : string) (update : bool)
    (kwargs : gmap string filter_value) (s : DataTaker) :
  leaf variables = true ->
  get (S depth) variables update kwargs s = get 1 variables update kwargs s.
Proof.
  intros Hleaf. simpl. apply get_with_ext. intros quantities s' Hsub.
  apply build_leaf. intros name Hin.
  apply (leaf_requested variables); [exact Hleaf|].
  apply Hsub, elem_of_list_to_set in Hin. exact Hin.
Qed.

(** A nesting of two calls is all [get] ever needs: a larger bound on the
    depth of the calls changes nothing. *)
Theorem get_depth_two (depth : nat) (variables : string) (update : bool)
    (kwargs : gmap string filter_value) (s : DataTaker) :
  get (S (S depth)) variables update kwargs s
  = get 2 variables update kwargs s.
Proof.
  change (get_with (_build_quantities (fun v k => get (S depth) v false k))
            variables update kwargs s
          = get_with (_build_quantities (fun v k => get 1 v false k))
              variables update kwargs s).
  apply get_with_ext. intros quantities s' _.
  apply agree_build. intros v s'' Hleaf. apply get_leaf. exact Hleaf.
Qed.

End Depth.

End StoreFacts.

(** ** Words and units *)

Module WordFacts.

Import Names.

Local Open Scope list_scope.

Lemma append_cons (c : ascii) (a b : string) :
  String c a +:+ b = String c (a +:+ b).
Proof. reflexivity. Qed.

Lemma append_nil (a : string) : a +:+ "" = a.
Proof.
  induction a as [|x a IH]; [reflexivity|]. rewrite append_cons, IH.
  reflexivity.
Qed.

Lemma append_assoc (a b c : string) : (a +:+ b) +:+ c = a +:+ (b +:+ c).
Proof.
  induction a as [|x a IH]; [reflexivity|]. rewrite !append_cons, IH.
  reflexivity.
Qed.

Lemma all_chars_app (p : ascii -> bool) (a b : string) :
  all_chars p (a +:+ b) = all_chars p a && all_chars p b.
Proof.
  induction a as [|c a IH]; [reflexivity|].
  rewrite append_cons. simpl. rewrite IH, andb_assoc. reflexivity.
Qed.

Lemma split_from_word (acc w : string) :
  no_space w = true -> PyStr.split_from (Some acc) w = [acc +:+ w].
Proof.
  revert acc. induction w as [|c w IH]; intros acc H; simpl.
  - rewrite append_nil. reflexivity.
  - unfold no_space in H. simpl in H. apply andb_true_iff in H as [Hc Hw].
    apply negb_true_iff in Hc. rewrite Hc, IH by exact Hw.
    rewrite append_assoc. reflexivity.
Qed.

Lemma split_word (w : string) : is_word w = true -> PyStr.split w = [w].
Proof.
  unfold is_word. intros [Hne Hw]%andb_true_iff.
  destruct w as [|c w]; [discriminate|].
  unfold PyStr.split. unfold no_space in Hw. simpl in Hw.
  apply andb_true_iff in Hw as [Hc Hw]. apply negb_true_iff in Hc.
  simpl. rewrite Hc. apply (split_from_word (String c "") w Hw).
Qed.

Lemma split_slash_none (v : string) :
  no_slash v = true -> PyStr.split_slash v = None.
Proof.
  induction v as [|c v IH]; intros H; simpl; [reflexivity|].
  unfold no_slash in H. simpl in H. apply andb_true_iff in H as [Hc Hv].
  apply negb_true_iff in Hc. rewrite Hc, IH by exact Hv. reflexivity.
Qed.

Lemma split_slash_app (name unit : string) :
  no_slash name = true ->
  PyStr.split_slash (name +:+ "/" +:+ unit) = Some (name, unit).
Proof.
  induction name as [|c name IH]; intros H; [reflexivity|].
  rewrite append_cons. simpl.
  unfold no_slash in H. simpl in H. apply andb_true_iff in H as [Hc Hv].
  apply negb_true_iff in Hc. rewrite Hc, IH by exact Hv. reflexivity.
Qed.

End WordFacts.

(** ** [get]: errors, units and what a failure leaves behind *)

Module GetFacts.

Import Store Effects Names StoreFacts WordFacts.

Local Open Scope list_scope.

#[local] Set Warnings "-clear-no-such-hyp".

(** *** Running a method step by step *)

Lemma bindM_ret {A B : Type} (a : A) (k : A -> M B) (s : DataTaker) :
  bindM (ret a) k s = k a s.
Proof. reflexivity. Qed.

Lemma bindM_lift_ok {A B : Type} (a : A) (k : A -> M B) (s : DataTaker) :
  bindM (lift (Ok a)) k s = k a s.
Proof. reflexivity. Qed.

Lemma bindM_run {A B : Type} (m : M A) (k : A -> M B) (s s' : DataTaker)
    (a : A) :
  m s = (Ok a, s') -> bindM m k s = k a s'.
Proof. intros H. unfold bindM. rewrite H. reflexivity. Qed.

Lemma bindM_run_raise {A B : Type} (m : M A) (k : A -> M B)
    (s s' : DataTaker) (e : exn) :
  m s = (Raise e, s') -> bindM m k s = (Raise e, s').
Proof. intros H. unfold bindM. rewrite H. reflexivity. Qed.

(** Decides an equation between two closed sets of names. *)
Ltac by_compute :=
  match goal with
  | |- ?P => apply (bool_decide_unpack P); vm_compute; exact I
  end.

Tactic Notation "inv_bind" hyp(H) "as" ident(a) ident(s) ident(H1) :=
  apply bindM_ok_inv in H as (a & s & H1 & H).

Section Basics.

Context `{Ext : Externals}.

Lemma set_order_singleton (x : string) : set_order {[x]} = [x].
Proof.
  apply Permutation_singleton_r. rewrite (set_order_perm {[x]}), elements_singleton.
  reflexivity.
Qed.

Lemma consume_state (r : result) (s s' : DataTaker) (res : err (list Quantity)) :
  consume r s = (res, s') -> s' = s.
Proof.
  destruct r as [q|names units]; simpl; [intros [= _ <-]; reflexivity|].
  apply (values_state (Generator names units)).
Qed.

Lemma get_ok_groups (depth : nat) (variables : string) (update : bool)
    (kwargs : gmap string filter_value) (s s' : DataTaker) (r : result) :
  get depth variables update kwargs s = (Ok r, s') -> _groups s' = kwargs.
Proof.
  destruct depth as [|d]; [discriminate|]. simpl. unfold get_with. cbv zeta.
  intros H. inv_bind H as groups s1 H1. inv_bind H as u s2 H2.
  inv_bind H as u' s3 H3.
  apply answer_state in H as ->. injection H3 as _ <-. reflexivity.
Qed.

End Basics.

Section Within.

Context `{Ext : Externals}.

Variable names : gset string.

Lemma within_refl (s : DataTaker) : within names s s.
Proof. unfold within. set_solver. Qed.

Lemma within_trans (s1 s2 s3 : DataTaker) :
  within names s1 s2 -> within names s2 s3 -> within names s1 s3.
Proof. unfold within. set_solver. Qed.

Lemma always_within (s s' : DataTaker) :
  always s -> within names s s' -> always s'.
Proof. intros _ _. exact I. Qed.

Ltac within_side :=
  first [exact within_refl | exact within_trans | exact always_within].

Lemma within_store (name : string) (q : Quantity) :
  name ∈ names -> sound always (within names) (store name q).
Proof.
  intros Hin. apply sound_modify. intros s _. unfold within. simpl.
  rewrite dom_insert_L. set_solver.
Qed.

Lemma within_clear : sound always (within names) clear.
Proof.
  apply sound_modify. intros s _. unfold within. simpl.
  rewrite dom_empty_L. set_solver.
Qed.

Lemma within_set_groups (kwargs : gmap string filter_value) :
  sound always (within names) (modify (set_groups kwargs)).
Proof. apply sound_modify. intros s _. unfold within. simpl. set_solver. Qed.

Lemma within_build_leaf (quantities : gset string)
    (kwargs : gmap string filter_value) :
  quantities ⊆ names ->
  sound always (within names)
        (_build_quantities (fun v k => get 0 v false k) quantities kwargs).
Proof.
  intros Hsub.
  apply (sound_build always (within names) within_refl within_trans
           always_within _ kwargs (fun name => name ∈ names)).
  - intros v. simpl. apply sound_raise. within_side.
  - intros name q. apply within_store.
  - intros name Hin. apply Hsub, Hin.
Qed.

End Within.

Ltac within_side A :=
  first [exact (within_refl A) | exact (within_trans A)
        | exact (always_within A)].

Section Leaves.

Context `{Ext : Externals}.

(** Under a filter that is not the active one, a call for names that are
    read as is or cleaned leaves nothing in the store but these names. *)
Lemma get_leaf_changed (depth : nat) (variables : string)
    (kwargs : gmap string filter_value) (s s' : DataTaker) (r : err result) :
  leaf variables = true -> _groups s <> kwargs ->
  get (S depth) variables false kwargs s = (r, s') ->
  dom (quantities s') ⊆ list_to_set (requested variables).
Proof.
  intros Hleaf Hne H. rewrite get_leaf in H by exact Hleaf.
  simpl in H. unfold get_with in H. cbv zeta in H.
  rewrite bindM_gets, bool_decide_eq_false_2 in H by exact Hne.
  cbn [negb orb] in H. rewrite bindM_assoc in H. unfold clear in H.
  rewrite bindM_modify in H.
  set (A := list_to_set (requested variables) : gset string) in *.
  assert (sound always (within A)
            (bindM (_build_quantities (fun v k => get 0 v false k) A kwargs)
               (fun _ => bindM (modify (set_groups kwargs))
                           (fun _ => answer variables)))) as Hsound.
  { apply sound_bind; [within_side A|within_side A| |intros _].
    - apply within_build_leaf. reflexivity.
    - apply sound_bind;
        [within_side A|within_side A|apply within_set_groups|intros _].
      apply sound_answer; within_side A. }
  pose proof (Hsound _ _ _ I H) as Hw. unfold within in Hw. simpl in Hw.
  rewrite dom_empty_L in Hw. set_solver.
Qed.

End Leaves.

Lemma get_S `{Ext : Externals} (depth : nat) (variables : string)
    (update : bool) (kwargs : gmap string filter_value) :
  get (S depth) variables update kwargs
  = get_with (_build_quantities (fun v k => get depth v false k))
             variables update kwargs.
Proof. reflexivity. Qed.

Section Mixed.

Context `{Ext : Externals}.

Lemma groups_build_to_clean (raw : frame) (to_clean : gset string) :
  sound always (fun s s' => _groups s' = _groups s)
        (build_to_clean raw to_clean).
Proof.
  apply (sound_build_to_clean always (fun s s' => _groups s' = _groups s))
    with (allowed := fun _ => True); try (intros; congruence); auto.
  intros name q _. apply sound_modify. reflexivity.
Qed.

Theorem nested_get_empties_store (depth : nat)
    (kwargs : gmap string filter_value) (s s' : DataTaker) (r : result) :
  _groups s <> kwargs ->
  get (S (S depth)) "f Pel" false kwargs s = (Ok r, s') ->
  quantities s' !! "f" = None /\
  (values r s').1 = Raise (KeyError "f").
Proof.
  intros Hne H.
  assert (requested "f Pel" = ["f"; "Pel"]) as Hreq
    by (vm_compute; reflexivity).
  rewrite get_S in H. unfold get_with in H. cbv zeta in H.
  rewrite bindM_gets, bool_decide_eq_false_2 in H by exact Hne.
  cbn [negb orb] in H. rewrite bindM_assoc in H. unfold clear in H.
  rewrite bindM_modify in H.
  set (s0 := set_quantities ∅ [EClear] s) in H.
  inv_bind H as u s1 Hbuild. inv_bind H as u' s1' Hg. injection Hg as _ <-.
  unfold answer in H. rewrite Hreq in H. cbn in H. injection H as <- <-.
  rename Hbuild into H. rewrite Hreq in H.
  unfold _build_quantities in H. cbv zeta in H.
  assert (list_to_set ["f"; "Pel"] ∩ hum_ratio_names = (∅ : gset string))
    as Hhum by by_compute.
  assert (list_to_set ["f"; "Pel"] ∩ to_clean_names = ({["f"]} : gset string))
    as Hclean by by_compute.
  assert (list_to_set ["f"; "Pel"] ∩ dependent_names = ({["Pel"]} : gset string))
    as Hdep by by_compute.
  assert (list_to_set ["f"; "Pel"] ∩ enthalpy_names = (∅ : gset string))
    as Henth by by_compute.
  rewrite Hhum, Hclean, Hdep, Henth in H.
  assert (({["Pel"]} : gset string) ∖ own_rule = ∅) as Hown by by_compute.
  assert ((list_to_set ["f"; "Pel"] : gset string) ∖ ∅ ∖ {["f"]} ∖ {["Pel"]} ∖ ∅
          = ∅) as Hasis by by_compute.
  rewrite Hown, Hasis, set_order_empty in H.
  inv_bind H as self_raw s2 Hself. injection Hself as <- <-.
  inv_bind H as raw s2 Hraw. injection Hraw as Hraw <-.
  inv_bind H as heating s2 Hheat.
  destruct (decide _) as [_|Hn]; [|exfalso; apply Hn; auto].
  injection Hheat as <- <-.
  inv_bind H as u1 s2 Hhum'. injection Hhum' as _ <-.
  inv_bind H as u2 s2 Hf.
  apply groups_build_to_clean in Hf; [|exact I].
  inv_bind H as u3 s3 Hd. injection Hd as _ <-.
  inv_bind H as u4 s4 HPel.
  destruct (decide ("Pel" ∈ ({["Pel"]} : gset string))) as [_|Hn];
    [|exfalso; apply Hn, elem_of_singleton; reflexivity].
  destruct (decide ("t" ∈ ({["Pel"]} : gset string)))
    as [Hin%elem_of_singleton|_]; [discriminate|].
  cbn [for_each] in H. rewrite !bindM_ret in H. injection H as _ <-.
  unfold build_Pel in HPel.
  inv_bind HPel as r' s5 Hget.
  apply get_leaf_changed in Hget;
    [|vm_compute; reflexivity|rewrite Hf; exact Hne].
  inv_bind HPel as args s6 Hargs. apply consume_state in Hargs as ->.
  destruct args as [|Pa [|Pb [|? ?]]]; try discriminate.
  inv_bind HPel as q s6 Hq. injection Hq as _ <-.
  injection HPel as _ <-.
  assert (quantities (set_groups kwargs
            (set_quantities (<["Pel":=q]> (quantities s5)) [EStore "Pel"] s5))
          !! "f" = None) as Hnone.
  { simpl. rewrite lookup_insert_ne by discriminate.
    apply not_elem_of_dom. intros Hin. apply Hget in Hin.
    revert Hin. vm_compute (requested "Pa Pb").
    rewrite !elem_of_list_to_set, !elem_of_cons, elem_of_nil.
    intros [?|[?|[]]]; discriminate. }
  split; [exact Hnone|].
  unfold values. cbn [collect]. unfold update_units at 1.
  rewrite bindM_assoc, bindM_gets, Hnone. reflexivity.
Qed.

End Mixed.

(** On the demonstration table, under the filter on the first file. *)
Lemma nested_get_empties_store_witness :
  quantities (get 3 "f Pel" false Demo.first_file Demo.dtk).2 !! "f" = None /\
  exists r,
    (get 3 "f Pel" false Demo.first_file Demo.dtk).1 = Ok r /\
    (values r (get 3 "f Pel" false Demo.first_file Demo.dtk).2).1
    = Raise (KeyError "f").
Proof.
  destruct (get 3 "f Pel" false Demo.first_file Demo.dtk) as [[r|e] s'] eqn:E;
    [|vm_compute in E; discriminate].
  destruct (nested_get_empties_store 1 Demo.first_file Demo.dtk s' r)
    as [Hnone Hraise]; [vm_compute; discriminate|exact E|].
  split; [exact Hnone|]. exists r. split; [reflexivity|exact Hraise].
Defined.

Lemma pair_inter_out (a b : string) (X : gset string) :
  a ∉ X -> b ∉ X -> list_to_set [a; b] ∩ X = (∅ : gset string).
Proof. set_solver. Qed.

Lemma pair_inter_in (a b : string) (X : gset string) :
  a ∈ X -> b ∉ X -> list_to_set [a; b] ∩ X = ({[a]} : gset string).
Proof. set_solver. Qed.

Lemma pair_rest (a b : string) :
  a <> b ->
  (list_to_set [a; b] : gset string) ∖ ∅ ∖ {[a]} ∖ ∅ ∖ ∅ = {[b]}.
Proof. set_solver. Qed.

Section Stale.

Context `{Ext : Externals}.

Lemma build_to_clean_f (raw : frame) (s : DataTaker) (conv : conversion)
    (col : list cell) (f : list float) :
  _name_converter s !! "f" = Some conv ->
  column raw (col_names conv) = Ok col ->
  clean_frequency col = Ok f ->
  build_to_clean raw {["f"]} s
  = (Ok tt,
     set_quantities
       (<["f":=Q_ (map CNum f) (conv_units conv) (conv_labels conv)
                  (conv_properties conv)]> (quantities s))
       [EStore "f"] s).
Proof.
  intros Hconv Hcol Hf. unfold build_to_clean.
  destruct (decide (({["f"]} : gset string) = ∅)) as [He|_]; [set_solver|].
  rewrite bindM_gets. unfold loc. rewrite Hconv, bindM_lift_ok.
  rewrite Hcol, bindM_lift_ok, Hf, bindM_lift_ok.
  destruct (decide ("f" ∈ ({["f"]} : gset string))) as [_|Hn];
    [|exfalso; apply Hn, elem_of_singleton; reflexivity].
  destruct (decide ("flowrt_r" ∈ ({["f"]} : gset string)))
    as [Hin%elem_of_singleton|_]; [discriminate|].
  reflexivity.
Qed.

Theorem failed_get_leaves_stale (depth depth' : nat) (x : string)
    (kwargs : gmap string filter_value) (s : DataTaker) (raw : frame)
    (conv : conversion) (col : list cell) (f : list float) :
  _groups s <> kwargs ->
  requested ("f " ++ x) = ["f"; x] ->
  x ∉ special_names ->
  _name_converter s !! x = None ->
  filtered (raw_data s) kwargs = Ok raw ->
  is_ok (filtered (raw_data s) (_groups s)) = true ->
  _name_converter s !! "f" = Some conv ->
  column raw (col_names conv) = Ok col ->
  clean_frequency col = Ok f ->
  let q := Q_ (map CNum f) (conv_units conv) (conv_labels conv)
              (conv_properties conv) in
  exists s',
    get (S depth) ("f " ++ x) false kwargs s = (Raise (KeyError x), s') /\
    _groups s' = _groups s /\
    quantities s' = {["f" := q]} /\
    get (S depth') "f" false (_groups s) s'
    = ((do q' <- Q_to q None; Ok (One q')), s').
Proof.
  intros Hne Hreq Hx Hnone Hraw Hold Hconv Hcol Hf q.
  unfold special_names in Hx. rewrite !not_elem_of_union in Hx.
  destruct Hx as [[[Hx1 Hx2] Hx3] Hx4].
  rewrite get_S. unfold get_with. cbv zeta.
  rewrite bindM_gets, bool_decide_eq_false_2 by exact Hne.
  cbn [negb orb]. rewrite bindM_assoc. unfold clear.
  rewrite bindM_modify. rewrite Hreq.
  unfold _build_quantities. cbv zeta.
  rewrite (pair_inter_out "f" x hum_ratio_names) by (by_compute || exact Hx1).
  rewrite (pair_inter_out "f" x enthalpy_names) by (by_compute || exact Hx4).
  rewrite (pair_inter_out "f" x dependent_names) by (by_compute || exact Hx3).
  rewrite (pair_inter_in "f" x to_clean_names) by (by_compute || exact Hx2).
  assert ("f" <> x) as Hfx.
  { intros <-. apply Hx2. by_compute. }
  rewrite (pair_rest "f" x) by exact Hfx.
  assert ((∅ : gset string) ∖ own_rule = ∅) as -> by set_solver.
  rewrite set_order_empty, set_order_singleton.
  set (s0 := set_quantities ∅ [EClear] s).
  rewrite bindM_assoc, bindM_gets. change (raw_data s0) with (raw_data s).
  rewrite bindM_assoc, Hraw, bindM_lift_ok.
  destruct (decide ((∅ : gset string) = ∅ ∧ (∅ : gset string) = ∅))
    as [_|Hn]; [|exfalso; apply Hn; auto].
  destruct (decide ("Pel" ∈ (∅ : gset string))) as [Hin|_]; [set_solver|].
  destruct (decide ("t" ∈ (∅ : gset string))) as [Hin|_]; [set_solver|].
  rewrite bindM_assoc, bindM_ret. cbn [for_each].
  rewrite bindM_assoc, bindM_ret.
  rewrite !bindM_assoc.
  rewrite (bindM_run _ _ _ _ _ (build_to_clean_f raw s0 conv col f Hconv Hcol Hf)).
  fold q. set (s1 := set_quantities (<["f":=q]> (quantities s0)) [EStore "f"] s0).
  exists s1.
  assert (quantities s1 = {["f" := q]}) as Hq by apply insert_empty.
  split; [|split; [reflexivity|split; [exact Hq|]]].
  { repeat first [rewrite bindM_assoc | rewrite bindM_ret].
    unfold build_as_is. rewrite bindM_assoc, bindM_gets. unfold loc.
    change (_name_converter s1) with (_name_converter s).
    rewrite Hnone. reflexivity. }
  assert (requested "f" = ["f"]) as Hreq1 by (vm_compute; reflexivity).
  rewrite get_S. unfold get_with. cbv zeta.
  rewrite bindM_gets. change (_groups s1) with (_groups s).
  rewrite bool_decide_eq_true_2 by reflexivity. cbn [negb orb].
  rewrite bindM_assoc, bindM_gets, Hreq1, Hq.
  assert ((list_to_set ["f"] : gset string) ∖ dom ({["f" := q]} : gmap string Quantity)
          = ∅) as ->.
  { rewrite dom_singleton_L. set_solver. }
  destruct (filtered (raw_data s) (_groups s)) as [raw'|e] eqn:Hraw';
    [|discriminate].
  rewrite (bindM_run _ _ _ _ _ (build_empty _ (_groups s) s1 raw' Hraw')).
  rewrite bindM_modify, set_groups_id by reflexivity.
  unfold answer. rewrite Hreq1. cbn [length Nat.ltb Nat.leb].
  change (getitem ["f"] 0) with (Ok "f" : err string).
  rewrite bindM_lift_ok. unfold update_units.
  rewrite bindM_assoc, bindM_gets, Hq, lookup_singleton_eq.
  change (spec_units_of "f" !! "f") with (None : option string).
  unfold bindM, lift, ret.
  destruct (Q_to q None); reflexivity.
Qed.

End Stale.

Lemma getitem_nat_inv {A : Type} (l : list A) (k : nat) (x : A) :
  getitem l (Z.of_nat k) = Ok x -> l !! k = Some x.
Proof.
  unfold getitem, norm_index.
  destruct (Z.ltb_spec (Z.of_nat k) 0); [lia|].
  destruct ((0 <=? Z.of_nat k) && (Z.of_nat k <? Z.of_nat (length l)));
    [|discriminate].
  rewrite Nat2Z.id. destruct (l !! k); [congruence|discriminate].
Qed.

Lemma single_inter_out (x : string) (X : gset string) :
  x ∉ X -> list_to_set [x] ∩ X = (∅ : gset string).
Proof. set_solver. Qed.

Lemma single_rest (x : string) :
  (list_to_set [x] : gset string) ∖ ∅ ∖ ∅ ∖ ∅ ∖ ∅ = {[x]}.
Proof. set_solver. Qed.

Section Edge.

Context `{Ext : Externals}.

(** Asked for one name that has no rule and no row in the table of the
    names, [_build_quantities] raises [KeyError] and writes nothing. *)
Lemma build_unknown
    (self_get : string -> gmap string filter_value -> M result) (x : string)
    (kwargs : gmap string filter_value) (s : DataTaker) :
  x ∉ special_names ->
  _name_converter s !! x = None ->
  is_ok (filtered (raw_data s) kwargs) = true ->
  _build_quantities self_get (list_to_set [x]) kwargs s
  = (Raise (KeyError x), s).
Proof.
  intros Hx Hnone Hraw.
  unfold special_names in Hx. rewrite !not_elem_of_union in Hx.
  destruct Hx as [[[Hx1 Hx2] Hx3] Hx4].
  destruct (filtered (raw_data s) kwargs) as [raw|e] eqn:Eraw; [|discriminate].
  unfold _build_quantities. cbv zeta.
  rewrite (single_inter_out x hum_ratio_names) by exact Hx1.
  rewrite (single_inter_out x enthalpy_names) by exact Hx4.
  rewrite (single_inter_out x dependent_names) by exact Hx3.
  rewrite (single_inter_out x to_clean_names) by exact Hx2.
  rewrite single_rest.
  assert ((∅ : gset string) ∖ own_rule = ∅) as -> by set_solver.
  rewrite set_order_empty, set_order_singleton.
  rewrite bindM_gets, Eraw, bindM_lift_ok.
  destruct (decide ((∅ : gset string) = ∅ ∧ (∅ : gset string) = ∅))
    as [_|Hn]; [|exfalso; apply Hn; auto].
  destruct (decide ("Pel" ∈ (∅ : gset string))) as [Hin|_]; [set_solver|].
  destruct (decide ("t" ∈ (∅ : gset string))) as [Hin|_]; [set_solver|].
  unfold build_to_clean.
  destruct (decide ((∅ : gset string) = ∅)) as [_|Hn]; [|congruence].
  cbn [for_each].
  repeat first [rewrite bindM_assoc | rewrite bindM_ret].
  unfold build_as_is. rewrite bindM_assoc, bindM_gets. unfold loc.
  rewrite Hnone. reflexivity.
Qed.

(** A name that is neither derived nor in the table of the names:
    [KeyError], and the active filter stays what it was. *)
Theorem get_unknown_name (depth : nat) (x : string) (update : bool)
    (kwargs : gmap string filter_value) (s : DataTaker) :
  requested x = [x] ->
  x ∉ special_names ->
  _name_converter s !! x = None ->
  is_ok (filtered (raw_data s) kwargs) = true ->
  update = true \/ _groups s <> kwargs \/ x ∉ dom (quantities s) ->
  exists s',
    get (S depth) x update kwargs s = (Raise (KeyError x), s') /\
    _groups s' = _groups s /\
    (quantities s' = quantities s \/ quantities s' = ∅).
Proof.
  intros Hreq Hx Hnone Hraw Hcond.
  rewrite get_S. unfold get_with. cbv zeta. rewrite bindM_gets, Hreq.
  destruct (update || negb (bool_decide (_groups s = kwargs))) eqn:Ec.
  - rewrite bindM_assoc. unfold clear. rewrite bindM_modify.
    eexists. split.
    + apply bindM_run_raise. apply build_unknown; assumption.
    + split; [reflexivity|right; reflexivity].
  - assert (x ∉ dom (quantities s)) as Hout.
    { destruct Hcond as [->|[Hne|Hout]]; [discriminate| |exact Hout].
      rewrite bool_decide_eq_false_2 in Ec by exact Hne.
      rewrite orb_true_r in Ec. discriminate. }
    rewrite bindM_assoc, bindM_gets.
    assert ((list_to_set [x] : gset string) ∖ dom (quantities s)
            = list_to_set [x]) as -> by set_solver.
    exists s. split.
    + apply bindM_run_raise. apply build_unknown; assumption.
    + split; [reflexivity|left; reflexivity].
Qed.

(** No name at all: [quantities[0]] raises [IndexError], after the store
    was emptied if the filter changed, and after the filter was made the
    active one. *)
Theorem get_no_names (depth : nat) (variables : string) (update : bool)
    (kwargs : gmap string filter_value) (s : DataTaker) :
  requested variables = [] ->
  is_ok (filtered (raw_data s) kwargs) = true ->
  exists s',
    get (S depth) variables update kwargs s = (Raise IndexError, s') /\
    _groups s' = kwargs /\
    quantities s'
    = if update || negb (bool_decide (_groups s = kwargs)) then ∅
      else quantities s.
Proof.
  intros Hreq Hraw.
  destruct (filtered (raw_data s) kwargs) as [raw|e] eqn:Eraw; [|discriminate].
  rewrite get_S. unfold get_with. cbv zeta. rewrite bindM_gets, Hreq.
  assert (answer variables = lift (Raise IndexError)) as Hanswer.
  { unfold answer. rewrite Hreq. reflexivity. }
  rewrite Hanswer.
  destruct (update || negb (bool_decide (_groups s = kwargs))).
  - rewrite bindM_assoc. unfold clear. rewrite bindM_modify.
    rewrite list_to_set_nil.
    rewrite (bindM_run _ _ _ _ _
               (build_empty _ kwargs (set_quantities ∅ [EClear] s) raw Eraw)).
    rewrite bindM_modify. eexists. split; [reflexivity|].
    split; reflexivity.
  - rewrite bindM_assoc, bindM_gets.
    assert ((list_to_set [] : gset string) ∖ dom (quantities s) = ∅) as ->
      by set_solver.
    rewrite (bindM_run _ _ _ _ _ (build_empty _ kwargs s raw Eraw)).
    rewrite bindM_modify. eexists. split; [reflexivity|].
    split; reflexivity.
Qed.

End Edge.

Section Units.

Context `{Ext : Externals}.

Lemma answer_one (variables name : string) (unit : option string)
    (s s' : DataTaker) (r : result) :
  requested variables = [name] ->
  spec_units_of variables !! name = unit ->
  answer variables s = (Ok r, s') ->
  exists stored q,
    r = One q /\ quantities s !! name = Some stored /\ Q_to stored unit = Ok q.
Proof.
  intros Hreq Hunit H. unfold answer in H. rewrite Hreq in H.
  cbn [length Nat.ltb Nat.leb] in H.
  change (getitem [name] 0) with (Ok name : err string) in H.
  rewrite bindM_lift_ok in H. unfold update_units in H.
  rewrite bindM_assoc, bindM_gets, Hunit in H.
  destruct (quantities s !! name) as [stored|]; [|discriminate].
  exists stored. unfold bindM, lift, ret in H.
  destruct (Q_to stored unit) as [q|e]; [|discriminate].
  injection H as <- _. eauto.
Qed.

Lemma get_answer (depth : nat) (variables : string) (update : bool)
    (kwargs : gmap string filter_value) (s s' : DataTaker) (r : result) :
  get depth variables update kwargs s = (Ok r, s') ->
  answer variables s' = (Ok r, s').
Proof.
  destruct depth as [|d]; [discriminate|]. rewrite get_S. unfold get_with.
  cbv zeta. intros H. inv_bind H as groups s1 H1. inv_bind H as u s2 H2.
  inv_bind H as u' s3 H3. pose proof (answer_state _ _ _ _ H) as ->.
  exact H.
Qed.

(** [get('name/unit')] answers with the stored quantity converted to
    [unit]; the store is keyed by the bare name and keeps the quantity as it
    was derived.  The unit is everything after the first slash. *)
Theorem get_unit_suffix (depth : nat) (name unit : string) (update : bool)
    (kwargs : gmap string filter_value) (s s' : DataTaker) (r : result) :
  is_word name = true -> no_slash name = true -> no_space unit = true ->
  get depth (name +:+ "/" +:+ unit) update kwargs s = (Ok r, s') ->
  exists stored q,
    r = One q /\ quantities s' !! name = Some stored /\
    Q_to stored (Some unit) = Ok q.
Proof.
  intros Hname Hslash Hunit H. apply get_answer in H.
  assert (PyStr.split (name +:+ "/" +:+ unit) = [name +:+ "/" +:+ unit]) as Hsplit.
  { apply split_word. unfold is_word in *.
    apply andb_true_iff in Hname as [Hne Hsp]. apply andb_true_iff. split.
    - destruct name; [discriminate|reflexivity].
    - unfold no_space in *. rewrite !all_chars_app, Hsp, Hunit. reflexivity. }
  apply (answer_one _ name (Some unit)) in H; [exact H| |].
  - unfold requested. rewrite Hsplit. cbn [fmap list_fmap].
    unfold parse_variable. rewrite split_slash_app by exact Hslash. reflexivity.
  - unfold spec_units_of. rewrite Hsplit. cbn [fmap list_fmap foldl].
    unfold parse_variable. rewrite split_slash_app by exact Hslash.
    cbn [fst snd]. apply lookup_insert_eq.
Qed.

End Units.

Section Time.

Context `{Ext : Externals}.

Lemma build_t_only
    (self_get : string -> gmap string filter_value -> M result)
    (kwargs : gmap string filter_value) (s s1 : DataTaker) :
  _build_quantities self_get (list_to_set ["t"]) kwargs s = (Ok tt, s1) ->
  exists raw t0 t1,
    filtered (raw_data s) kwargs = Ok raw /\
    timestamps s !! 0%nat = Some t0 /\ timestamps s !! 1%nat = Some t1 /\
    quantities s1
    = <["t":=Q_ (map (fun i => CNum (float_of_Z (Z.of_nat i * seconds (t1 - t0))))
                     (seq 0 (n_rows raw)))
                (Some "seconds") (Some "$t$") (Some "time")]> (quantities s).
Proof.
  intros H. unfold _build_quantities in H. cbv zeta in H.
  assert (list_to_set ["t"] ∩ hum_ratio_names = (∅ : gset string))
    as Hhum by by_compute.
  assert (list_to_set ["t"] ∩ to_clean_names = (∅ : gset string))
    as Hclean by by_compute.
  assert (list_to_set ["t"] ∩ dependent_names = ({["t"]} : gset string))
    as Hdep by by_compute.
  assert (list_to_set ["t"] ∩ enthalpy_names = (∅ : gset string))
    as Henth by by_compute.
  rewrite Hhum, Hclean, Hdep, Henth in H.
  assert (({["t"]} : gset string) ∖ own_rule = ∅) as Hown by by_compute.
  assert ((list_to_set ["t"] : gset string) ∖ ∅ ∖ ∅ ∖ {["t"]} ∖ ∅ = ∅)
    as Hasis by by_compute.
  rewrite Hown, Hasis, set_order_empty in H.
  inv_bind H as self_raw s2 Hself. injection Hself as <- <-.
  inv_bind H as raw s2 Hraw. injection Hraw as Hraw <-.
  destruct (decide ((∅ : gset string) = ∅ ∧ (∅ : gset string) = ∅))
    as [_|Hn]; [|exfalso; apply Hn; auto].
  destruct (decide ("Pel" ∈ ({["t"]} : gset string)))
    as [Hin%elem_of_singleton|_]; [discriminate|].
  destruct (decide ("t" ∈ ({["t"]} : gset string))) as [_|Hn];
    [|exfalso; apply Hn, elem_of_singleton; reflexivity].
  unfold build_to_clean in H.
  destruct (decide ((∅ : gset string) = ∅)) as [_|Hn]; [|congruence].
  cbn [for_each] in H.
  repeat first [rewrite bindM_assoc in H | rewrite bindM_ret in H].
  unfold build_t, get_timestep in H.
  repeat first [rewrite bindM_assoc in H | rewrite bindM_ret in H
               | rewrite bindM_gets in H].
  inv_bind H as t0 s2 H0. unfold lift in H0. injection H0 as H0 <-.
  rewrite bindM_assoc in H.
  inv_bind H as t1 s2 H1. unfold lift in H1. injection H1 as H1 <-.
  repeat first [rewrite bindM_assoc in H | rewrite bindM_ret in H].
  inv_bind H as u s2 Hstore. injection Hstore as _ <-.
  injection H as <-.
  exists raw, t0, t1. split; [exact Hraw|].
  split; [exact (getitem_nat_inv _ 0 _ H0)|].
  split; [exact (getitem_nat_inv _ 1 _ H1)|]. reflexivity.
Qed.

(** The time axis is not read from the timestamps of the rows: it counts
    the rows the filter keeps, from zero, in steps of the seconds between the
    first two rows of the whole table (the days of that interval, if any,
    are dropped). *)
Theorem time_axis_is_synthetic (depth : nat) (update : bool)
    (kwargs : gmap string filter_value) (s s' : DataTaker) (r : result) :
  update = true \/ _groups s <> kwargs \/ "t" ∉ dom (quantities s) ->
  get depth "t" update kwargs s = (Ok r, s') ->
  exists raw t0 t1,
    filtered (raw_data s) kwargs = Ok raw /\
    timestamps s !! 0%nat = Some t0 /\ timestamps s !! 1%nat = Some t1 /\
    quantities s' !! "t"
    = Some (Q_ (map (fun i => CNum (float_of_Z (Z.of_nat i * seconds (t1 - t0))))
                    (seq 0 (n_rows raw)))
               (Some "seconds") (Some "$t$") (Some "time")).
Proof.
  intros Hcond H. destruct depth as [|d]; [discriminate|].
  assert (requested "t" = ["t"]) as Hreq by (vm_compute; reflexivity).
  rewrite get_S in H. unfold get_with in H. cbv zeta in H.
  rewrite bindM_gets, Hreq in H.
  assert (exists s0 s1,
            _build_quantities (fun v k => get d v false k) (list_to_set ["t"])
              kwargs s0 = (Ok tt, s1) /\
            raw_data s0 = raw_data s /\ timestamps s0 = timestamps s /\
            quantities s' = quantities s1) as (s0 & s1 & Hbuild & Hr & Ht & Hq).
  { destruct (update || negb (bool_decide (_groups s = kwargs))) eqn:Ec.
    - rewrite bindM_assoc in H. unfold clear in H. rewrite bindM_modify in H.
      inv_bind H as u s1 Hbuild. destruct u.
      inv_bind H as u s2 Hg. injection Hg as _ <-.
      apply answer_state in H as ->. eauto 10.
    - assert ("t" ∉ dom (quantities s)) as Hout.
      { destruct Hcond as [->|[Hne|Hout]]; [discriminate| |exact Hout].
        rewrite bool_decide_eq_false_2 in Ec by exact Hne.
        rewrite orb_true_r in Ec. discriminate. }
      rewrite bindM_assoc, bindM_gets in H.
      assert ((list_to_set ["t"] : gset string) ∖ dom (quantities s)
              = list_to_set ["t"]) as Heq by set_solver.
      rewrite Heq in H.
      inv_bind H as u s1 Hbuild. destruct u.
      inv_bind H as u s2 Hg. injection Hg as _ <-.
      apply answer_state in H as ->. eauto 10. }
  apply build_t_only in Hbuild as (raw & t0 & t1 & Hraw & H0 & H1 & Hs1).
  exists raw, t0, t1. rewrite <- Hr, <- Ht. split; [exact Hraw|].
  split; [exact H0|]. split; [exact H1|].
  rewrite Hq, Hs1. apply lookup_insert_eq.
Qed.

End Time.

Section Tables.

Context `{Ext : Externals}.

(** The [ValueError] of lines 346-347 is never raised: every name that
    reaches the loop is h1 ... h9, and both modes give each of the nine
    states a side. *)
Theorem enthalpy_state_has_side (heating : bool) (enthalpy : string) :
  enthalpy ∈ enthalpy_names ->
  exists state pstate,
    PyStr.int (PyStr.strip "h" enthalpy) = Ok state /\
    1 <= state <= 9 /\
    pressure_side heating state = Ok pstate /\
    (pstate = "in" \/ pstate = "out") /\
    requested ("p" +:+ pstate +:+ " T" +:+ PyStr.str state)
    = ["p" +:+ pstate; "T" +:+ PyStr.str state].
Proof.
  unfold enthalpy_names. rewrite !elem_of_union, !elem_of_singleton.
  intros H.
  repeat (destruct H as [H| ->]); try subst enthalpy; destruct heating;
    do 2 eexists; (split; [vm_compute; reflexivity|]);
    (split; [lia|]); (split; [vm_compute; reflexivity|]);
    (split; [auto|vm_compute; reflexivity]).
Qed.

(** In heating mode the rule of [Qloss_ev] has no reference states:
    asking for it raises [KeyError] once the direction flag has been read,
    and nothing is stored for it. *)
Theorem qloss_ev_raises_when_heating (depth : nat)
    (kwargs : gmap string filter_value) (s s1 : DataTaker) (q : Quantity) :
  is_ok (filtered (raw_data s) kwargs) = true ->
  get (S depth) "refdir" false kwargs (set_quantities ∅ [EClear] s)
  = (Ok (One q), s1) ->
  heating_of (magnitude q) = true ->
  get (S (S depth)) "Qloss_ev" true kwargs s
  = (Raise (KeyError "Qloss_ev"), s1).
Proof.
  intros Hraw Hget Hheat.
  destruct (filtered (raw_data s) kwargs) as [raw|e] eqn:Eraw; [|discriminate].
  assert (requested "Qloss_ev" = ["Qloss_ev"]) as Hreq
    by (vm_compute; reflexivity).
  rewrite get_S. unfold get_with. cbv zeta. rewrite bindM_gets, Hreq.
  cbn [orb]. rewrite bindM_assoc. unfold clear. rewrite bindM_modify.
  apply bindM_run_raise.
  unfold _build_quantities. cbv zeta.
  assert (list_to_set ["Qloss_ev"] ∩ hum_ratio_names = (∅ : gset string))
    as -> by by_compute.
  assert (list_to_set ["Qloss_ev"] ∩ to_clean_names = (∅ : gset string))
    as -> by by_compute.
  assert (list_to_set ["Qloss_ev"] ∩ dependent_names
          = ({["Qloss_ev"]} : gset string)) as -> by by_compute.
  assert (list_to_set ["Qloss_ev"] ∩ enthalpy_names = (∅ : gset string))
    as -> by by_compute.
  assert (({["Qloss_ev"]} : gset string) ∖ own_rule = {["Qloss_ev"]})
    as -> by by_compute.
  rewrite set_order_empty, set_order_singleton.
  rewrite bindM_gets.
  change (raw_data (set_quantities ∅ [EClear] s)) with (raw_data s).
  rewrite Eraw, bindM_lift_ok.
  destruct (decide ((∅ : gset string) = ∅
                    ∧ ({["Qloss_ev"]} : gset string) = ∅)) as [[_ He]|_].
  { exfalso. assert ("Qloss_ev" ∈ (∅ : gset string)) as Hin
      by (rewrite <- He; apply elem_of_singleton; reflexivity).
    set_solver. }
  rewrite !bindM_assoc. rewrite (bindM_run _ _ _ _ _ Hget).
  cbv beta. cbn [as_quantity]. rewrite bindM_assoc, bindM_lift_ok, bindM_ret, Hheat.
  cbn [for_each]. rewrite bindM_ret.
  unfold build_to_clean.
  destruct (decide ((∅ : gset string) = ∅)) as [_|Hn]; [|congruence].
  rewrite bindM_ret. rewrite !bindM_assoc.
  unfold build_dependent. reflexivity.
Qed.

End Tables.

(** A request for the frequency and for a name nobody knows, under the
    filter on the first file: the call fails, the frequency of the first
    file stays in the store, and the next call under no filter answers with
    it. *)
Lemma failed_get_leaves_stale_witness :
  exists s' q,
    get 1 "f zz" false Demo.first_file Demo.dtk = (Raise (KeyError "zz"), s') /\
    _groups s' = _groups Demo.dtk /\
    quantities s' = {["f" := q]} /\
    length (magnitude q) = 2%nat /\
    get 1 "f" false (_groups Demo.dtk) s'
    = ((do q' <- Q_to q None; Ok (One q')), s').
Proof.
  destruct (filtered (raw_data Demo.dtk) Demo.first_file) as [raw|e] eqn:Eraw;
    [|vm_compute in Eraw; discriminate].
  destruct (column raw (col_names (Demo.conversion_of "Freq" "Hz")))
    as [col|e] eqn:Ecol.
  2: { vm_compute in Eraw. injection Eraw as <-. vm_compute in Ecol.
       discriminate. }
  destruct (clean_frequency col) as [f|e] eqn:Ef.
  2: { vm_compute in Eraw. injection Eraw as <-. vm_compute in Ecol.
       injection Ecol as <-. vm_compute in Ef. discriminate. }
  destruct (failed_get_leaves_stale 0 0 "zz" Demo.first_file Demo.dtk raw
              (Demo.conversion_of "Freq" "Hz") col f)
    as (s' & H1 & H2 & H3 & H4);
    [vm_compute; discriminate|vm_compute; reflexivity|by_compute
    |vm_compute; reflexivity|exact Eraw|vm_compute; reflexivity
    |vm_compute; reflexivity|exact Ecol|exact Ef|].
  eexists s', _. split; [exact H1|]. split; [exact H2|].
  split; [exact H3|]. split; [|exact H4].
  vm_compute in Eraw. injection Eraw as <-. vm_compute in Ecol.
  injection Ecol as <-. vm_compute in Ef. injection Ef as <-. reflexivity.
Defined.

Lemma get_unknown_name_witness :
  exists s',
    get 1 "zz" false ∅ Demo.dtk = (Raise (KeyError "zz"), s') /\
    _groups s' = _groups Demo.dtk.
Proof.
  destruct (get_unknown_name 0 "zz" false ∅ Demo.dtk)
    as (s' & H1 & H2 & _);
    [vm_compute; reflexivity|by_compute|vm_compute; reflexivity
    |vm_compute; reflexivity|right; right; by_compute|].
  exists s'. split; [exact H1|exact H2].
Defined.

Lemma get_no_names_witness :
  exists s',
    get 1 "" false Demo.first_file Demo.warmed = (Raise IndexError, s') /\
    _groups s' = Demo.first_file /\ quantities s' = ∅.
Proof.
  destruct (get_no_names 0 "" false Demo.first_file Demo.warmed)
    as (s' & H1 & H2 & H3);
    [vm_compute; reflexivity|vm_compute; reflexivity|].
  exists s'. split; [exact H1|]. split; [exact H2|].
  rewrite H3. vm_compute. reflexivity.
Defined.

Lemma get_unit_suffix_witness :
  exists stored q,
    (get 1 "f/rpm" false ∅ Demo.dtk).1 = Ok (One q) /\
    quantities (get 1 "f/rpm" false ∅ Demo.dtk).2 !! "f" = Some stored /\
    units stored = Some "Hz" /\ units q = Some "rpm".
Proof.
  destruct (get 1 "f/rpm" false ∅ Demo.dtk) as [[r|e] s'] eqn:E;
    [|vm_compute in E; discriminate].
  destruct (get_unit_suffix 1 "f" "rpm" false ∅ Demo.dtk s' r eq_refl eq_refl
              eq_refl E) as (stored & q & -> & H1 & H2).
  exists stored, q. split; [reflexivity|]. split; [exact H1|].
  vm_compute in E. injection E as <- <-.
  vm_compute in H1. injection H1 as <-. split; reflexivity.
Defined.

Lemma time_axis_is_synthetic_witness :
  exists q,
    quantities (get 1 "t" true Demo.first_file Demo.dtk).2 !! "t" = Some q /\
    magnitude q = [CNum 0%float; CNum 10%float].
Proof.
  destruct (get 1 "t" true Demo.first_file Demo.dtk) as [[r|e] s'] eqn:E;
    [|vm_compute in E; discriminate].
  destruct (time_axis_is_synthetic 1 true Demo.first_file Demo.dtk s' r)
    as (raw & t0 & t1 & Hraw & H0 & H1 & Hq); [left; reflexivity|exact E|].
  eexists. split; [exact Hq|].
  vm_compute in Hraw. injection Hraw as <-.
  vm_compute in H0. injection H0 as <-.
  vm_compute in H1. injection H1 as <-. vm_compute. reflexivity.
Defined.

Lemma enthalpy_state_has_side_witness :
  exists state pstate,
    PyStr.int (PyStr.strip "h" "h3") = Ok state /\
    pressure_side true state = Ok pstate /\
    requested ("p" +:+ pstate +:+ " T" +:+ PyStr.str state)
    = ["p" +:+ pstate; "T" +:+ PyStr.str state].
Proof.
  destruct (enthalpy_state_has_side true "h3")
    as (state & pstate & H1 & _ & H2 & _ & H3); [by_compute|].
  exists state, pstate. split; [exact H1|]. split; [exact H2|exact H3].
Defined.

Lemma qloss_ev_raises_when_heating_witness :
  (get 2 "Qloss_ev" true ∅ Demo.dtk).1 = Raise (KeyError "Qloss_ev").
Proof.
  destruct (get 1 "refdir" false ∅ (set_quantities ∅ [EClear] Demo.dtk))
    as [[[q|names spec_units]|e] s1] eqn:E;
    try (vm_compute in E; discriminate).
  assert (is_ok (filtered (raw_data Demo.dtk) ∅) = true) as Hraw
    by (vm_compute; reflexivity).
  rewrite (qloss_ev_raises_when_heating 0 ∅ Demo.dtk s1 q Hraw E);
    [reflexivity|].
  vm_compute in E. injection E as <- _. vm_compute. reflexivity.
Defined.

End GetFacts.

(** ** [_heat]: when the correction applies *)

Module SaturationFacts.

Import Store GetFacts.

Local Open Scope list_scope.

Section Saturated.

Context `{Ext : Externals}.

Lemma select_all {A : Type} (mask : list bool) (a : list A) :
  Forall (eq true) mask -> length mask = length a -> select mask a = a.
Proof.
  revert a. induction mask as [|b mask IH]; intros [|x a] Hall Hlen;
    try discriminate; [reflexivity|].
  inversion Hall as [|? ? <- Hall']; subst. simpl. f_equal.
  apply IH; [exact Hall'|]. simpl in Hlen. lia.
Qed.

Lemma mask_assign_all {A : Type} (a : list A) (mask : list bool)
    (values : list A) :
  Forall (eq true) mask -> length mask = length a ->
  length values = length a -> mask_assign a mask values = values.
Proof.
  revert mask values. induction a as [|x a IH]; intros [|b mask] [|v values]
    Hall Hlen Hv; try discriminate; [reflexivity|].
  inversion Hall as [|? ? <- Hall']; subst. simpl. f_equal.
  apply IH; [exact Hall'| |]; simpl in *; lia.
Qed.

Lemma mapM_length {A B : Type} (f : A -> err B) (l : list A) (r : list B) :
  mapM f l = Ok r -> length r = length l.
Proof.
  revert r. induction l as [|x l IH]; intros r H; simpl in H.
  - injection H as <-. reflexivity.
  - destruct (f x) as [y|e]; [|discriminate]. simpl in H.
    destruct (mapM f l) as [ys|e]; [|discriminate]. simpl in H.
    injection H as <-. simpl. f_equal. apply IH. reflexivity.
Qed.

(** When no sample is in the expected phase, every enthalpy is replaced by
    the saturated enthalpy at the sample's pressure. *)
Theorem phase_correction_replaces_all (exp_phase : string) (q : float)
    (h p : list float) (phases : list string) :
  quality exp_phase = Ok q ->
  exp_phase ∉ phases ->
  length h = length p -> length phases = length p ->
  correct_phase exp_phase h p phases
  = mapM (fun p_i => PropsSI_H_PQ p_i q) p.
Proof.
  intros Hq Hout Hh Hph. unfold correct_phase.
  assert (Forall (fun ph => String.eqb ph exp_phase = false) phases) as Hall.
  { apply Forall_forall. intros ph Hin. apply String.eqb_neq.
    intros ->. exact (Hout Hin). }
  assert (existsb (String.eqb exp_phase) phases = false) as ->.
  { clear -Hall. induction Hall as [|ph l Hph Hl IH]; [reflexivity|].
    simpl. rewrite String.eqb_sym, Hph, IH. reflexivity. }
  cbn [negb]. rewrite Hq. cbn [bind].
  assert (Forall (eq true)
            (map (fun ph => negb (String.eqb ph exp_phase)) phases)) as Hmask.
  { clear -Hall. induction Hall as [|ph l Hph Hl IH]; constructor; [|exact IH].
    rewrite Hph. reflexivity. }
  rewrite select_all by (try exact Hmask; rewrite length_map; exact Hph).
  destruct (mapM (fun p_i => PropsSI_H_PQ p_i q) p) as [hsat|e] eqn:E;
    [|reflexivity].
  cbn [bind]. f_equal. apply mask_assign_all; [exact Hmask| |].
  - rewrite length_map. congruence.
  - rewrite (mapM_length _ _ _ E). congruence.
Qed.

End Saturated.

(** Two samples, both two-phase where gas is expected: both enthalpies
    become the saturated one. *)
Lemma phase_correction_replaces_all_witness :
  correct_phase "gas" [281; 282]%float [1; 1]%float ["twophase"; "twophase"]
  = Ok [1; 1]%float.
Proof.
  rewrite (phase_correction_replaces_all "gas" 1%float);
    [vm_compute; reflexivity|reflexivity|by_compute|reflexivity|reflexivity].
Defined.

Section HeatShape.

Context `{Ext : Externals}.

Lemma vec2_length {A B C : Type} (f : A -> B -> err C) (a : list A)
    (b : list B) (c : list C) :
  vec2 f a b = Ok c -> length a = length b /\ length c = length a.
Proof.
  unfold vec2. destruct (Nat.eqb_spec (length a) (length b)) as [E|_];
    [|discriminate].
  intros H. apply mapM_length in H. rewrite length_zip in H.
  split; [exact E|lia].
Qed.


End HeatShape.


End SaturationFacts.

(** ** The row filters *)

Module FilterFacts.

Import Store Filters.

Local Open Scope list_scope.

Lemma same_outcome_refl {A : Type} (x : err A) : same_outcome x x.
Proof. destruct x; simpl; auto. Qed.

Lemma same_outcome_trans {A : Type} (x y z : err A) :
  same_outcome x y -> same_outcome y z -> same_outcome x z.
Proof. destruct x, y, z; simpl; intros; try tauto; congruence. Qed.

Lemma step_proper (a b : err frame) (kv : string * filter_value) :
  same_outcome a b -> same_outcome (filter_step a kv) (filter_step b kv).
Proof.
  destruct a as [x|e], b as [y|e']; simpl; intros H; try tauto.
  subst. apply same_outcome_refl.
Qed.

Lemma foldl_step_proper (l : list (string * filter_value)) (a b : err frame) :
  same_outcome a b -> same_outcome (foldl filter_step a l) (foldl filter_step b l).
Proof.
  revert a b. induction l as [|kv l IH]; intros a b H; simpl; [exact H|].
  apply IH, step_proper, H.
Qed.

Lemma select_nil_r {A : Type} (m : list bool) : select m ([] : list A) = [].
Proof. destruct m; reflexivity. Qed.

Lemma select_select {A B : Type} (g : B -> bool) (m : list bool)
    (c : list B) (a : list A) :
  select (map g (select m c)) (select m a)
  = select (zip_with andb m (map g c)) a.
Proof.
  revert c a. induction m as [|b m IH]; intros c a; [reflexivity|].
  destruct a as [|x a]; [rewrite !select_nil_r; reflexivity|].
  destruct c as [|y c]; [reflexivity|].
  destruct b; simpl; [|apply IH].
  destruct (g y); rewrite IH; reflexivity.
Qed.

Lemma count_select {B : Type} (g : B -> bool) (m : list bool) (c : list B) :
  length (filter (fun b => b = true) (map g (select m c)))
  = length (filter (fun b => b = true) (zip_with andb m (map g c))).
Proof.
  revert c. induction m as [|b m IH]; intros c; [reflexivity|].
  destruct c as [|y c]; [reflexivity|].
  destruct b; simpl.
  - rewrite !filter_cons. destruct (decide (g y = true)); simpl; rewrite IH;
      reflexivity.
  - rewrite filter_cons. destruct (decide (false = true)); [discriminate|].
    apply IH.
Qed.

Lemma zip_with_andb_comm (m1 m2 : list bool) :
  zip_with andb m1 m2 = zip_with andb m2 m1.
Proof.
  revert m2. induction m1 as [|a m1 IH]; intros [|b m2]; simpl;
    try reflexivity.
  rewrite IH, andb_comm. reflexivity.
Qed.

Lemma filter_rows_present (df : frame) (k : string) (v : filter_value)
    (c : list cell) :
  columns df !! k = Some c ->
  filter_rows df k v
  = Ok (Frame (length (filter (fun b => b = true)
                         (map (fun x => cell_eq x v) c)))
              (select (map (fun x => cell_eq x v) c) <$> columns df)).
Proof. intros H. unfold filter_rows, column. rewrite H. reflexivity. Qed.

Lemma filter_rows_missing (df : frame) (k : string) (v : filter_value) :
  columns df !! k = None -> filter_rows df k v = Raise (KeyError k).
Proof. intros H. unfold filter_rows, column. rewrite H. reflexivity. Qed.

Lemma filter_rows_comm (df : frame) (kv1 kv2 : string * filter_value) :
  same_outcome (filter_step (filter_step (Ok df) kv1) kv2) (filter_step (filter_step (Ok df) kv2) kv1).
Proof.
  destruct kv1 as [k1 v1], kv2 as [k2 v2]. unfold filter_step. cbn [bind fst snd].
  destruct (columns df !! k1) as [c1|] eqn:E1,
           (columns df !! k2) as [c2|] eqn:E2.
  - rewrite (filter_rows_present df k1 v1 c1 E1),
            (filter_rows_present df k2 v2 c2 E2). cbn [bind].
    erewrite !filter_rows_present
      by (cbn [columns]; rewrite lookup_fmap;
          first [rewrite E1 | rewrite E2]; reflexivity).
    simpl. f_equal.
    + rewrite !count_select. rewrite zip_with_andb_comm. reflexivity.
    + rewrite <- !map_fmap_compose. apply map_fmap_ext. intros i a _.
      cbn [compose]. rewrite !select_select.
      rewrite zip_with_andb_comm. reflexivity.
  - rewrite (filter_rows_present df k1 v1 c1 E1),
            (filter_rows_missing df k2 v2 E2). cbn [bind].
    rewrite filter_rows_missing; [exact I|].
    cbn [columns]. rewrite lookup_fmap, E2. reflexivity.
  - rewrite (filter_rows_missing df k1 v1 E1),
            (filter_rows_present df k2 v2 c2 E2). cbn [bind].
    rewrite filter_rows_missing; [exact I|].
    cbn [columns]. rewrite lookup_fmap, E1. reflexivity.
  - rewrite (filter_rows_missing df k1 v1 E1),
            (filter_rows_missing df k2 v2 E2). exact I.
Qed.

Lemma step_comm (acc : err frame) (kv1 kv2 : string * filter_value) :
  same_outcome (filter_step (filter_step acc kv1) kv2) (filter_step (filter_step acc kv2) kv1).
Proof. destruct acc as [df|e]; [apply filter_rows_comm|exact I]. Qed.

Lemma foldl_step_perm (l l' : list (string * filter_value)) :
  l ≡ₚ l' ->
  forall a b, same_outcome a b ->
    same_outcome (foldl filter_step a l) (foldl filter_step b l').
Proof.
  induction 1 as [|x l l' Hp IH|x y l|l l' l'' Hp IH Hp' IH']; intros a b Hab.
  - exact Hab.
  - simpl. apply IH, step_proper, Hab.
  - simpl. apply foldl_step_proper.
    eapply same_outcome_trans; [apply step_comm|].
    apply step_proper, step_proper, Hab.
  - eapply same_outcome_trans; [apply IH, Hab|].
    apply IH', same_outcome_refl.
Qed.

(** The rows [_build_quantities] keeps do not depend on the order in which
    the filters are applied: in whatever order the keyword arguments were
    written, the filtered table is the same, and it is missing (a
    [KeyError]) in one order only if it is in every order. *)
Theorem filter_order_is_irrelevant (df : frame)
    (kwargs : gmap string filter_value)
    (items : list (string * filter_value)) :
  items ≡ₚ map_to_list kwargs ->
  same_outcome (filtered_in_order df items) (filtered df kwargs).
Proof.
  intros Hp. apply (foldl_step_perm _ _ Hp). apply same_outcome_refl.
Qed.

(** Two filters on the demonstration table, written in either order. *)
Lemma filter_order_is_irrelevant_witness :
  same_outcome
    (filtered_in_order Demo.table [("file_index", FInt 0); ("Dir", FInt 0)])
    (filtered Demo.table (<["Dir":=FInt 0]> Demo.first_file)) /\
  same_outcome
    (filtered_in_order Demo.table [("Dir", FInt 0); ("file_index", FInt 0)])
    (filtered Demo.table (<["Dir":=FInt 0]> Demo.first_file)).
Proof.
  split; apply filter_order_is_irrelevant; vm_compute;
    first [reflexivity | apply perm_swap].
Defined.

End FilterFacts.

(** ** The segmenter: what it returns on any frequency *)

Module ShapeFacts.

Import Segmenter Shape.

Local Open Scope list_scope.

Lemma getitem_in_range {A : Type} (a : list A) (i : Z) :
  - Z.of_nat (length a) <= i < Z.of_nat (length a) ->
  exists x, getitem a i = Ok x.
Proof.
  intros H. unfold getitem, norm_index.
  destruct (Z.ltb_spec i 0).
  - destruct (Z.leb_spec 0 (i + Z.of_nat (length a))); [|lia].
    destruct (Z.ltb_spec (i + Z.of_nat (length a)) (Z.of_nat (length a)));
      [|lia].
    simpl. destruct (lookup_lt_is_Some_2 a (Z.to_nat (i + Z.of_nat (length a))))
      as [x Hx]; [lia|].
    rewrite Hx. eauto.
  - destruct (Z.leb_spec 0 i); [|lia].
    destruct (Z.ltb_spec i (Z.of_nat (length a))); [|lia].
    simpl. destruct (lookup_lt_is_Some_2 a (Z.to_nat i)) as [x Hx]; [lia|].
    rewrite Hx. eauto.
Qed.

Lemma setitem_in_range {A : Type} (a : list A) (i : Z) (x : A) :
  - Z.of_nat (length a) <= i < Z.of_nat (length a) ->
  exists a', setitem a i x = Ok a' /\ length a' = length a.
Proof.
  intros H. unfold setitem, norm_index.
  destruct (Z.ltb_spec i 0).
  - destruct (Z.leb_spec 0 (i + Z.of_nat (length a))); [|lia].
    destruct (Z.ltb_spec (i + Z.of_nat (length a)) (Z.of_nat (length a)));
      [|lia].
    simpl. eexists. split; [reflexivity|]. apply length_insert.
  - destruct (Z.leb_spec 0 i); [|lia].
    destruct (Z.ltb_spec i (Z.of_nat (length a))); [|lia].
    simpl. eexists. split; [reflexivity|]. apply length_insert.
Qed.

Lemma length_setslice {A : Type} (a : list A) (start stop : Z) (x : A) :
  length (setslice a start stop x) = length a.
Proof. unfold setslice, fill_range. apply length_imap. Qed.

Lemma length_setslice_from {A : Type} (a : list A) (start : Z) (x : A) :
  length (setslice_from a start x) = length a.
Proof. unfold setslice_from, fill_range. apply length_imap. Qed.

Lemma loop_body_shape (n : nat) (sd_limit : float) (i : Z) (f : float)
    (s : loop_state) :
  sized n s -> 0 <= i < Z.of_nat n ->
  (exists s', loop_body sd_limit i f s = Ok s' /\ sized n s') \/
  loop_body sd_limit i f s = Raise (ValueError "math domain error").
Proof.
  intros (Hm & Hv & Hs) Hi. unfold loop_body.
  destruct (getitem_in_range (mean s) (i - 1)) as [mp ->]; [lia|].
  cbn [bind].
  destruct (setitem_in_range (mean s) i
              ((float_of_Z (buffer s) * mp + f) / float_of_Z (buffer s + 1))%float)
    as (mean1 & -> & Hm1); [lia|].
  cbn [bind].
  destruct (getitem_in_range (var s) (i - 1)) as [vp ->]; [lia|].
  cbn [bind].
  destruct (getitem_in_range mean1 (i - 1)) as [mp' ->]; [lia|].
  cbn [bind].
  destruct (getitem_in_range mean1 i) as [mi ->]; [lia|].
  cbn [bind].
  match goal with
  | |- context [setitem (var s) i ?x] =>
      destruct (setitem_in_range (var s) i x) as (var1 & -> & Hv1); [lia|]
  end.
  cbn [bind].
  destruct (getitem_in_range var1 i) as [vi ->]; [lia|].
  cbn [bind]. unfold math_sqrt.
  destruct (PrimFloat.ltb vi 0); [right; reflexivity|].
  cbn [bind]. left.
  destruct (PrimFloat.ltb sd_limit (PrimFloat.sqrt vi)).
  - destruct (setitem_in_range mean1 i f) as (mean2 & -> & Hm2); [lia|].
    cbn [bind].
    destruct (setitem_in_range var1 i 0%float) as (var2 & -> & Hv2); [lia|].
    cbn [bind]. eexists. split; [reflexivity|].
    repeat split; simpl; rewrite ?length_setslice; congruence.
  - eexists. split; [reflexivity|]. repeat split; simpl; congruence.
Qed.

Lemma loop_shape (n : nat) (sd_limit : float) (fs : list float) (i : Z)
    (s : loop_state) :
  sized n s -> 0 <= i -> i + Z.of_nat (length fs) <= Z.of_nat n ->
  (exists s', loop sd_limit i fs s = Ok s' /\ sized n s') \/
  loop sd_limit i fs s = Raise (ValueError "math domain error").
Proof.
  revert i s. induction fs as [|f fs IH]; intros i s Hs Hi Hn; simpl.
  - left. eauto.
  - simpl in Hn.
    destruct (loop_body_shape n sd_limit i f s Hs) as [(s' & -> & Hs')| ->];
      [lia| |right; reflexivity].
    cbn [bind]. apply IH; [exact Hs'|lia|lia].
Qed.

(** On a frequency with no sample the function raises [IndexError]; on any
    other it either returns one number per sample or raises the
    [ValueError] of [math.sqrt]: no index is ever out of range. *)
Theorem steps_number_shape (u : uninitialised) (frequency : list float)
    (sd_limit : float) :
  match frequency with
  | [] => steps_number_of u frequency sd_limit = Raise IndexError
  | _ :: _ =>
      (exists steps,
         steps_number_of u frequency sd_limit = Ok steps /\
         length steps = length frequency) \/
      steps_number_of u frequency sd_limit = Raise (ValueError "math domain error")
  end.
Proof.
  destruct frequency as [|f0 fs]; [reflexivity|].
  unfold steps_number_of. cbv zeta.
  change (getitem (f0 :: fs) 0) with (Ok f0 : err float). cbn [bind].
  set (n := length (f0 :: fs)).
  assert (forall (B : Type) (g : nat -> B),
            length (empty_like g (f0 :: fs)) = n) as Hlen.
  { intros B g. unfold empty_like. rewrite length_map, length_seq.
    reflexivity. }
  destruct (setitem_in_range (empty_like (u_mean u) (f0 :: fs)) 0 f0)
    as (mean1 & -> & Hm1); [rewrite Hlen; subst n; simpl; lia|].
  cbn [bind].
  destruct (setitem_in_range (empty_like (u_var u) (f0 :: fs)) 0 0%float)
    as (var1 & -> & Hv1); [rewrite Hlen; subst n; simpl; lia|].
  cbn [bind]. cbn [tail].
  destruct (loop_shape n sd_limit fs 0
              (LoopState mean1 var1 (empty_like (u_steps u) (f0 :: fs)) 1))
    as [(s' & -> & Hs')| ->].
  - unfold sized. cbn [mean var steps_number]. rewrite Hm1, Hv1, !Hlen. auto.
  - lia.
  - subst n. simpl. lia.
  - left. cbn [bind]. eexists. split; [reflexivity|].
    rewrite length_setslice_from. destruct Hs' as (_ & _ & Hs'). exact Hs'.
  - right. reflexivity.
Qed.

(** The [ValueError] is not only a possibility: rounding makes the running
    variance of a constant frequency negative.  Five samples of 89.9 Hz on
    zeroed memory, three on memory that holds 89.9 and 0 where the loop
    reads [mean[-1]] and [var[-1]]. *)
Theorem constant_frequency_raises :
  steps_number_of Demo.zeroed [hz_89_9; hz_89_9; hz_89_9; hz_89_9; hz_89_9] 2
  = Raise (ValueError "math domain error") /\
  forall u : uninitialised,
    u_mean u 2%nat = hz_89_9 -> u_var u 2%nat = 0%float ->
    steps_number_of u [hz_89_9; hz_89_9; hz_89_9] 2 = Raise (ValueError "math domain error").
Proof.
  split; [vm_compute; reflexivity|].
  intros u Hm Hv. unfold steps_number_of, empty_like. cbn [length seq map].
  rewrite Hm, Hv. vm_compute. reflexivity.
Qed.

End ShapeFacts.

(** ** [get_timestep], [set_steady_state_limits] and [__init__] *)

Module LimitsFacts.

Import Store Effects Names Timestep Init StoreFacts BinnerFacts GetFacts.

Local Open Scope list_scope.

#[local] Set Warnings "-clear-no-such-hyp".

Section Kinds.

Context `{Ext : Externals}.

(** [get_timestep] reads the first two timestamps before it looks at
    [kind]: with fewer than two samples it raises [IndexError] whatever the
    kind; with an unknown kind it raises [ValueError] otherwise.  The
    [Quantity] kind keeps the seconds left over after whole days, so the two
    kinds agree exactly when the interval is not negative and shorter than a
    day.  The [DataTaker] is never changed. *)
Theorem get_timestep_kinds (kind : string) (s : DataTaker) :
  match timestamps s with
  | t0 :: t1 :: _ =>
      get_timestep_as "Timedelta" s = (Ok (Timedelta (t1 - t0)), s) /\
      get_timestep_as "Quantity" s = (Ok (InSeconds ((t1 - t0) mod 86400)), s) /\
      0 <= (t1 - t0) mod 86400 < 86400 /\
      ((t1 - t0) mod 86400 = t1 - t0 <-> 0 <= t1 - t0 < 86400) /\
      (kind <> "Timedelta" -> kind <> "Quantity" ->
       exists msg, get_timestep_as kind s = (Raise (ValueError msg), s)) /\
      get_timestep s = (Ok (t1 - t0), s)
  | _ =>
      get_timestep_as kind s = (Raise IndexError, s) /\
      get_timestep s = (Raise IndexError, s)
  end.
Proof.
  unfold get_timestep_as, get_timestep. rewrite !bindM_gets.
  destruct (timestamps s) as [|t0 [|t1 ts]]; try (split; reflexivity).
  change (getitem (t0 :: t1 :: ts) 0)
    with (getitem (t0 :: t1 :: ts) (Z.of_nat 0)).
  change (getitem (t0 :: t1 :: ts) 1)
    with (getitem (t0 :: t1 :: ts) (Z.of_nat 1)).
  rewrite (getitem_nat _ 0%nat t0), (getitem_nat _ 1%nat t1) by reflexivity.
  rewrite !bindM_lift_ok.
  split; [reflexivity|]. split; [reflexivity|].
  split; [apply Z.mod_pos_bound; lia|].
  split.
  { split; [intros <-; apply Z.mod_pos_bound; lia|apply Z.mod_small]. }
  split; [|reflexivity].
  intros H1 H2. apply String.eqb_neq in H1, H2. rewrite H1, H2. eauto.
Qed.

End Kinds.

Lemma mapM_Forall2 {A B : Type} (f : A -> err B) (l : list A) (r : list B) :
  mapM f l = Ok r -> Forall2 (fun x y => f x = Ok y) l r.
Proof.
  revert r. induction l as [|x l IH]; intros r H; simpl in H.
  - injection H as <-. constructor.
  - destruct (f x) as [y|e] eqn:E; [|discriminate]. cbn [bind] in H.
    destruct (mapM f l) as [ys|e]; [|discriminate]. cbn [bind] in H.
    injection H as <-. constructor; [exact E|]. apply IH. reflexivity.
Qed.

Lemma digitize_length (x bins : list float) (idx : list Z) :
  Binner.digitize x bins = Ok idx -> length idx = length x.
Proof.
  unfold Binner.digitize. cbv zeta.
  destruct (Binner.monotonicity bins =? 0); [discriminate|].
  destruct (Binner.monotonicity bins =? -1); intros [= <-];
    apply length_map.
Qed.

(** With both open ends among the limits, every sample gets a label
    whenever the limits are accepted: [None] is only ever written for a
    sample beyond an end that is not open. *)
Theorem open_ends_label_every_sample (st limits : list float)
    (labels : list (option Binner.label)) :
  Binner.include_lb_of limits = Ok true ->
  Binner.include_ub_of limits = Ok true ->
  Binner.sst_bins st limits = Ok labels ->
  length labels = length st /\ Forall (fun l => l <> None) labels.
Proof.
  intros Hlb Hub H. unfold Binner.sst_bins in H. rewrite Hlb, Hub in H.
  cbn [bind] in H.
  destruct (getitem (Binner.explicit true true limits) 1) as [l1|e];
    [|discriminate].
  cbn [bind] in H.
  destruct (Binner.digitize st (Binner.explicit true true limits))
    as [idx|e] eqn:Ed; [|discriminate].
  cbn [bind] in H. apply digitize_length in Ed.
  pose proof (mapM_Forall2 _ _ _ H) as Hall. split.
  - rewrite <- Ed. symmetry. exact (Forall2_length _ _ _ Hall).
  - clear -Hall. induction Hall as [|d l idx labels Hd _ IH]; constructor;
      [|exact IH].
    unfold Binner.label_of in Hd.
    repeat match type of Hd with
           | (if ?c then _ else _) = _ => destruct c
           | bind ?m _ = _ => destruct m; cbn [bind] in Hd
           end; try discriminate; injection Hd as <-; discriminate.
Qed.

Section Limits.

Context `{Ext : Externals}.

Lemma get_timestep_state (s s' : DataTaker) (r : err Z) :
  get_timestep s = (r, s') -> s' = s.
Proof.
  unfold get_timestep. rewrite bindM_gets. unfold bindM, lift, ret.
  destruct (getitem (timestamps s) 0); [|intros [= _ <-]; reflexivity].
  destruct (getitem (timestamps s) 1); intros [= _ <-]; reflexivity.
Qed.

Lemma within_get_leaf (depth : nat) (variables : string) (update : bool)
    (kwargs : gmap string filter_value) :
  leaf variables = true ->
  sound always (within (list_to_set (requested variables)))
        (get depth variables update kwargs).
Proof.
  intros Hleaf. set (A := list_to_set (requested variables) : gset string).
  destruct depth as [|d]; [apply sound_raise; within_side A|].
  intros s r s' _ H. rewrite get_leaf in H by exact Hleaf.
  rewrite get_S in H. revert H.
  assert (sound always (within A)
            (get_with (_build_quantities (fun v k => get 0 v false k))
               variables update kwargs)) as Hsound;
    [|exact (Hsound s r s' I)].
  unfold get_with. cbv zeta.
  apply sound_bind; [within_side A|within_side A| |intros groups].
  { apply sound_gets. within_side A. }
  apply sound_bind; [within_side A|within_side A| |intros _].
  { destruct (update || negb (bool_decide (groups = kwargs))).
    - apply sound_bind;
        [within_side A|within_side A|apply within_clear|intros _].
      apply within_build_leaf. reflexivity.
    - apply sound_bind; [within_side A|within_side A| |intros cached].
      + apply sound_gets. within_side A.
      + apply within_build_leaf. set_solver. }
  apply sound_bind;
    [within_side A|within_side A|apply within_set_groups|intros _].
  apply sound_answer; within_side A.
Qed.



End Limits.

Lemma open_ends_label_every_sample_witness :
  exists labels,
    Binner.sst_bins [10; 1800; 7200; nan]%float default_limits = Ok labels /\
    length labels = 4%nat /\ Forall (fun l => l <> None) labels.
Proof.
  destruct (Binner.sst_bins [10; 1800; 7200; nan]%float default_limits)
    as [labels|e] eqn:E; [|vm_compute in E; discriminate].
  exists labels. split; [reflexivity|].
  apply (open_ends_label_every_sample [10; 1800; 7200; nan]%float
           default_limits labels);
    [vm_compute; reflexivity|vm_compute; reflexivity|exact E].
Defined.



Import Binner FloatOrder FloatOrderFacts.

Lemma nan_not_less (d x : float) : is_nan d = true -> np_less d x = false.
Proof.
  intros Hd. unfold np_less. rewrite Hd. cbn [negb]. rewrite andb_false_r.
  rewrite orb_false_r. unfold is_nan in Hd. apply negb_true_iff in Hd.
  destruct (PrimFloat.ltb d x) eqn:E; [|reflexivity].
  apply ltb_key in E as (a & b & Ha & _).
  assert (PrimFloat.eqb d d = true) as Hrefl by (apply eqb_key; eauto).
  congruence.
Qed.

Lemma searchsorted_right_nan (l : list float) (d : float) :
  is_nan d = true -> searchsorted_right l d = length l.
Proof.
  intros Hd. induction l as [|x l IH]; [reflexivity|].
  simpl. rewrite (nan_not_less d x Hd), IH. reflexivity.
Qed.

(** A duration that is not a number is put above every threshold: numpy's
    order has NaN after every number. *)
Theorem nan_duration_is_labelled_above (st limits : list float) (lb ub : bool)
    (l1 hi : float) (i : nat) (d : float) :
  include_lb_of limits = Ok lb -> include_ub_of limits = Ok ub ->
  ascending (explicit_thresholds limits) = true ->
  explicit_thresholds limits !! 1%nat = Some l1 ->
  last (explicit_thresholds limits) = Some hi ->
  st !! i = Some d -> is_nan d = true ->
  exists labels,
    sst_bins st limits = Ok labels /\
    labels !! i
    = Some (if ub
            then Some (ubound (Bound hi (if PrimFloat.leb 60 l1 then Minutes
                                         else Seconds)))
            else None).
Proof.
  intros Hlb Hub Hasc Hl1 Hhi Hd Hnan.
  rewrite (explicit_thresholds_eq limits lb ub Hlb Hub) in Hasc, Hl1, Hhi.
  set (ls := explicit lb ub limits) in *.
  rewrite (sst_bins_increasing st limits ls lb ub l1)
    by auto using ascending_monotonicity.
  assert (ls <> []) as Hne by (intros E; rewrite E in Hl1; discriminate).
  destruct (mapM_total
              (fun d0 =>
                 label_of lb ub
                   (map (fun l => Bound l (if PrimFloat.leb 60 l1 then Minutes
                                           else Seconds)) ls)
                   (length ls) (Z.of_nat (searchsorted_right ls d0) - 1)) st)
    as (labels & Hlabels & Hpt).
  { intros x _. apply label_of_total; [exact Hne|].
    apply searchsorted_right_le. }
  exists labels. split; [exact Hlabels|].
  destruct (Hpt i d Hd) as (y & Hy & Hf). rewrite Hy. f_equal.
  rewrite (searchsorted_right_nan ls d Hnan) in Hf.
  rewrite (label_above lb ub ls _ hi Hhi) in Hf. congruence.
Qed.

Lemma nan_duration_is_labelled_above_witness :
  exists labels,
    sst_bins [10; nan]%float [neg_infinity; 60; 1800; 3600; infinity]%float
    = Ok labels /\
    labels !! 1%nat = Some (Some (ubound (Bound 3600 Minutes))).
Proof.
  apply (nan_duration_is_labelled_above [10; nan]%float
           [neg_infinity; 60; 1800; 3600; infinity]%float true true
           1800%float 3600%float 1 nan); reflexivity.
Defined.

End LimitsFacts.

(** ** [plot]: the arguments handed to [get] *)

Module PlotFacts.

Import Store Names WordFacts Plot.

Local Open Scope list_scope.

#[local] Set Warnings "-clear-no-such-hyp".

Lemma all_chars_impl (p q : ascii -> bool) (s : string) :
  (forall c, p c = true -> q c = true) ->
  all_chars p s = true -> all_chars q s = true.
Proof.
  intros Hpq. induction s as [|c s IH]; simpl; [reflexivity|].
  intros [Hc Hs]%andb_true_iff. rewrite (Hpq c Hc), (IH Hs). reflexivity.
Qed.

Lemma length_append (a b : string) :
  String.length (a +:+ b) = (String.length a + String.length b)%nat.
Proof.
  induction a as [|c a IH]; [reflexivity|]. rewrite append_cons. simpl.
  rewrite IH. reflexivity.
Qed.

(** *** The scan of the pattern *)

Lemma until_close_app (body rest : string) :
  all_chars (fun c => negb (Ascii.eqb c ")")) body = true ->
  until_close (body +:+ String ")" rest) = Some (body, rest).
Proof.
  induction body as [|c body IH]; intros H; [reflexivity|].
  rewrite append_cons. simpl in H |- *.
  apply andb_true_iff in H as [Hc Hb]. apply negb_true_iff in Hc.
  rewrite Hc, (IH Hb). reflexivity.
Qed.

Lemma nonspace_run_app (w rest : string) :
  no_space w = true ->
  match rest with
  | EmptyString => True
  | String c _ => PyStr.is_space c = true
  end ->
  nonspace_run (w +:+ rest) = (w, rest).
Proof.
  intros Hw Hrest. induction w as [|c w IH].
  - change ("" +:+ rest) with rest. destruct rest as [|c rest]; [reflexivity|].
    simpl. rewrite Hrest. reflexivity.
  - rewrite append_cons. unfold no_space in Hw. simpl in Hw.
    apply andb_true_iff in Hw as [Hc Hw]. apply negb_true_iff in Hc.
    simpl. rewrite Hc, (IH Hw). reflexivity.
Qed.

Lemma nonspace_run_word (w : string) :
  no_space w = true -> nonspace_run w = (w, EmptyString).
Proof.
  intros Hw. rewrite <- (append_nil w) at 1.
  apply nonspace_run_app; [exact Hw|exact I].
Qed.

(** *** [strip] *)

Lemma list_ascii_app (a b : string) :
  list_ascii_of_string (a +:+ b)
  = list_ascii_of_string a ++ list_ascii_of_string b.
Proof.
  induction a as [|c a IH]; [reflexivity|]. rewrite append_cons. simpl.
  rewrite IH. reflexivity.
Qed.

Lemma all_chars_forallb (p : ascii -> bool) (s : string) :
  all_chars p s = forallb p (list_ascii_of_string s).
Proof. induction s as [|c s IH]; simpl; [reflexivity|]. rewrite IH. reflexivity. Qed.

Lemma all_chars_reverse (p : ascii -> bool) (s : string) :
  all_chars p (PyStr.reverse s) = all_chars p s.
Proof.
  unfold PyStr.reverse. rewrite !all_chars_forallb.
  rewrite list_ascii_of_string_of_list_ascii.
  apply eq_true_iff_eq. rewrite !forallb_forall.
  split; intros H c Hc; apply H; [apply in_rev in Hc|apply in_rev]; exact Hc.
Qed.

Lemma reverse_involutive (s : string) : PyStr.reverse (PyStr.reverse s) = s.
Proof.
  unfold PyStr.reverse. rewrite list_ascii_of_string_of_list_ascii.
  rewrite rev_involutive. apply string_of_list_ascii_of_string.
Qed.

Lemma reverse_app (a b : string) :
  PyStr.reverse (a +:+ b) = PyStr.reverse b +:+ PyStr.reverse a.
Proof.
  unfold PyStr.reverse. rewrite list_ascii_app, rev_app_distr.
  generalize (rev (list_ascii_of_string b)) (rev (list_ascii_of_string a)).
  intros l l'. induction l as [|c l IH]; [reflexivity|].
  simpl. rewrite append_cons, IH. reflexivity.
Qed.

Lemma lstrip_chars_none (p : ascii -> bool) (s : string) :
  all_chars (fun c => negb (p c)) s = true -> lstrip_chars p s = s.
Proof.
  destruct s as [|c s]; [reflexivity|]. simpl.
  intros [Hc _]%andb_true_iff. apply negb_true_iff in Hc. rewrite Hc.
  reflexivity.
Qed.

Lemma strip_chars_none (p : ascii -> bool) (s : string) :
  all_chars (fun c => negb (p c)) s = true -> strip_chars p s = s.
Proof.
  intros H. unfold strip_chars. rewrite (lstrip_chars_none p s H).
  rewrite lstrip_chars_none by (rewrite all_chars_reverse; exact H).
  apply reverse_involutive.
Qed.

Lemma strip_chars_group (body : string) :
  body <> EmptyString ->
  all_chars (fun c => negb (is_paren c)) body = true ->
  strip_chars is_paren (String "(" (body +:+ ")")) = body.
Proof.
  intros Hne H. unfold strip_chars.
  assert (lstrip_chars is_paren (String "(" (body +:+ ")")) = body +:+ ")")
    as ->.
  { change (lstrip_chars is_paren (String "(" (body +:+ ")")))
      with (lstrip_chars is_paren (body +:+ ")")).
    destruct body as [|c body]; [congruence|].
    rewrite append_cons. simpl in H |- *.
    apply andb_true_iff in H as [Hc _]. apply negb_true_iff in Hc.
    rewrite Hc. reflexivity. }
  rewrite reverse_app.
  change (PyStr.reverse ")") with ")".
  change (lstrip_chars is_paren (")" +:+ PyStr.reverse body))
    with (lstrip_chars is_paren (PyStr.reverse body)).
  rewrite lstrip_chars_none by (rewrite all_chars_reverse; exact H).
  apply reverse_involutive.
Qed.

(** *** Joining and splitting *)

Lemma join_cons (sep w : string) (l : list string) :
  l <> [] -> join sep (w :: l) = w +:+ sep +:+ join sep l.
Proof. destruct l; [congruence|reflexivity]. Qed.

Lemma split_on_word (w : string) :
  all_chars (fun c => negb (Ascii.eqb c " ")) w = true ->
  split_on " " w = [w].
Proof.
  induction w as [|c w IH]; intros H; [reflexivity|].
  simpl in H |- *. apply andb_true_iff in H as [Hc Hw].
  apply negb_true_iff in Hc. rewrite Hc, (IH Hw). reflexivity.
Qed.

Lemma split_on_app (w rest : string) :
  all_chars (fun c => negb (Ascii.eqb c " ")) w = true ->
  split_on " " (w +:+ String " " rest) = w :: split_on " " rest.
Proof.
  induction w as [|c w IH]; intros H; [reflexivity|].
  rewrite append_cons. simpl in H |- *. apply andb_true_iff in H as [Hc Hw].
  apply negb_true_iff in Hc. rewrite Hc, (IH Hw). reflexivity.
Qed.

Lemma split_on_join (names : list string) :
  names <> [] ->
  Forall (fun n => all_chars (fun c => negb (Ascii.eqb c " ")) n = true)
         names ->
  split_on " " (join " " names) = names.
Proof.
  induction names as [|n names IH]; intros Hne Hall; [congruence|].
  inversion Hall as [|? ? Hn Hall']; subst.
  destruct names as [|n' names]; [apply split_on_word, Hn|].
  rewrite join_cons by discriminate.
  change (" " +:+ join " " (n' :: names))
    with (String " " (join " " (n' :: names))).
  rewrite split_on_app by exact Hn. f_equal. apply IH; [discriminate|].
  exact Hall'.
Qed.

(** Joining with ["/unit "] and closing with ["/unit"] gives every name its
    unit. *)
Lemma join_suffix (unit : string) (names : list string) :
  names <> [] ->
  join ("/" +:+ unit +:+ " ") names +:+ "/" +:+ unit
  = join " " (map (fun n => n +:+ "/" +:+ unit) names).
Proof.
  induction names as [|n names IH]; intros Hne; [congruence|].
  destruct names as [|n' names]; [reflexivity|].
  rewrite (join_cons _ n) by discriminate.
  change (map (fun n => n +:+ "/" +:+ unit) (n :: n' :: names))
    with ((n +:+ "/" +:+ unit)
          :: map (fun n => n +:+ "/" +:+ unit) (n' :: names)).
  rewrite (join_cons " " (n +:+ "/" +:+ unit)) by discriminate.
  rewrite <- IH by discriminate. rewrite !append_assoc. reflexivity.
Qed.

Lemma split_from_app (acc w rest : string) (c : ascii) :
  no_space w = true -> PyStr.is_space c = true ->
  PyStr.split_from (Some acc) (w +:+ String c rest)
  = (acc +:+ w) :: PyStr.split_from None rest.
Proof.
  intros Hw Hc. revert acc. induction w as [|a w IH]; intros acc.
  - change ("" +:+ String c rest) with (String c rest). simpl.
    rewrite Hc, append_nil. reflexivity.
  - rewrite append_cons. unfold no_space in Hw. simpl in Hw.
    apply andb_true_iff in Hw as [Ha Hw]. apply negb_true_iff in Ha.
    simpl. rewrite Ha, (IH Hw), append_assoc. reflexivity.
Qed.

Lemma split_join (words : list string) :
  Forall (fun w => is_word w = true) words ->
  PyStr.split (join " " words) = words.
Proof.
  induction words as [|w words IH]; intros Hall; [reflexivity|].
  inversion Hall as [|? ? Hw Hall']; subst.
  destruct words as [|w' words]; [apply split_word, Hw|].
  rewrite join_cons by discriminate.
  change (" " +:+ join " " (w' :: words))
    with (String " " (join " " (w' :: words))).
  unfold is_word in Hw. apply andb_true_iff in Hw as [Hne Hsp].
  destruct w as [|a w]; [discriminate|].
  unfold no_space in Hsp. simpl in Hsp.
  apply andb_true_iff in Hsp as [Ha Hsp]. apply negb_true_iff in Ha.
  unfold PyStr.split. rewrite append_cons. simpl. rewrite Ha.
  rewrite split_from_app by (exact Hsp || reflexivity).
  f_equal. apply (IH Hall').
Qed.

Lemma contains_app (sub pre post : string) :
  contains sub (pre +:+ sub +:+ post) = true.
Proof.
  assert (String.prefix sub (sub +:+ post) = true) as Hp.
  { induction sub as [|c sub IH]; [destruct post; reflexivity|].
    rewrite append_cons. simpl. rewrite IH.
    destruct (ascii_dec c c); [reflexivity|congruence]. }
  induction pre as [|c pre IH].
  - change ("" +:+ sub +:+ post) with (sub +:+ post).
    destruct (sub +:+ post); simpl in *; rewrite Hp; reflexivity.
  - rewrite append_cons. simpl. rewrite IH. apply orb_true_r.
Qed.

(** *** A group with a unit *)

Lemma findall_group (body unit : string) :
  all_chars (fun c => negb (Ascii.eqb c ")")) body = true ->
  no_space unit = true ->
  findall (String "(" (body +:+ String ")" (String "/" unit)))
  = [String "(" (body +:+ ")"); String "/" unit].
Proof.
  intros Hbody Hunit. unfold findall.
  cbn [String.length]. rewrite length_append. cbn [String.length].
  rewrite Nat.add_succ_r. cbn [findall_from].
  change (PyStr.is_space "(") with false. cbv iota.
  change (Ascii.eqb "(" "(") with true. cbv iota.
  rewrite until_close_app by exact Hbody.
  f_equal.
  rewrite Nat.add_succ_r. cbn [findall_from].
  change (PyStr.is_space "/") with false. cbv iota.
  change (Ascii.eqb "/" "(") with false. cbv iota.
  rewrite (nonspace_run_word (String "/" unit))
    by (unfold no_space; simpl; exact Hunit).
  cbn [fst snd]. reflexivity.
Qed.

Lemma distribute_group (group unit : string) :
  starts_with_slash group = false ->
  distribute_from 3 0 [group; String "/" unit]
  = Ok [join ("/" +:+ unit +:+ " ") (split_on " " group) +:+ "/" +:+ unit].
Proof. intros H. simpl. rewrite H. reflexivity. Qed.

Lemma plain_no_paren (s : string) :
  plain s = true -> all_chars (fun c => negb (is_paren c)) s = true.
Proof.
  apply all_chars_impl. intros c [[_ H]%andb_true_iff _]%andb_true_iff.
  exact H.
Qed.

Lemma plain_no_space (s : string) : plain s = true -> no_space s = true.
Proof.
  apply all_chars_impl. intros c [[H _]%andb_true_iff _]%andb_true_iff.
  exact H.
Qed.

Lemma plain_no_slash (s : string) : plain s = true -> no_slash s = true.
Proof.
  apply all_chars_impl. intros c [_ H]%andb_true_iff. exact H.
Qed.

Lemma all_chars_join (p : ascii -> bool) (names : list string) :
  p " "%char = true -> Forall (fun n => all_chars p n = true) names ->
  all_chars p (join " " names) = true.
Proof.
  intros Hsp. induction 1 as [|n names Hn Hall IH]; [reflexivity|].
  destruct names as [|n' names]; [exact Hn|].
  rewrite join_cons by discriminate. rewrite !all_chars_app, Hn, IH.
  simpl. rewrite Hsp. reflexivity.
Qed.

Lemma spec_units_lookup (unit : string) (l : list (string * option string))
    (units : gmap string string) (n : string) :
  Forall (fun p => p.2 = Some unit) l ->
  units !! n = Some unit \/ n ∈ l.*1 ->
  foldl (fun units p => match p.2 with
                        | Some unit => <[p.1:=unit]> units
                        | None => units
                        end) units l !! n = Some unit.
Proof.
  intros Hall. revert units. induction Hall as [|p l Hp Hall IH];
    intros units H.
  - destruct H as [H|H]; [exact H|]. apply elem_of_nil in H. contradiction.
  - cbn [foldl]. rewrite Hp. apply IH.
    destruct (decide (p.1 = n)) as [<-|Hne]; [left; apply lookup_insert_eq|].
    destruct H as [H|H]; [left; rewrite lookup_insert_ne by exact Hne; exact H|].
    cbn [fmap list_fmap] in H. apply elem_of_cons in H as [->|H];
      [congruence|right; exact H].
Qed.

Lemma parse_suffixed (unit : string) (names : list string) :
  Forall (fun n => no_slash n = true) names ->
  parse_variable <$> map (fun n => n +:+ "/" +:+ unit) names
  = map (fun n => (n, Some unit)) names.
Proof.
  induction 1 as [|n names Hn Hall IH]; [reflexivity|].
  cbn [map fmap list_fmap]. unfold parse_variable at 1.
  rewrite split_slash_app by exact Hn. f_equal. exact IH.
Qed.

(** [plot('(n1 ... nk)/unit')] hands [get] one argument, in which every
    name of the group carries the unit; [get] then asks for the names
    [n1 ... nk] and converts each of them to [unit]. *)
Theorem group_unit_is_distributed (names : list string) (unit : string) :
  names <> [] ->
  Forall (fun n => plain n = true /\ n <> EmptyString) names ->
  plain_unit unit = true ->
  let arg := join " " (map (fun n => n +:+ "/" +:+ unit) names) in
  iterator_of ("(" +:+ join " " names +:+ ")/" +:+ unit) = Ok [arg] /\
  requested arg = names /\
  forall n, n ∈ names -> spec_units_of arg !! n = Some unit.
Proof.
  intros Hne Hall Hunit arg.
  assert (Forall (fun n => plain n = true) names) as Hplain
    by (eapply Forall_impl; [exact Hall|]; intros n [H _]; exact H).
  assert (no_space unit = true) as Husp.
  { revert Hunit. apply all_chars_impl.
    intros c [H _]%andb_true_iff. exact H. }
  set (body := join " " names).
  assert (all_chars (fun c => negb (is_paren c)) body = true) as Hbody.
  { apply all_chars_join; [reflexivity|].
    eapply Forall_impl; [exact Hplain|]. apply plain_no_paren. }
  assert (body <> EmptyString) as Hbne.
  { subst body. destruct names as [|n names]; [congruence|].
    inversion Hall as [|? ? [_ Hn] _]; subst.
    destruct names; [exact Hn|]. rewrite join_cons by discriminate.
    destruct n; [congruence|]. rewrite append_cons. discriminate. }
  assert (starts_with_slash body = false) as Hslash.
  { subst body. destruct names as [|n names]; [congruence|].
    inversion Hall as [|? ? [Hn Hn'] _]; subst.
    apply plain_no_slash in Hn. destruct n as [|c n]; [congruence|].
    unfold no_slash in Hn. simpl in Hn.
    apply andb_true_iff in Hn as [Hc _]. apply negb_true_iff in Hc.
    destruct names; [exact Hc|]. rewrite join_cons by discriminate.
    rewrite append_cons. exact Hc. }
  assert (Forall (fun n => no_slash n = true) names) as Hnoslash
    by (eapply Forall_impl; [exact Hplain|]; apply plain_no_slash).
  assert (PyStr.split arg = map (fun n => n +:+ "/" +:+ unit) names)
    as Hsplit.
  { apply split_join. apply Forall_forall. intros w Hw.
    apply list_elem_of_In, in_map_iff in Hw as (n & <- & Hn).
    apply list_elem_of_In in Hn.
    rewrite Forall_forall in Hall. destruct (Hall n Hn) as [Hp Hn'].
    unfold is_word. apply andb_true_iff. split.
    - destruct n; [congruence|reflexivity].
    - unfold no_space. rewrite !all_chars_app.
      fold (no_space n). rewrite (plain_no_space n Hp).
      fold (no_space unit). rewrite Husp. reflexivity. }
  split; [|split].
  - change ("(" +:+ body +:+ ")/" +:+ unit)
      with (String "(" (body +:+ String ")" (String "/" unit))).
    unfold iterator_of. cbv zeta.
    change (String.eqb (String "(" ?x) "all") with false. cbv iota.
    change (String.eqb (String "(" ?x) "allsplit") with false. cbv iota.
    change (String.eqb (String "(" ?x) "allmerge") with false. cbv iota.
    cbn [contains_char]. change (Ascii.eqb "(" "(") with true.
    cbn [orb]. rewrite findall_group;
      [|revert Hbody; apply all_chars_impl; intros c Hc;
        unfold is_paren in Hc; rewrite negb_orb in Hc;
        apply andb_true_iff in Hc as [_ Hc]; exact Hc
       |exact Husp].
    cbn [map length].
    rewrite strip_chars_group by assumption.
    rewrite (strip_chars_none is_paren (String "/" unit))
      by (simpl; revert Hunit; apply all_chars_impl;
          intros c [_ H]%andb_true_iff; exact H).
    assert (contains ")/" (String "(" (body +:+ String ")" (String "/" unit)))
            = true) as ->.
    { apply (contains_app ")/" (String "(" body) unit). }
    rewrite distribute_group by exact Hslash.
    subst body. rewrite split_on_join; [|exact Hne|].
    + rewrite join_suffix by exact Hne. reflexivity.
    + eapply Forall_impl; [exact Hplain|]. intros n Hn.
      apply plain_no_space in Hn. revert Hn. apply all_chars_impl.
      intros c Hc. apply negb_true_iff. apply negb_true_iff in Hc.
      destruct (Ascii.eqb_spec c " "); [subst; discriminate|reflexivity].
  - unfold requested. rewrite Hsplit, parse_suffixed by exact Hnoslash.
    clear. induction names as [|n names IH]; [reflexivity|].
    cbn [map fmap list_fmap fst]. f_equal. exact IH.
  - intros n Hn. unfold spec_units_of.
    rewrite Hsplit, parse_suffixed by exact Hnoslash.
    apply spec_units_lookup.
    + apply Forall_forall. intros p Hp.
      apply list_elem_of_In, in_map_iff in Hp as (x & <- & _). reflexivity.
    + right. apply list_elem_of_fmap. exists (n, Some unit).
      split; [reflexivity|].
      apply list_elem_of_In, in_map_iff. exists n. split; [reflexivity|].
      apply list_elem_of_In. exact Hn.
Qed.

(** *** Brackets and braces *)

Lemma prefix_cons (x c : ascii) (p s : string) :
  String.prefix (String x p) (String c s)
  = if ascii_dec x c then String.prefix p s else false.
Proof. reflexivity. Qed.

Lemma contains_no_close (s : string) :
  all_chars (fun c => negb (Ascii.eqb c ")")) s = true ->
  contains ")/" s = false.
Proof.
  induction s as [|c s IH]; intros H; [reflexivity|].
  simpl in H. apply andb_true_iff in H as [Hc Hs].
  apply negb_true_iff in Hc. cbn [contains]. rewrite (IH Hs), orb_false_r.
  rewrite prefix_cons. destruct (ascii_dec ")" c) as [<-|_];
    [discriminate|reflexivity].
Qed.

Lemma findall_two_words (w1 w2 : string) :
  no_space w1 = true -> no_space w2 = true ->
  match w1 with String c _ => Ascii.eqb c "(" = false | _ => False end ->
  match w2 with String c _ => Ascii.eqb c "(" = false | _ => False end ->
  findall (w1 +:+ String " " w2) = [w1; w2].
Proof.
  intros H1 H2 Hc1 Hc2. unfold findall.
  assert (3 <= String.length (w1 +:+ String " " w2))%nat as Hlen.
  { rewrite length_append. cbn [String.length].
    destruct w1, w2; try contradiction. cbn [String.length]. lia. }
  destruct (String.length (w1 +:+ String " " w2)) as [|[|[|fuel]]];
    try lia. clear Hlen.
  destruct w1 as [|c1 w1]; [contradiction|].
  rewrite append_cons. cbn [findall_from].
  pose proof H1 as H1'. unfold no_space in H1'. simpl in H1'.
  apply andb_true_iff in H1' as [Hs1 _]. apply negb_true_iff in Hs1.
  rewrite Hs1, Hc1. cbv iota.
  rewrite <- append_cons.
  rewrite (nonspace_run_app (String c1 w1) (String " " w2))
    by (exact H1 || reflexivity).
  cbn [fst snd]. f_equal.
  change (PyStr.is_space " ") with true. cbv iota.
  destruct w2 as [|c2 w2]; [contradiction|].
  pose proof H2 as H2'. unfold no_space in H2'. simpl in H2'.
  apply andb_true_iff in H2' as [Hs2 _]. apply negb_true_iff in Hs2.
  rewrite Hs2, Hc2. cbv iota.
  rewrite (nonspace_run_word (String c2 w2)) by exact H2.
  cbn [fst snd]. destruct fuel; reflexivity.
Qed.

Lemma iterator_of_delimited (o c : ascii) (a b : string) :
  plain a = true -> plain b = true ->
  PyStr.is_space o = false -> PyStr.is_space c = false ->
  is_paren o = false -> is_paren c = false ->
  Ascii.eqb o "a" = false ->
  Ascii.eqb o "[" || Ascii.eqb o "{" = true ->
  iterator_of (String o a +:+ String " " (b +:+ String c ""))
  = Ok [String o a; b +:+ String c ""].
Proof.
  intros Ha Hb Hso Hsc Hpo Hpc Hoa Ho.
  assert (no_space (String o a) = true) as Hw1.
  { unfold no_space. simpl. rewrite Hso. apply (plain_no_space a Ha). }
  assert (no_space (b +:+ String c "") = true) as Hw2.
  { unfold no_space. rewrite all_chars_app. fold (no_space b).
    rewrite (plain_no_space b Hb). simpl. rewrite Hsc. reflexivity. }
  assert (all_chars (fun x => negb (is_paren x)) (String o a) = true) as Hp1.
  { simpl. rewrite Hpo. apply (plain_no_paren a Ha). }
  assert (all_chars (fun x => negb (is_paren x)) (b +:+ String c "") = true)
    as Hp2.
  { rewrite all_chars_app, (plain_no_paren b Hb). simpl. rewrite Hpc.
    reflexivity. }
  assert (forall x, is_paren x = false -> Ascii.eqb x "(" = false) as Hopen.
  { intros x Hx. unfold is_paren in Hx. apply orb_false_iff in Hx as [Hx _].
    exact Hx. }
  assert (forall x, negb (is_paren x) = true -> negb (Ascii.eqb x ")") = true)
    as Hclose.
  { intros x Hx. unfold is_paren in Hx. rewrite negb_orb in Hx.
    apply andb_true_iff in Hx as [_ Hx]. exact Hx. }
  unfold iterator_of. cbv zeta. rewrite append_cons.
  assert (String.eqb (String o (a +:+ String " " (b +:+ String c ""))) "all"
          = false) as ->.
  { simpl. rewrite Hoa. reflexivity. }
  assert (forall rest,
            String.eqb (String o (a +:+ String " " (b +:+ String c "")))
                       (String "a" rest) = false) as Hne.
  { intros rest. simpl. rewrite Hoa. reflexivity. }
  rewrite (Hne "llsplit"), (Hne "llmerge").
  assert (contains_char "(" (String o (a +:+ String " " (b +:+ String c "")))
          || contains_char "[" (String o (a +:+ String " " (b +:+ String c "")))
          || contains_char "{" (String o (a +:+ String " " (b +:+ String c "")))
          = true) as ->.
  { cbn [contains_char]. apply orb_true_iff in Ho as [->| ->];
      rewrite ?orb_true_r; reflexivity. }
  rewrite <- append_cons.
  rewrite findall_two_words; [|exact Hw1|exact Hw2|apply Hopen, Hpo|].
  2: { destruct b as [|x b]; [apply Hopen, Hpc|].
       rewrite append_cons. apply Hopen. apply plain_no_paren in Hb.
       simpl in Hb. apply andb_true_iff in Hb as [Hx _].
       apply negb_true_iff. exact Hx. }
  cbn [map]. rewrite !strip_chars_none by assumption.
  rewrite contains_no_close; [reflexivity|].
  rewrite all_chars_app, (all_chars_impl _ _ (String o a) Hclose Hp1).
  exact (all_chars_impl _ _ (b +:+ String c "") Hclose Hp2).
Qed.

(** Square brackets and braces do not make a group, whatever the text of
    [plot] says: the two names are asked for one by one, with the bracket
    left in each. *)
Theorem brackets_do_not_group (a b : string) :
  plain a = true -> plain b = true ->
  iterator_of ("[" +:+ a +:+ " " +:+ b +:+ "]") = Ok ["[" +:+ a; b +:+ "]"] /\
  iterator_of ("{" +:+ a +:+ " " +:+ b +:+ "}") = Ok ["{" +:+ a; b +:+ "}"].
Proof.
  intros Ha Hb. split.
  - apply (iterator_of_delimited "[" "]" a b Ha Hb); reflexivity.
  - apply (iterator_of_delimited "{" "}" a b Ha Hb); reflexivity.
Qed.


(** The group of the example in the text of [plot]. *)
Lemma group_unit_is_distributed_witness :
  iterator_of "(Qev Qcond)/TeV/ns" = Ok ["Qev/TeV/ns Qcond/TeV/ns"] /\
  requested "Qev/TeV/ns Qcond/TeV/ns" = ["Qev"; "Qcond"] /\
  spec_units_of "Qev/TeV/ns Qcond/TeV/ns" !! "Qcond" = Some "TeV/ns".
Proof.
  destruct (group_unit_is_distributed ["Qev"; "Qcond"] "TeV/ns")
    as (H1 & H2 & H3);
    [discriminate
    |repeat constructor; solve [reflexivity | discriminate]
    |reflexivity|].
  split; [exact H1|]. split; [exact H2|].
  apply H3. right. left.
Defined.

Lemma brackets_do_not_group_witness :
  iterator_of "[T1 T2]" = Ok ["[T1"; "T2]"] /\
  iterator_of "{T1 T2}" = Ok ["{T1"; "T2}"].
Proof. apply (brackets_do_not_group "T1" "T2"); reflexivity. Defined.

End PlotFacts.

(** ** Quantities read as is, and filters applied twice *)

Module ColumnFacts.

Import Store Effects Names Filters.
Import StoreFacts WordFacts GetFacts FilterFacts LimitsFacts.

Local Open Scope list_scope.

#[local] Set Warnings "-clear-no-such-hyp".

Section Plain.

Context `{Ext : Externals}.

Lemma build_as_is_only
    (self_get : string -> gmap string filter_value -> M result) (x : string)
    (kwargs : gmap string filter_value) (s s1 : DataTaker) :
  x ∉ special_names ->
  _build_quantities self_get (list_to_set [x]) kwargs s = (Ok tt, s1) ->
  exists conv raw col,
    _name_converter s !! x = Some conv /\
    filtered (raw_data s) kwargs = Ok raw /\
    column raw (col_names conv) = Ok col /\
    quantities s1
    = <[x:=Q_ col (conv_units conv) (conv_labels conv) (conv_properties conv)]>
        (quantities s).
Proof.
  intros Hx H.
  unfold special_names in Hx. rewrite !not_elem_of_union in Hx.
  destruct Hx as [[[Hx1 Hx2] Hx3] Hx4].
  unfold _build_quantities in H. cbv zeta in H.
  rewrite (single_inter_out x hum_ratio_names) in H by exact Hx1.
  rewrite (single_inter_out x enthalpy_names) in H by exact Hx4.
  rewrite (single_inter_out x dependent_names) in H by exact Hx3.
  rewrite (single_inter_out x to_clean_names) in H by exact Hx2.
  rewrite single_rest in H.
  assert ((∅ : gset string) ∖ own_rule = ∅) as Hown by set_solver.
  rewrite Hown, set_order_empty, set_order_singleton in H.
  inv_bind H as self_raw s2 Hself. injection Hself as <- <-.
  inv_bind H as raw s2 Hraw. injection Hraw as Hraw <-.
  destruct (decide ((∅ : gset string) = ∅ ∧ (∅ : gset string) = ∅))
    as [_|Hn]; [|exfalso; apply Hn; auto].
  destruct (decide ("Pel" ∈ (∅ : gset string))) as [Hin|_]; [set_solver|].
  destruct (decide ("t" ∈ (∅ : gset string))) as [Hin|_]; [set_solver|].
  unfold build_to_clean in H.
  destruct (decide ((∅ : gset string) = ∅)) as [_|Hn]; [|congruence].
  cbn [for_each] in H.
  repeat first [rewrite bindM_assoc in H | rewrite bindM_ret in H].
  unfold build_as_is in H.
  rewrite bindM_assoc, bindM_gets in H.
  rewrite bindM_assoc in H.
  inv_bind H as conv s2 Hconv. unfold lift, loc in Hconv.
  destruct (_name_converter s !! x) as [conv'|] eqn:Enc; [|discriminate].
  injection Hconv as -> <-.
  rewrite bindM_assoc in H.
  inv_bind H as col s2 Hcol. unfold lift in Hcol. injection Hcol as Hcol <-.
  repeat first [rewrite bindM_assoc in H | rewrite bindM_ret in H].
  inv_bind H as u s2 Hstore. injection Hstore as _ <-.
  injection H as <-.
  exists conv, raw, col. auto.
Qed.

(** A quantity with no rule of its own is the column the table of the names
    gives for it, restricted to the rows the filters keep, with the units,
    label and property of that table; [get] answers with it, converted to
    no unit in particular. *)
Theorem get_reads_filtered_column (depth : nat) (x : string) (update : bool)
    (kwargs : gmap string filter_value) (s s' : DataTaker) (r : result) :
  is_word x = true -> no_slash x = true -> x ∉ special_names ->
  update = true \/ _groups s <> kwargs \/ x ∉ dom (quantities s) ->
  get depth x update kwargs s = (Ok r, s') ->
  exists conv raw col q,
    _name_converter s !! x = Some conv /\
    filtered (raw_data s) kwargs = Ok raw /\
    column raw (col_names conv) = Ok col /\
    quantities s' !! x
    = Some (Q_ col (conv_units conv) (conv_labels conv)
               (conv_properties conv)) /\
    r = One q /\
    Q_to (Q_ col (conv_units conv) (conv_labels conv) (conv_properties conv))
         None = Ok q.
Proof.
  intros Hword Hslash Hx Hcond H.
  assert (requested x = [x]) as Hreq.
  { unfold requested. rewrite (split_word x Hword). cbn [fmap list_fmap].
    unfold parse_variable. rewrite (split_slash_none x Hslash). reflexivity. }
  assert (spec_units_of x !! x = None) as Hunits.
  { unfold spec_units_of. rewrite (split_word x Hword).
    cbn [fmap list_fmap foldl]. unfold parse_variable.
    rewrite (split_slash_none x Hslash). reflexivity. }
  pose proof (get_answer _ _ _ _ _ _ _ H) as Hanswer.
  destruct (answer_one x x None s' s' r Hreq Hunits Hanswer)
    as (stored & q & -> & Hstored & Hq).
  destruct depth as [|d]; [discriminate|].
  rewrite get_S in H. unfold get_with in H. cbv zeta in H.
  rewrite bindM_gets, Hreq in H.
  assert (exists s0 s1,
            _build_quantities (fun v k => get d v false k) (list_to_set [x])
              kwargs s0 = (Ok tt, s1) /\
            raw_data s0 = raw_data s /\
            _name_converter s0 = _name_converter s /\
            quantities s' = quantities s1)
    as (s0 & s1 & Hbuild & Hr & Hn & Hqs).
  { destruct (update || negb (bool_decide (_groups s = kwargs))) eqn:Ec.
    - rewrite bindM_assoc in H. unfold clear in H. rewrite bindM_modify in H.
      inv_bind H as u s1 Hbuild. destruct u.
      inv_bind H as u s2 Hg. injection Hg as _ <-.
      apply answer_state in H as ->. eauto 10.
    - assert (x ∉ dom (quantities s)) as Hout.
      { destruct Hcond as [->|[Hne|Hout]]; [discriminate| |exact Hout].
        rewrite bool_decide_eq_false_2 in Ec by exact Hne.
        rewrite orb_true_r in Ec. discriminate. }
      rewrite bindM_assoc, bindM_gets in H.
      assert ((list_to_set [x] : gset string) ∖ dom (quantities s)
              = list_to_set [x]) as Heq by set_solver.
      rewrite Heq in H.
      inv_bind H as u s1 Hbuild. destruct u.
      inv_bind H as u s2 Hg. injection Hg as _ <-.
      apply answer_state in H as ->. eauto 10. }
  apply (build_as_is_only _ x kwargs s0 s1 Hx) in Hbuild
    as (conv & raw & col & Hconv & Hraw & Hcol & Hs1).
  rewrite Hqs, Hs1, lookup_insert_eq in Hstored. injection Hstored as <-.
  exists conv, raw, col, q. rewrite <- Hn, <- Hr.
  split; [exact Hconv|]. split; [exact Hraw|]. split; [exact Hcol|].
  split; [rewrite Hqs, Hs1; apply lookup_insert_eq|]. split; [reflexivity|].
  exact Hq.
Qed.

(** A call for names that are read as is or cleaned adds nothing to the
    store but these names, whether it returns or raises. *)
Theorem get_leaf_writes_requested_only (depth : nat) (variables : string)
    (update : bool) (kwargs : gmap string filter_value) (s : DataTaker) :
  leaf variables = true ->
  dom (quantities (get depth variables update kwargs s).2)
  ⊆ dom (quantities s) ∪ list_to_set (requested variables).
Proof.
  intros Hleaf.
  destruct (get depth variables update kwargs s) as [r s'] eqn:E.
  exact (within_get_leaf depth variables update kwargs Hleaf s r s' I E).
Qed.

End Plain.

Lemma get_reads_filtered_column_witness :
  exists q,
    quantities (get 1 "T1" false Demo.first_file Demo.dtk).2 !! "T1" = Some q /\
    magnitude q = [CNum 280%float; CNum 281%float].
Proof.
  destruct (get 1 "T1" false Demo.first_file Demo.dtk) as [[r|e] s'] eqn:E;
    [|vm_compute in E; discriminate].
  destruct (get_reads_filtered_column 1 "T1" false Demo.first_file Demo.dtk
              s' r)
    as (conv & raw & col & q & Hconv & Hraw & Hcol & Hq & _);
    [reflexivity|reflexivity|by_compute|right; left; vm_compute; discriminate
    |exact E|].
  eexists. split; [exact Hq|]. cbn [magnitude].
  vm_compute in Hconv. injection Hconv as <-.
  vm_compute in Hraw. injection Hraw as <-.
  vm_compute in Hcol. injection Hcol as <-. reflexivity.
Defined.

Lemma get_leaf_writes_requested_only_witness :
  dom (quantities (get 1 "T1 f" false ∅ Demo.warmed).2)
  ⊆ dom (quantities Demo.warmed) ∪ list_to_set (requested "T1 f").
Proof.
  apply (get_leaf_writes_requested_only 1 "T1 f" false ∅ Demo.warmed).
  vm_compute. reflexivity.
Defined.

(** *** Filtering twice *)

Lemma select_all_ge {A : Type} (mask : list bool) (a : list A) :
  Forall (eq true) mask -> (length a <= length mask)%nat -> select mask a = a.
Proof.
  revert a. induction mask as [|b mask IH]; intros [|x a] Hall Hlen;
    try reflexivity; [simpl in Hlen; lia|].
  inversion Hall as [|? ? <- Hall']; subst. simpl. f_equal.
  apply IH; [exact Hall'|]. simpl in Hlen. lia.
Qed.

Lemma select_mask_true {B : Type} (g : B -> bool) (mask : list bool)
    (c : list B) :
  mask = map g c -> Forall (eq true) (map g (select mask c)).
Proof.
  intros ->. induction c as [|y c IH]; [constructor|].
  simpl. destruct (g y) eqn:E; [|exact IH].
  simpl. constructor; [congruence|exact IH].
Qed.

Lemma select_length_le {A B : Type} (mask : list bool) (a : list A)
    (c : list B) :
  length mask = length c ->
  (length (select mask a) <= length (select mask c))%nat.
Proof.
  revert a c. induction mask as [|b mask IH]; intros a c Hlen;
    [simpl; lia|].
  destruct c as [|y c]; [discriminate|]. destruct a as [|x a].
  - simpl. lia.
  - simpl in Hlen. destruct b; simpl; [apply le_n_S|]; apply IH; lia.
Qed.

Lemma count_all_true (mask : list bool) :
  Forall (eq true) mask ->
  length (filter (fun b => b = true) mask) = length mask.
Proof.
  induction 1 as [|b mask <- _ IH]; [reflexivity|].
  rewrite filter_cons. destruct (decide (true = true)); [|congruence].
  simpl. rewrite IH. reflexivity.
Qed.

Lemma count_select_self {B : Type} (g : B -> bool) (c : list B) :
  length (select (map g c) c)
  = length (filter (fun b => b = true) (map g c)).
Proof.
  induction c as [|y c IH]; [reflexivity|]. simpl. rewrite filter_cons.
  destruct (g y) eqn:E; simpl.
  - destruct (decide (true = true)); [|congruence]. simpl. rewrite IH.
    reflexivity.
  - destruct (decide (false = true)); [discriminate|]. exact IH.
Qed.

(** Applying a filter again changes nothing. *)
Theorem filter_is_idempotent (df df1 : frame) (key : string)
    (value : filter_value) :
  filter_rows df key value = Ok df1 -> filter_rows df1 key value = Ok df1.
Proof.
  intros H. destruct (columns df !! key) as [c|] eqn:E.
  2: { rewrite (filter_rows_missing df key value E) in H. discriminate. }
  rewrite (filter_rows_present df key value c E) in H. injection H as <-.
  set (g := fun x => cell_eq x value).
  erewrite filter_rows_present
    by (cbn [columns]; rewrite lookup_fmap, E; reflexivity).
  fold g.
  pose proof (select_mask_true g (map g c) c eq_refl) as Hall.
  f_equal. f_equal.
  - cbn [n_rows]. rewrite (count_all_true _ Hall), length_map.
    apply count_select_self.
  - cbn [columns]. rewrite <- map_fmap_compose.
    apply map_fmap_ext. intros i a _. cbn [compose].
    apply select_all_ge; [exact Hall|].
    rewrite length_map. apply select_length_le. apply length_map.
Qed.

Lemma filter_is_idempotent_witness :
  exists df1,
    filter_rows Demo.table "file_index" (FInt 0) = Ok df1 /\
    filter_rows df1 "file_index" (FInt 0) = Ok df1 /\ n_rows df1 = 2%nat.
Proof.
  destruct (filter_rows Demo.table "file_index" (FInt 0)) as [df1|e] eqn:E;
    [|vm_compute in E; discriminate].
  exists df1. split; [reflexivity|].
  split; [exact (filter_is_idempotent _ _ _ _ E)|].
  vm_compute in E. injection E as <-. reflexivity.
Defined.

End ColumnFacts.

(** ** The segmenter on memory that holds a NaN *)

Module MemoryFacts.

Import Segmenter Binner Shape ShapeFacts.

Local Open Scope list_scope.

Lemma is_nan_SF (x : float) : is_nan x = true <-> Prim2SF x = S754_nan.
Proof.
  unfold is_nan. rewrite negb_true_iff, FloatAxioms.eqb_spec. split.
  - destruct (Prim2SF x) as [[]|[]| |[] m e] eqn:E; try reflexivity;
      unfold SFeqb; simpl; try discriminate;
      rewrite Z.compare_refl, ?Pos.compare_cont_refl; simpl; discriminate.
  - intros ->. reflexivity.
Qed.

Lemma nan_add_r (x y : float) : is_nan y = true -> is_nan (x + y) = true.
Proof.
  rewrite !is_nan_SF, FloatAxioms.add_spec. intros ->.
  destruct (Prim2SF x) as [[]|[]| |[] m e]; reflexivity.
Qed.

Lemma nan_mul_r (x y : float) : is_nan y = true -> is_nan (x * y) = true.
Proof.
  rewrite !is_nan_SF, FloatAxioms.mul_spec. intros ->.
  destruct (Prim2SF x) as [[]|[]| |[] m e]; reflexivity.
Qed.

Lemma nan_add_l (x y : float) : is_nan x = true -> is_nan (x + y) = true.
Proof.
  rewrite !is_nan_SF, FloatAxioms.add_spec. intros ->. reflexivity.
Qed.

Lemma nan_div_l (x y : float) : is_nan x = true -> is_nan (x / y) = true.
Proof.
  rewrite !is_nan_SF, FloatAxioms.div_spec. intros ->. reflexivity.
Qed.

Lemma nan_sub_r (x y : float) : is_nan y = true -> is_nan (x - y) = true.
Proof.
  rewrite !is_nan_SF, FloatAxioms.sub_spec. intros ->.
  destruct (Prim2SF x) as [[]|[]| |[] m e]; reflexivity.
Qed.

Lemma nan_sqrt (x : float) : is_nan x = true -> is_nan (PrimFloat.sqrt x) = true.
Proof.
  rewrite !is_nan_SF, FloatAxioms.sqrt_spec. intros ->. reflexivity.
Qed.

Lemma nan_ltb_l (x y : float) : is_nan x = true -> PrimFloat.ltb x y = false.
Proof.
  rewrite is_nan_SF, FloatAxioms.ltb_spec. intros ->. reflexivity.
Qed.

Lemma nan_ltb_r (x y : float) : is_nan y = true -> PrimFloat.ltb x y = false.
Proof.
  rewrite is_nan_SF, FloatAxioms.ltb_spec. intros ->.
  destruct (Prim2SF x) as [[]|[]| |[] m e]; reflexivity.
Qed.

(** The cell that [a[k - 1]] reads: the last one when [k] is 0. *)
Lemma getitem_pred {A : Type} (a : list A) (k : nat) (x : A) :
  a !! (if k is O then Nat.pred (length a) else Nat.pred k) = Some x ->
  getitem a (Z.of_nat k - 1) = Ok x.
Proof.
  intros H. pose proof (lookup_lt_Some _ _ _ H) as Hlt.
  destruct k as [|k].
  - unfold getitem, norm_index. change (Z.of_nat 0 - 1 <? 0) with true.
    cbv iota.
    destruct (Z.leb_spec 0 (Z.of_nat 0 - 1 + Z.of_nat (length a))); [|lia].
    destruct (Z.ltb_spec (Z.of_nat 0 - 1 + Z.of_nat (length a))
                (Z.of_nat (length a))); [|lia].
    cbn [andb].
    replace (Z.to_nat (Z.of_nat 0 - 1 + Z.of_nat (length a)))
      with (Nat.pred (length a)) by lia.
    rewrite H. reflexivity.
  - replace (Z.of_nat (S k) - 1) with (Z.of_nat k) by lia.
    apply BinnerFacts.getitem_nat. exact H.
Qed.

Lemma setitem_nat {A : Type} (a : list A) (k : nat) (x : A) :
  (k < length a)%nat -> setitem a (Z.of_nat k) x = Ok (<[k:=x]> a).
Proof.
  intros H. unfold setitem, norm_index.
  destruct (Z.ltb_spec (Z.of_nat k) 0); [lia|].
  destruct (Z.leb_spec 0 (Z.of_nat k)); [|lia].
  destruct (Z.ltb_spec (Z.of_nat k) (Z.of_nat (length a))); [|lia].
  cbn [andb]. rewrite Nat2Z.id. reflexivity.
Qed.

Lemma loop_body_nan (n k : nat) (sd_limit f : float) (s : loop_state)
    (x : float) :
  sized n s -> (k < n)%nat ->
  mean s !! (if k is O then Nat.pred n else Nat.pred k) = Some x ->
  is_nan x = true ->
  exists s' y,
    loop_body sd_limit (Z.of_nat k) f s = Ok s' /\ sized n s' /\
    mean s' !! k = Some y /\ is_nan y = true /\
    steps_number s' = steps_number s /\ buffer s' = buffer s + 1.
Proof.
  intros (Hm & Hv & Hs) Hk Hx Hnan. unfold loop_body. cbv zeta.
  rewrite (getitem_pred (mean s) k x) by (rewrite Hm; exact Hx).
  cbn [bind]. rewrite setitem_nat by lia. cbn [bind].
  destruct (getitem_in_range (var s) (Z.of_nat k - 1)) as [vp ->]; [lia|].
  cbn [bind].
  set (m := ((float_of_Z (buffer s) * x + f) / float_of_Z (buffer s + 1))%float).
  assert (is_nan m = true) as Hmn
    by (apply nan_div_l, nan_add_l, nan_mul_r; exact Hnan).
  destruct (getitem_in_range (<[k:=m]> (mean s)) (Z.of_nat k - 1))
    as [mp' ->]; [rewrite length_insert; lia|].
  cbn [bind].
  rewrite (BinnerFacts.getitem_nat (<[k:=m]> (mean s)) k m)
    by (apply list_lookup_insert_eq; lia).
  cbn [bind]. rewrite setitem_nat by lia. cbn [bind].
  match goal with
  | |- context [<[k:=?v]> (var s)] => set (v1 := v)
  end.
  rewrite (BinnerFacts.getitem_nat (<[k:=v1]> (var s)) k v1)
    by (apply list_lookup_insert_eq; lia).
  cbn [bind].
  assert (is_nan v1 = true) as Hvn
    by (apply nan_sub_r, nan_mul_r; exact Hmn).
  unfold math_sqrt. rewrite (nan_ltb_l v1 0 Hvn). cbn [bind].
  rewrite (nan_ltb_r sd_limit _ (nan_sqrt v1 Hvn)).
  eexists _, m. split; [reflexivity|].
  split; [repeat split; simpl; rewrite ?length_insert; assumption|].
  split; [apply list_lookup_insert_eq; lia|]. auto.
Qed.

Lemma loop_nan (n : nat) (sd_limit : float) (fs : list float) (k : nat)
    (s : loop_state) (x : float) :
  sized n s -> (k + length fs < n)%nat ->
  mean s !! (if k is O then Nat.pred n else Nat.pred k) = Some x ->
  is_nan x = true ->
  exists s',
    loop sd_limit (Z.of_nat k) fs s = Ok s' /\
    steps_number s' = steps_number s /\
    buffer s' = buffer s + Z.of_nat (length fs).
Proof.
  revert k s x. induction fs as [|f fs IH]; intros k s x Hs Hk Hx Hnan.
  - exists s. simpl. split; [reflexivity|]. split; [reflexivity|lia].
  - cbn [length] in Hk. cbn [loop].
    destruct (loop_body_nan n k sd_limit f s x Hs ltac:(lia) Hx Hnan)
      as (s1 & y & -> & Hs1 & Hy & Hyn & Hst & Hb).
    cbn [bind]. replace (Z.of_nat k + 1) with (Z.of_nat (S k)) by lia.
    destruct (IH (S k) s1 y Hs1 ltac:(lia) Hy Hyn) as (s' & -> & Hst' & Hb').
    exists s'. split; [reflexivity|]. split; [congruence|].
    rewrite Hb', Hb. cbn [length]. lia.
Qed.

Lemma fill_all {A : Type} (a : list A) (x : A) :
  fill_range a 0 (length a) x = replicate (length a) x.
Proof.
  unfold fill_range. apply list_eq. intros i. rewrite list_lookup_imap.
  destruct (a !! i) as [y|] eqn:E; simpl.
  - pose proof (lookup_lt_Some _ _ _ E) as Hlt.
    destruct (Nat.ltb_spec i (length a)); [|lia]. simpl.
    symmetry. apply lookup_replicate_2. exact Hlt.
  - apply lookup_ge_None in E. symmetry. apply lookup_replicate_None. exact E.
Qed.

(** When the cell that the first iteration reads as [mean[-1]], which
    nothing has written yet, holds a NaN, every running mean and variance is
    a NaN, no comparison with the limit succeeds, and the function returns
    the number of samples at every sample, whatever the frequency does. *)
Theorem nan_memory_hides_changes (u : uninitialised) (frequency : list float)
    (sd_limit : float) :
  (2 <= length frequency)%nat ->
  is_nan (u_mean u (Nat.pred (length frequency))) = true ->
  steps_number_of u frequency sd_limit
  = Ok (replicate (length frequency)
          (float_of_Z (Z.of_nat (length frequency)))).
Proof.
  intros Hlen Hnan. destruct frequency as [|f0 fs]; [simpl in Hlen; lia|].
  unfold steps_number_of. cbv zeta.
  change (getitem (f0 :: fs) 0) with (Ok f0 : err float). cbn [bind].
  set (n := length (f0 :: fs)) in *.
  assert (forall (B : Type) (g : nat -> B),
            length (empty_like g (f0 :: fs)) = n) as Hl.
  { intros B g. unfold empty_like. rewrite length_map, length_seq.
    reflexivity. }
  change 0 with (Z.of_nat 0).
  rewrite !setitem_nat by (rewrite Hl; lia). cbn [bind tail].
  destruct (loop_nan n sd_limit fs 0
              (LoopState (<[0%nat:=f0]> (empty_like (u_mean u) (f0 :: fs)))
                 (<[0%nat:=0%float]> (empty_like (u_var u) (f0 :: fs)))
                 (empty_like (u_steps u) (f0 :: fs)) 1)
              (u_mean u (Nat.pred n)))
    as (s' & -> & Hst & Hb).
  - unfold sized. cbn [mean var steps_number].
    rewrite !length_insert, !Hl. auto.
  - subst n. simpl. lia.
  - cbn [mean]. rewrite list_lookup_insert_ne by lia.
    unfold empty_like. rewrite list_lookup_fmap.
    fold n. rewrite lookup_seq_lt by lia. reflexivity.
  - exact Hnan.
  - cbn [bind]. cbn [steps_number buffer] in Hst, Hb. rewrite Hst, Hb.
    replace (1 + Z.of_nat (length fs)) with (Z.of_nat n)
      by (subst n; simpl; lia).
    unfold setslice_from. rewrite Hl.
    assert (slice_bound n (- Z.of_nat n) = 0%nat) as ->.
    { unfold slice_bound. destruct (Z.ltb_spec (- Z.of_nat n) 0); lia. }
    rewrite <- (Hl _ (u_steps u)) at 1 3. rewrite fill_all, Hl. reflexivity.
Qed.

Lemma nan_memory_hides_changes_witness :
  steps_number_of (Uninitialised (fun _ => nan) (fun _ => 0%float)
                     (fun _ => 0%float))
    [50; 50; 90; 90]%float 2
  = Ok (replicate 4 4%float).
Proof.
  apply (nan_memory_hides_changes
           (Uninitialised (fun _ => nan) (fun _ => 0%float) (fun _ => 0%float))
           [50; 50; 90; 90]%float 2).
  - simpl. lia.
  - reflexivity.
Defined.

End MemoryFacts.
